(** * Campus-Connect backend: listing catalog and rating aggregation

    A shallow embedding of [src/routes/listings.js] and
    [src/routes/admin.js].  Each Express handler becomes a function from
    the request (acting identity, route parameters, parsed JSON body)
    and the catalog store to the response that is sent and the store
    that results.  JavaScript values are modelled dynamically, because
    the handlers coerce whatever JSON they receive; the PostgreSQL
    store is modelled by the meaning of each SQL statement the handlers
    issue. *)

From Stdlib Require Import Ascii String QArith Qabs.
From Stdlib Require Import Sorting.Sorted.
From stdpp Require Import gmap strings list fin_maps sorting pretty.

Set Warnings "-register-all".
Local Open Scope Z_scope.

(** ** JavaScript values *)

(** A JavaScript number: every finite double is a rational, so finite
    numbers are carried as [Q]; [NaN] and the two infinities are kept
    apart.  Only comparisons and zero tests are made on them, which
    agree on doubles and on the rationals they denote. *)
Inductive number : Type :=
| NaN
| Fin (q : Q)
| PInf
| NInf.

(** The values [JSON.parse] and node-postgres can produce, plus
    [undefined] for an absent property. *)
Inductive jsval : Type :=
| JUndefined
| JNull
| JBool (b : bool)
| JNum (n : number)
| JStr (s : string)
| JArr (l : list jsval)
| JObj (o : gmap string jsval).

Inductive js_error : Type :=
| TypeError.

(** Completion of an expression: a value or a thrown exception. *)
Inductive completion (A : Type) : Type :=
| Normal (a : A)
| Throw (e : js_error).
Arguments Normal {A} a.
Arguments Throw {A} e.

#[global] Instance completion_ret : MRet completion := fun A a => Normal a.
#[global] Instance completion_bind : MBind completion := fun A B f c =>
  match c with
  | Normal a => f a
  | Throw e => Throw e
  end.

(** Built-in operations of the JavaScript engine that the handlers call
    but whose text is not part of the repository. *)
Class Engine : Type := {
  (** ECMAScript StringToNumber, as applied by [Number(s)] and by the
      relational operators to a string operand. *)
  StringToNumber : string → number;
  (** Number::toString, reached when an array is converted to a string. *)
  NumberToString : number → string;
  (** [JSON.stringify] on a value built from JSON data. *)
  JSON_stringify : jsval → string;
  (** [err.message] of an exception the engine raised: the text is the
      engine's own. *)
  Error_message : js_error → string
}.

Definition Qeqb0 (q : Q) : bool := Qeq_bool q 0%Q.

(** ToBoolean *)
Definition truthy (v : jsval) : bool :=
  match v with
  | JUndefined | JNull => false
  | JBool b => b
  | JNum NaN => false
  | JNum (Fin q) => negb (Qeqb0 q)
  | JNum _ => true
  | JStr s => negb (String.eqb s "")
  | JArr _ | JObj _ => true
  end.

(** [a || b] on values. *)
Definition js_or (a b : jsval) : jsval := if truthy a then a else b.

Definition Array_isArray (v : jsval) : bool :=
  match v with
  | JArr _ => true
  | _ => false
  end.

(** [x < y], [x <= y] on numbers: false as soon as one side is NaN. *)
Definition Qltb (a b : Q) : bool := negb (Qle_bool b a).

Definition num_lt (a b : number) : bool :=
  match a, b with
  | NaN, _ | _, NaN => false
  | Fin x, Fin y => Qltb x y
  | NInf, (Fin _ | PInf) => true
  | Fin _, PInf => true
  | _, _ => false
  end.

Definition num_le (a b : number) : bool :=
  match a, b with
  | NaN, _ | _, NaN => false
  | Fin x, Fin y => Qle_bool x y
  | NInf, _ => true
  | _, PInf => true
  | _, _ => false
  end.

Definition num_isNaN (n : number) : bool :=
  match n with
  | NaN => true
  | _ => false
  end.

Definition num_Z (z : Z) : number := Fin (inject_Z z).

(** White space and line terminators removed by [String.prototype.trim],
    over the code points 0..255 a [string] character can hold:
    TAB, LF, VT, FF, CR, SPACE and NBSP. *)
Definition is_white_space (c : ascii) : bool :=
  let n := nat_of_ascii c in
  ((9 <=? n) && (n <=? 13))%nat || (n =? 32)%nat || (n =? 160)%nat.

Fixpoint trimStart (s : string) : string :=
  match s with
  | EmptyString => EmptyString
  | String c r => if is_white_space c then trimStart r else s
  end.

Fixpoint trimEnd (s : string) : string :=
  match s with
  | EmptyString => EmptyString
  | String c r =>
      let r' := trimEnd r in
      if is_white_space c && String.eqb r' "" then EmptyString else String c r'
  end.

Definition trim (s : string) : string := trimEnd (trimStart s).

Section JavaScript.
Context `{Engine}.

(** ToString.  An array converts through [join], where [undefined] and
    [null] elements give the empty string.  A plain object converts
    through the inherited [toString], unless the data shadows it with
    an own (hence non-callable) [toString] property: then
    OrdinaryToPrimitive finds no callable method and throws. *)
Fixpoint ToString (v : jsval) : completion string :=
  match v with
  | JUndefined => Normal "undefined"
  | JNull => Normal "null"
  | JBool true => Normal "true"
  | JBool false => Normal "false"
  | JNum n => Normal (NumberToString n)
  | JStr s => Normal s
  | JArr l =>
      (fix join (l : list jsval) : completion string :=
         match l with
         | [] => Normal ""
         | x :: r =>
             match (match x with
                    | JUndefined | JNull => Normal ""
                    | _ => ToString x
                    end) with
             | Throw e => Throw e
             | Normal sx =>
                 match r with
                 | [] => Normal sx
                 | _ :: _ =>
                     match join r with
                     | Throw e => Throw e
                     | Normal sr => Normal (sx +:+ "," +:+ sr)
                     end
                 end
             end
         end) l
  | JObj o =>
      match o !! "toString" with
      | Some _ => Throw TypeError
      | None => Normal "[object Object]"
      end
  end.

(** ToNumber, as performed by [Number(v)]. *)
Definition ToNumber (v : jsval) : completion number :=
  match v with
  | JUndefined => Normal NaN
  | JNull => Normal (num_Z 0)
  | JBool true => Normal (num_Z 1)
  | JBool false => Normal (num_Z 0)
  | JNum n => Normal n
  | JStr s => Normal (StringToNumber s)
  | JArr _ | JObj _ => s ← ToString v; Normal (StringToNumber s)
  end.

(** [v < n], [v > n], [v <= n], [v >= n] against a number: the other
    operand is converted with ToNumber (a string operand too, since
    the right-hand side is not a string). *)
Definition js_lt (v : jsval) (n : number) : completion bool :=
  x ← ToNumber v; Normal (num_lt x n).
Definition js_gt (v : jsval) (n : number) : completion bool :=
  x ← ToNumber v; Normal (num_lt n x).
Definition js_le (v : jsval) (n : number) : completion bool :=
  x ← ToNumber v; Normal (num_le x n).
Definition js_ge (v : jsval) (n : number) : completion bool :=
  x ← ToNumber v; Normal (num_le n x).

(** The global [isNaN(v)]. *)
Definition isNaN (v : jsval) : completion bool :=
  x ← ToNumber v; Normal (num_isNaN x).

(** [Number(v) || 0] *)
Definition Number_or_0 (v : jsval) : completion jsval :=
  x ← ToNumber v; Normal (js_or (JNum x) (JNum (num_Z 0))).
End JavaScript.

(** Property read [v.k] for a key that no prototype defines ([color],
    [size], [stock], [trim] on non-strings, ...): reading from
    [undefined] or [null] throws, an object gives its own property, any
    other value gives [undefined]. *)
Definition GetV (v : jsval) (k : string) : completion jsval :=
  match v with
  | JUndefined | JNull => Throw TypeError
  | JObj o => Normal (default JUndefined (o !! k))
  | _ => Normal JUndefined
  end.

(** [v.trim()]: only a string has a callable [trim]; on [undefined] and
    [null] the property read throws, on any other value the call of a
    non-function throws. *)
Definition call_trim (v : jsval) : completion jsval :=
  match v with
  | JStr s => Normal (JStr (trim s))
  | _ => Throw TypeError
  end.

(** [v?.trim()] *)
Definition optional_trim (v : jsval) : completion jsval :=
  match v with
  | JUndefined | JNull => Normal JUndefined
  | _ => call_trim v
  end.

(** The value of a character as a digit: [0-9], then [a-z] or [A-Z]
    for 10 to 35. *)
Definition digit_value (c : ascii) : option Z :=
  let n := Z.of_nat (nat_of_ascii c) in
  if (48 <=? n) && (n <=? 57) then Some (n - 48)
  else if (97 <=? n) && (n <=? 122) then Some (n - 87)
  else if (65 <=? n) && (n <=? 90) then Some (n - 55)
  else None.

(** The longest prefix of radix-[R] digits, [None] when there is none. *)
Fixpoint parse_digits (R : Z) (s : string) (acc : option Z) : option Z :=
  match s with
  | EmptyString => acc
  | String c r =>
      match digit_value c with
      | Some d => if d <? R then parse_digits R r (Some (default 0 acc * R + d)) else acc
      | None => acc
      end
  end.

Definition strip_sign (s : string) : Z * string :=
  match s with
  | String "-" r => (-1, r)
  | String "+" r => (1, r)
  | _ => (1, s)
  end.

Definition strip_radix (s : string) : Z * string :=
  match s with
  | String "0" (String "x" r) | String "0" (String "X" r) => (16, r)
  | _ => (10, s)
  end.

(** [parseInt(v)] with no radix.  The argument is converted to a string,
    leading white space and a sign are removed, a [0x] prefix selects
    radix 16, and the longest prefix of digits is read; [None] stands
    for NaN.  The integer read is kept exact. *)
Definition parseInt `{Engine} (v : jsval) : completion (option Z) :=
  inputString ← ToString v;
  let '(sign, S1) := strip_sign (trimStart inputString) in
  let '(R, S2) := strip_radix S1 in
  Normal (Z.mul sign <$> parse_digits R S2 None).

(** [parseInt(v) || d]: NaN and 0 are both falsy. *)
Definition int_or (n : option Z) (d : Z) : Z :=
  match n with
  | Some z => if z =? 0 then d else z
  | None => d
  end.

(** Object literal. *)
Definition obj (fields : list (string * jsval)) : jsval :=
  JObj (list_to_map fields).

(** ** Catalog store *)

(** A row of [listings], keyed by its [id] in the table.  The columns
    the SQL text computes with are typed; the columns that hold caller
    data ([title], [description], [price], [condition],
    [whatsapp_phone], [image_url], [image_urls], [stock_quantity],
    [category], [variants]) are kept in [content] as the values that
    were bound to the statement. *)
Record listing : Type := {
  user_id : Z;
  status : string;
  average_rating : Q;
  rating_count : Z;
  created_at : Z;
  content : gmap string jsval
}.

(** Modelled from the spec: the definition of the [ratings] table is
    not in the repository.  A row, keyed by its [id], references one
    listing and one rating user; the data model gives its value as an
    integer. *)
Record rating : Type := {
  r_listing_id : Z;
  r_user_id : Z;
  r_rating : Z;
  r_comment : jsval;
  r_created_at : Z
}.

(** The columns of [users] that the listing queries join in. *)
Record user : Type := {
  username : jsval;
  shop_name : jsval;
  avatar_url : jsval;
  cover_image_url : jsval
}.

Record store : Type := {
  listings : gmap Z listing;
  ratings : gmap Z rating;
  users : gmap Z user;
  ratings_id_seq : Z;
  listings_id_seq : Z
}.

(** What PostgreSQL and the node-postgres driver do with the values
    that cross the boundary. *)
Class Postgres : Type := {
  (** [column ILIKE pattern] on a stored cell. *)
  pg_ilike : jsval → string → bool;
  (** [column = $n] on a stored text cell and a bound value. *)
  pg_text_eq : jsval → jsval → bool;
  (** The number a NUMERIC cell holds, as [ORDER BY] compares it. *)
  pg_numeric : jsval → Q;
  (** The JavaScript value the driver delivers for a cell of the named
      column (NUMERIC arrives as a string, JSON parsed, ...). *)
  pg_deliver : string → jsval → jsval;
  (** Binding a value to an INTEGER column; [None] when the store
      rejects it. *)
  pg_integer_in : jsval → option Z;
  (** [ORDER BY]: the rows in an order that respects the comparison;
      rows that compare equal come in an order of the store's choice. *)
  pg_sort : ∀ A : Type, (A → A → bool) → list A → list A
}.
Arguments pg_sort {_ _} _ _.

(** The guarantees of [ORDER BY]. *)
Class PostgresLaws (P : Postgres) : Prop := {
  pg_sort_perm : ∀ A (le : A → A → bool) (l : list A), pg_sort le l ≡ₚ l;
  pg_sort_sorted : ∀ A (le : A → A → bool) (l : list A),
    (∀ x y, le x y = true ∨ le y x = true) →
    (∀ x y z, le x y = true → le y z = true → le x z = true) →
    StronglySorted (λ x y, le x y = true) (pg_sort le l)
}.

Definition set_listings (f : gmap Z listing → gmap Z listing) (s : store) : store :=
  {| listings := f (listings s); ratings := ratings s; users := users s;
     ratings_id_seq := ratings_id_seq s; listings_id_seq := listings_id_seq s |}.

Definition set_ratings (f : gmap Z rating → gmap Z rating) (s : store) : store :=
  {| listings := listings s; ratings := f (ratings s); users := users s;
     ratings_id_seq := ratings_id_seq s; listings_id_seq := listings_id_seq s |}.

Definition with_rating_aggregates (cnt : Z) (avg : Q) (l : listing) : listing :=
  {| user_id := user_id l; status := status l; average_rating := avg;
     rating_count := cnt; created_at := created_at l; content := content l |}.

Definition with_status (st : string) (l : listing) : listing :=
  {| user_id := user_id l; status := st; average_rating := average_rating l;
     rating_count := rating_count l; created_at := created_at l; content := content l |}.

Definition with_content (c : gmap string jsval) (l : listing) : listing :=
  {| user_id := user_id l; status := status l; average_rating := average_rating l;
     rating_count := rating_count l; created_at := created_at l; content := c |}.

(** The rating rows of one listing: [FROM ratings WHERE listing_id = $1]. *)
Definition rows_of (table : gmap Z rating) (listingId : Z) : list rating :=
  filter (λ r, r_listing_id r = listingId) (map_to_list table).*2.

Definition ratings_of (s : store) (listingId : Z) : list rating :=
  rows_of (ratings s) listingId.

Definition sum_ratings (rs : list rating) : Z :=
  foldr (λ r acc, r_rating r + acc) 0 rs.

(** [AVG(rating)]: NULL over no rows. *)
Definition AVG (rs : list rating) : option Q :=
  match rs with
  | [] => None
  | _ => Some (inject_Z (sum_ratings rs) / inject_Z (Z.of_nat (length rs)))%Q
  end.

(** [COUNT( * )] *)
Definition COUNT (rs : list rating) : Z := Z.of_nat (length rs).

(** Rounding to two decimals, half away from zero, as NUMERIC does. *)
Definition round2 (q : Q) : Q :=
  let n := (Qnum q * 100)%Z in
  let d := Zpos (Qden q) in
  let r := ((2 * Z.abs n + d) / (2 * d))%Z in
  ((Z.sgn n * r) # 100)%Q.

(** The cast [::numeric(3,2)]: rounds to two decimals and fails when
    the rounded value does not fit three digits. *)
Definition numeric_3_2 (q : Q) : option Q :=
  let r := round2 q in
  if Qle_bool 10 (Qabs r) then None else Some r.

(** ** Requests and responses *)

(** Modelled from the spec: the authentication middleware
    ([../middleware/auth]) is not in the repository.  The Identity
    Context supplies [{userId, role}] from a verified bearer
    credential; every protected handler reads [req.user.userId] and
    [req.user.role], and the by-owner route reads the same two fields
    from the payload [jwt.verify] decodes. *)
Record identity : Type := {
  userId : Z;
  role : jsval
}.

(** [res.status(code).json(json)] *)
Record response : Type := {
  code : Z;
  json : jsval
}.

(** What a handler does: it sends a response, or an exception leaves it
    uncaught (thrown outside its [try] block); either way the store is
    left in some state. *)
Inductive outcome : Type :=
| Sent (r : response) (s : store)
| Uncaught (e : js_error) (s : store).

Definition final_store (o : outcome) : store :=
  match o with
  | Sent _ s | Uncaught _ s => s
  end.

Definition message (m : string) : jsval := obj [("message", JStr m)].

(** [v === 'text'] *)
Definition strict_eq_str (v : jsval) (text : string) : bool :=
  match v with
  | JStr s => String.eqb s text
  | _ => false
  end.

(** [obj[key]] on a parsed JSON object such as [req.body] or a row. *)
Definition field (o : gmap string jsval) (key : string) : jsval :=
  default JUndefined (o !! key).

(** [const { key = dflt } = req.body]: the default applies to
    [undefined] only. *)
Definition field_default (o : gmap string jsval) (key : string) (dflt : jsval) : jsval :=
  match field o key with
  | JUndefined => dflt
  | v => v
  end.

(** ** Reading rows *)

Definition listing_columns : list string :=
  ["id"; "user_id"; "title"; "description"; "price"; "condition";
   "whatsapp_phone"; "image_url"; "image_urls"; "stock_quantity"; "category";
   "variants"; "status"; "average_rating"; "rating_count"; "created_at"].

(** The stored cell of a column of a listing row; NULL where a content
    column was never written. *)
Definition cell (id : Z) (l : listing) (column : string) : jsval :=
  if String.eqb column "id" then JNum (num_Z id)
  else if String.eqb column "user_id" then JNum (num_Z (user_id l))
  else if String.eqb column "status" then JStr (status l)
  else if String.eqb column "average_rating" then JNum (Fin (average_rating l))
  else if String.eqb column "rating_count" then JNum (num_Z (rating_count l))
  else if String.eqb column "created_at" then JNum (num_Z (created_at l))
  else default JNull (content l !! column).

Definition user_cell (u : user) (column : string) : jsval :=
  if String.eqb column "username" then username u
  else if String.eqb column "shop_name" then shop_name u
  else if String.eqb column "avatar_url" then avatar_url u
  else if String.eqb column "cover_image_url" then cover_image_url u
  else JNull.

(** [SELECT columns FROM listings]: the row object the driver builds. *)
Definition select `{Postgres} (columns : list string) (id : Z) (l : listing)
    : gmap string jsval :=
  list_to_map ((λ c, (c, pg_deliver c (cell id l c))) <$> columns).

(** [SELECT l-columns, u-columns FROM listings l JOIN users u ...] *)
Definition select_joined `{Postgres} (columns ucolumns : list string)
    (row : Z * listing * user) : gmap string jsval :=
  let '(id, l, u) := row in
  list_to_map (((λ c, (c, pg_deliver c (cell id l c))) <$> columns)
               ++ ((λ c, (c, pg_deliver c (user_cell u c))) <$> ucolumns)).

(** [FROM listings l JOIN users u ON l.user_id = u.id WHERE cond] *)
Definition listings_join_users (s : store) (cond : Z → listing → bool)
    : list (Z * listing * user) :=
  omap (λ '(id, l),
          if cond id l
          then (λ u, (id, l, u)) <$> users s !! user_id l
          else None)
       (map_to_list (listings s)).

(** [FROM listings WHERE cond] *)
Definition listings_where (s : store) (cond : Z → listing → bool)
    : list (Z * listing) :=
  filter (λ '(id, l), cond id l = true) (map_to_list (listings s)).

(** The [ORDER BY] fragments the search builds. *)
Inductive order_by : Type :=
| created_at_DESC
| price_ASC
| price_DESC.

(** What [ORDER BY l.price] compares: the number the NUMERIC cell
    holds, and no number when the cell is NULL. *)
Definition price_of `{Postgres} (l : listing) : option Q :=
  match default JNull (content l !! "price") with
  | JUndefined | JNull => None
  | v => Some (pg_numeric v)
  end.

(** [a <= b] in the order of PostgreSQL, in which NULL counts as larger
    than every number: [ASC] puts it last and [DESC] first. *)
Definition numeric_le (a b : option Q) : bool :=
  match a, b with
  | _, None => true
  | None, Some _ => false
  | Some x, Some y => Qle_bool x y
  end.

Definition order_le `{Postgres} (o : order_by) (a b : listing) : bool :=
  match o with
  | created_at_DESC => created_at b <=? created_at a
  | price_ASC => numeric_le (price_of a) (price_of b)
  | price_DESC => numeric_le (price_of b) (price_of a)
  end.

(** [LIMIT limit OFFSET offset] *)
Definition limit_offset {A} (limit offset : Z) (rows : list A) : list A :=
  take (Z.to_nat limit) (drop (Z.to_nat offset) rows).

(** [Math.ceil(total / limit)] for a positive [limit]. *)
Definition ceil_div (total limit : Z) : Z := (total + limit - 1) / limit.

(** ** [src/routes/listings.js] *)

Section Routes.
Context `{Engine} `{Postgres}.

(** [cleanListing]: always return arrays, convert numbers. *)
Definition cleanListing (row : gmap string jsval) : completion (gmap string jsval) :=
  price ← Number_or_0 (field row "price");
  average_rating ← Number_or_0 (field row "average_rating");
  rating_count ← Number_or_0 (field row "rating_count");
  stock_quantity ← Number_or_0 (field row "stock_quantity");
  let image_urls :=
    if Array_isArray (field row "image_urls") then field row "image_urls" else JArr [] in
  let variants :=
    if Array_isArray (field row "variants") then field row "variants" else JArr [] in
  Normal (<["variants" := variants]>
          (<["image_urls" := image_urls]>
           (<["stock_quantity" := stock_quantity]>
            (<["rating_count" := rating_count]>
             (<["average_rating" := average_rating]>
              (<["price" := price]> row)))))).

Definition rows_json (rows : list (gmap string jsval)) : jsval :=
  JArr (JObj <$> rows).

Record query : Type := {
  q_page : jsval;
  q_limit : jsval;
  q_sort : jsval;
  q_search : jsval;
  q_category : jsval
}.

Definition search_columns : list string :=
  ["id"; "user_id"; "title"; "description"; "price"; "condition";
   "whatsapp_phone"; "image_urls"; "stock_quantity"; "category";
   "average_rating"; "rating_count"; "variants"; "created_at"].

(** The [WHERE] clause of the search, built up as the handler does. *)
Definition search_where (search category : jsval) (id : Z) (l : listing) : bool :=
  let where_ := String.eqb (status l) "approved" in
  let where_ :=
    if truthy search then
      match search with
      | JStr text =>
          let pattern := "%" +:+ text +:+ "%" in
          where_ && (pg_ilike (cell id l "title") pattern
                     || pg_ilike (cell id l "description") pattern)
      | _ => where_
      end
    else where_ in
  if truthy category && negb (strict_eq_str category "All")
  then where_ && pg_text_eq (cell id l "category") category
  else where_.

(** The rows [listingsQuery] selects, before the driver renders them:
    [FROM listings l JOIN users u ON l.user_id = u.id WHERE ...
    ORDER BY orderBy LIMIT limit OFFSET offset]. *)
Definition listingsQuery_rows (where_ : Z → listing → bool) (orderBy : order_by)
    (limit offset : Z) (s : store) : list (Z * listing * user) :=
  limit_offset limit offset
    (pg_sort (λ a b, order_le orderBy a.1.2 b.1.2) (listings_join_users s where_)).

Definition listingsQuery (where_ : Z → listing → bool) (orderBy : order_by)
    (limit offset : Z) (s : store) : list (gmap string jsval) :=
  select_joined search_columns ["username"; "shop_name"]
    <$> listingsQuery_rows where_ orderBy limit offset s.

(** [SELECT COUNT( * ) FROM listings l WHERE ...] *)
Definition totalQuery (where_ : Z → listing → bool) (s : store) : Z :=
  Z.of_nat (length (listings_where s where_)).

(** [let orderBy = 'l.created_at DESC'; if (sort === 'price-low') ...;
    if (sort === 'price-high') ...] *)
Definition orderBy_of (sort : jsval) : order_by :=
  let orderBy := created_at_DESC in
  let orderBy := if strict_eq_str sort "price-low" then price_ASC else orderBy in
  let orderBy := if strict_eq_str sort "price-high" then price_DESC else orderBy in
  orderBy.

(** [GET /api/listings] *)
Definition get_listings (q : query) (s : store) : outcome :=
  match (page ← parseInt (q_page q);
         limit ← parseInt (q_limit q);
         search ← optional_trim (q_search q);
         Normal (int_or page 1, int_or limit 24, search)) with
  | Throw _ => Sent {| code := 500; json := message "Failed to fetch listings" |} s
  | Normal (page, limit, search) =>
      let sort := js_or (q_sort q) (JStr "newest") in
      let category := q_category q in
      if (page <? 1) || (limit <? 1) || (limit >? 100) then
        Sent {| code := 400; json := message "Invalid page or limit" |} s
      else
        let orderBy := orderBy_of sort in
        let offset := (page - 1) * limit in
        let where_ := search_where search category in
        let listingsRes := listingsQuery where_ orderBy limit offset s in
        let total := totalQuery where_ s in
        match mapM cleanListing listingsRes with
        | Throw _ => Sent {| code := 500; json := message "Failed to fetch listings" |} s
        | Normal listings =>
            Sent {| code := 200;
                    json := obj [("status", JStr "success");
                                 ("data", rows_json listings);
                                 ("pagination",
                                  obj [("currentPage", JNum (num_Z page));
                                       ("totalPages", JNum (num_Z (ceil_div total limit)));
                                       ("totalItems", JNum (num_Z total));
                                       ("hasNext", JBool (page * limit <? total));
                                       ("hasPrev", JBool (page >? 1))])] |} s
        end
  end.

(** [SELECT l.*, u.username, u.shop_name, u.avatar_url,
    u.cover_image_url FROM listings l JOIN users u ON l.user_id = u.id
    WHERE l.id = $1 AND l.status = 'approved'] *)
Definition listing_query (id : Z) (s : store) : list (gmap string jsval) :=
  select_joined listing_columns
    ["username"; "shop_name"; "avatar_url"; "cover_image_url"]
    <$> listings_join_users s
          (λ i l, (i =? id) && String.eqb (status l) "approved").

(** [GET /api/listings/:id] *)
Definition get_listing (id : Z) (s : store) : outcome :=
  match listing_query id s with
  | [] => Sent {| code := 404; json := message "Listing not found or not approved" |} s
  | row :: _ =>
      match cleanListing row with
      | Throw _ => Sent {| code := 500; json := message "Server error" |} s
      | Normal cleaned => Sent {| code := 200; json := JObj cleaned |} s
      end
  end.

Definition user_listing_columns : list string :=
  ["id"; "user_id"; "title"; "description"; "price"; "condition";
   "whatsapp_phone"; "image_urls"; "stock_quantity"; "category";
   "average_rating"; "rating_count"; "status"; "created_at"; "variants"].

(** The rows of [SELECT ... FROM listings WHERE user_id = $1], with
    [AND status = 'approved'] appended unless [all_statuses], then
    [ORDER BY created_at DESC]. *)
Definition user_listings_rows (user : Z) (all_statuses : bool) (s : store)
    : list (Z * listing) :=
  let cond :=
    if negb all_statuses
    then λ (_ : Z) l, (user_id l =? user) && String.eqb (status l) "approved"
    else λ (_ : Z) l, user_id l =? user in
  pg_sort (λ a b, order_le created_at_DESC a.2 b.2) (listings_where s cond).

Definition user_listings_query (user : Z) (all_statuses : bool) (s : store)
    : list (gmap string jsval) :=
  (λ '(id, l), select user_listing_columns id l)
    <$> user_listings_rows user all_statuses s.

(** [GET /api/listings/user/:userId].  [decoded] is the payload of the
    optional bearer token, [None] when there is no token or
    [jwt.verify] rejects it. *)
Definition get_user_listings (user : Z) (decoded : option identity) (s : store)
    : outcome :=
  let currentUserId := userId <$> decoded in
  let isOwner := bool_decide (currentUserId = Some user) in
  let result := user_listings_query user isOwner s in
  match mapM cleanListing result with
  | Throw _ => Sent {| code := 500; json := message "Server error" |} s
  | Normal cleanedRows =>
      Sent {| code := 200;
              json := obj [("status", JStr "success");
                           ("count", JNum (num_Z (Z.of_nat (length cleanedRows))));
                           ("data", rows_json cleanedRows)] |} s
  end.
End Routes.

Section Mutations.
Context `{Engine} `{Postgres}.

(** The callback both variant filters pass to [Array.prototype.filter]:
    [hasOption = (v.color || '').trim() || (v.size || '').trim()],
    [stockValid = Number(v.stock) >= 0 && !isNaN(Number(v.stock))],
    result [hasOption && stockValid]. *)
Definition keep_variant (v : jsval) : completion bool :=
  color ← GetV v "color";
  trimmed ← call_trim (js_or color (JStr ""));
  hasOption ← (if truthy trimmed then Normal trimmed
               else size ← GetV v "size"; call_trim (js_or size (JStr "")));
  stock ← GetV v "stock";
  n ← ToNumber stock;
  stockValid ← (if num_le (num_Z 0) n
                then n' ← ToNumber stock; Normal (negb (num_isNaN n'))
                else Normal false);
  Normal (truthy hasOption && stockValid).

(** [variants.filter(v => ...)] *)
Fixpoint filter_variants (variants : list jsval) : completion (list jsval) :=
  match variants with
  | [] => Normal []
  | v :: rest =>
      keep ← keep_variant v;
      kept ← filter_variants rest;
      Normal (if (keep : bool) then v :: kept else kept)
  end.

(** Modelled from the spec: the definition of the [listings] table is
    not in the repository; the aggregates of a new listing, derived
    from its ratings, start at 0.
    [INSERT INTO listings (...) VALUES (..., 'pending') RETURNING id,
    title, status, created_at]: the new row takes the next value of the
    id sequence and the store's clock [now]; the insert fails on a key
    that is already present. *)
Definition insert_listing (now : Z) (owner : Z) (cells : gmap string jsval)
    (s : store) : option (Z * listing * store) :=
  let id := listings_id_seq s in
  match listings s !! id with
  | Some _ => None
  | None =>
      let l := {| user_id := owner; status := "pending"; average_rating := 0;
                  rating_count := 0; created_at := now; content := cells |} in
      Some (id, l,
            {| listings := <[id := l]> (listings s); ratings := ratings s;
               users := users s; ratings_id_seq := ratings_id_seq s;
               listings_id_seq := id + 1 |})
  end.

(** [POST /api/listings] *)
Definition post_listing (now : Z) (req_user : identity) (body : gmap string jsval)
    (s : store) : outcome :=
  let title := field body "title" in
  let description := field body "description" in
  let price := field body "price" in
  let condition := field_default body "condition" (JStr "Used - Good") in
  let whatsapp_phone := field body "whatsapp_phone" in
  let image_urls := field_default body "image_urls" (JArr []) in
  let stock_quantity := field_default body "stock_quantity" (JNum (num_Z 1)) in
  let category := field_default body "category" (JStr "Other") in
  let variants := field_default body "variants" (JArr []) in
  let bad_request (m : string) : completion outcome := Normal (Sent {| code := 400; json := message m |} s) in
  let handler : completion outcome :=
    trimmed ← optional_trim title;
    if negb (truthy trimmed) then bad_request "Title is required" else
    bad_price ← (if negb (truthy price) then Normal true
                 else nan ← isNaN price;
                      if (nan : bool) then Normal true else js_le price (num_Z 0));
    if (bad_price : bool) then bad_request "Valid positive price required" else
    low_stock ← js_lt stock_quantity (num_Z 1);
    if (low_stock : bool) then bad_request "Stock quantity must be at least 1" else
    match variants with
    | JArr elements =>
        cleanedVariants ← filter_variants elements;
        title_trimmed ← call_trim title;
        let cells : gmap string jsval :=
          list_to_map [("title", title_trimmed);
                       ("description", js_or description JNull);
                       ("price", price);
                       ("condition", condition);
                       ("whatsapp_phone", js_or whatsapp_phone JNull);
                       ("image_urls", image_urls);
                       ("stock_quantity", stock_quantity);
                       ("category", category);
                       ("variants", JArr cleanedVariants)] in
        match insert_listing now (userId req_user) cells s with
        | None =>
            Normal (Sent {| code := 500; json := message "Failed to create listing" |} s)
        | Some (id, l, s') =>
            Normal (Sent {| code := 201;
                            json := obj [("status", JStr "success");
                                         ("message",
                                          JStr "Listing created successfully (pending approval)");
                                         ("data",
                                          JObj (select ["id"; "title"; "status"; "created_at"]
                                                  id l))] |} s')
        end
    | _ => bad_request "Variants must be an array"
    end in
  match handler with
  | Normal o => o
  | Throw e => Uncaught e s
  end.

(** [if (!rating || rating < 1 || rating > 5)] *)
Definition rating_out_of_range (rating : jsval) : completion bool :=
  if negb (truthy rating) then Normal true
  else below ← js_lt rating (num_Z 1);
       if (below : bool) then Normal true else js_gt rating (num_Z 5).

(** [INSERT INTO ratings (listing_id, user_id, rating, comment)
    VALUES ($1, $2, $3, $4)] *)
Definition insert_rating (now : Z) (listingId user : Z) (rating comment : jsval)
    (s : store) : option store :=
  let id := ratings_id_seq s in
  match ratings s !! id, pg_integer_in rating with
  | None, Some value =>
      let r := {| r_listing_id := listingId; r_user_id := user; r_rating := value;
                  r_comment := comment; r_created_at := now |} in
      Some {| listings := listings s; ratings := <[id := r]> (ratings s);
              users := users s; ratings_id_seq := id + 1;
              listings_id_seq := listings_id_seq s |}
  | _, _ => None
  end.

(** [UPDATE listings SET rating_count = rating_count + 1,
    average_rating = (SELECT AVG(rating)::numeric(3,2) FROM ratings
    WHERE listing_id = $1) WHERE id = $1].  The statement follows the
    insert of a rating of this listing, so [AVG] is over at least one
    row. *)
Definition update_aggregates_after_insert (listingId : Z) (s : store) : option store :=
  match listings s !! listingId with
  | None => Some s
  | Some l =>
      match AVG (ratings_of s listingId) with
      | None => None
      | Some mean =>
          avg ← numeric_3_2 mean;
          Some (set_listings
                  (<[listingId := with_rating_aggregates (rating_count l + 1) avg l]>) s)
      end
  end.

(** [POST /api/listings/:id/rating] *)
Definition post_rating (now : Z) (req_user : identity) (listingId : Z)
    (body : gmap string jsval) (s : store) : outcome :=
  let rating := field body "rating" in
  let comment := field body "comment" in
  let user := userId req_user in
  match rating_out_of_range rating with
  | Throw e => Uncaught e s
  | Normal true =>
      Sent {| code := 400; json := message "Rating must be between 1 and 5" |} s
  | Normal false =>
      match listings s !! listingId with
      | None => Sent {| code := 404; json := message "Listing not found" |} s
      | Some _ =>
          let existing :=
            filter (λ r, r_user_id r = user) (ratings_of s listingId) in
          if 0 <? Z.of_nat (length existing) then
            Sent {| code := 400;
                    json := message "You have already rated this listing" |} s
          else
            let failed := {| code := 500; json := message "Failed to submit rating" |} in
            match insert_rating now listingId user rating (js_or comment JNull) s with
            | None => Sent failed s
            | Some s1 =>
                match update_aggregates_after_insert listingId s1 with
                | None => Sent failed s1
                | Some s2 =>
                    Sent {| code := 201;
                            json := message "Rating submitted successfully" |} s2
                end
            end
      end
  end.
End Mutations.

Section Patch.
Context `{Engine} `{Postgres}.

Definition allowedFields : list string :=
  ["title"; "description"; "price"; "condition"; "whatsapp_phone"; "image_url";
   "image_urls"; "stock_quantity"; "category"; "variants"].

(** [allowedFields.forEach(field => { if (req.body[field] !== undefined)
    updates[field] = req.body[field] })]: the entries of [updates], in
    the order they were added. *)
Definition pick (body : gmap string jsval) (f : string) : option (string * jsval) :=
  match field body f with
  | JUndefined => None
  | v => Some (f, v)
  end.

Definition collect_updates (body : gmap string jsval) : list (string * jsval) :=
  omap (pick body) allowedFields.

(** [updates[key]], [None] when [!(key in updates)]. *)
Fixpoint update_of (key : string) (updates : list (string * jsval)) : option jsval :=
  match updates with
  | [] => None
  | (k, v) :: rest => if String.eqb k key then Some v else update_of key rest
  end.

(** [updates[key] = v] for a key already present. *)
Definition assign (key : string) (v : jsval) (updates : list (string * jsval))
    : list (string * jsval) :=
  (λ '(k, x), if String.eqb k key then (k, v) else (k, x)) <$> updates.

(** The two coercion blocks: [Number(updates.key)], rejected when NaN
    or when [bad] (not positive for the price, negative for the
    stock), stored back as a number otherwise.  [inl m] is the 400
    response with message [m]. *)
Definition coerce (key : string) (bad : number → bool) (m : string)
    (updates : list (string * jsval)) : completion (string + list (string * jsval)) :=
  match update_of key updates with
  | None => Normal (inr updates)
  | Some raw =>
      n ← ToNumber raw;
      if num_isNaN n || bad n then Normal (inl m)
      else Normal (inr (assign key (JNum n) updates))
  end.

(** The loop that builds [setParts] and [values]: every entry is bound
    as it is, except [variants], which must be an array and is
    filtered and serialized.  [None] is the early
    [return res.status(400)] taken from inside the loop. *)
Fixpoint bind_values (updates : list (string * jsval))
    : completion (option (list (string * jsval))) :=
  match updates with
  | [] => Normal (Some [])
  | (key, rawValue) :: rest =>
      value ← (if String.eqb key "variants" then
                 match rawValue with
                 | JArr elements =>
                     kept ← filter_variants elements;
                     Normal (Some (JStr (JSON_stringify (JArr kept))))
                 | _ => Normal None
                 end
               else Normal (Some rawValue));
      match value with
      | None => Normal None
      | Some value =>
          bound ← bind_values rest;
          Normal ((λ b, (key, value) :: b) <$> (bound : option (list (string * jsval))))
      end
  end.

(** [UPDATE listings SET key1 = $1, ... WHERE id = $n RETURNING *] *)
Definition update_listing (sets : list (string * jsval)) (id : Z) (s : store)
    : option (listing * store) :=
  l ← listings s !! id;
  let l' := with_content (foldl (λ c '(k, v), <[k := v]> c) (content l) sets) l in
  Some (l', set_listings (<[id := l']>) s).

(** [PATCH /api/listings/:id] *)
Definition patch_listing (req_user : identity) (id : Z) (body : gmap string jsval)
    (s : store) : outcome :=
  let user := userId req_user in
  let updates := collect_updates body in
  if bool_decide (length updates = 0%nat) then
    Sent {| code := 400; json := message "No valid fields provided for update" |} s
  else
    match (u ← coerce "price" (λ n, num_le n (num_Z 0))
                 "Price must be a positive number" updates;
           match u with
           | inl m => Normal (inl m)
           | inr updates =>
               coerce "stock_quantity" (λ n, num_lt n (num_Z 0))
                 "Stock quantity cannot be negative" updates
           end) with
    | Throw e => Uncaught e s
    | Normal (inl m) => Sent {| code := 400; json := message m |} s
    | Normal (inr updates) =>
        let failed e :=
          {| code := 500;
             json := obj [("message", JStr "Failed to update listing");
                          ("error", JStr (Error_message e))] |} in
        match listings s !! id with
        | None => Sent {| code := 404; json := message "Listing not found" |} s
        | Some l =>
            if negb (user_id l =? user) then
              Sent {| code := 403;
                      json := message "You are not authorized to edit this listing" |} s
            else
              match bind_values updates with
              | Throw e => Sent (failed e) s
              | Normal None =>
                  Sent {| code := 400; json := message "Variants must be an array" |} s
              | Normal (Some sets) =>
                  match update_listing sets id s with
                  | None =>
                      Sent {| code := 404; json := message "Listing not found" |} s
                  | Some (l', s') =>
                      match cleanListing (select listing_columns id l') with
                      | Throw e => Sent (failed e) s'
                      | Normal cleaned => Sent {| code := 200; json := JObj cleaned |} s'
                      end
                  end
              end
        end
    end.

(** Modelled from the spec: the foreign key of [ratings] is not in the
    repository; deleting a listing cascades deletion of its ratings.
    [DELETE FROM listings WHERE id = $1]. *)
Definition delete_listing_row (id : Z) (s : store) : store :=
  {| listings := delete id (listings s);
     ratings := filter (λ kr, r_listing_id kr.2 ≠ id) (ratings s);
     users := users s;
     ratings_id_seq := ratings_id_seq s;
     listings_id_seq := listings_id_seq s |}.

(** [DELETE /api/listings/:id] *)
Definition delete_listing (req_user : identity) (id : Z) (s : store) : outcome :=
  match listings s !! id with
  | None => Sent {| code := 404; json := message "Listing not found" |} s
  | Some listing =>
      let isOwner := userId req_user =? user_id listing in
      let isAdmin := strict_eq_str (role req_user) "admin" in
      if negb isOwner && negb isAdmin then
        Sent {| code := 403; json := message "Permission denied" |} s
      else
        Sent {| code := 200; json := message "Listing deleted successfully" |}
             (delete_listing_row id s)
  end.

(** [UPDATE listings SET rating_count = (SELECT COUNT( * ) FROM ratings
    WHERE listing_id = $1), average_rating = COALESCE((SELECT
    AVG(rating)::numeric(3,2) FROM ratings WHERE listing_id = $1), 0)
    WHERE id = $1] *)
Definition recompute_aggregates (listingId : Z) (s : store) : option store :=
  match listings s !! listingId with
  | None => Some s
  | Some l =>
      let rs := ratings_of s listingId in
      avg ← match AVG rs with
            | None => Some 0%Q
            | Some mean => numeric_3_2 mean
            end;
      Some (set_listings (<[listingId := with_rating_aggregates (COUNT rs) avg l]>) s)
  end.

(** [DELETE /api/listings/ratings/:ratingId] *)
Definition delete_rating (req_user : identity) (ratingId : Z) (s : store) : outcome :=
  let currentUserId := userId req_user in
  let ratingInfo := r ← ratings s !! ratingId;
                    l ← listings s !! r_listing_id r;
                    Some (r_listing_id r, user_id l) in
  match ratingInfo with
  | None => Sent {| code := 404; json := message "Rating not found" |} s
  | Some (listing_id, listingOwnerId) =>
      if negb (currentUserId =? listingOwnerId)
         && negb (strict_eq_str (role req_user) "admin") then
        Sent {| code := 403; json := message "Not authorized to delete this rating" |} s
      else
        let s1 := set_ratings (delete ratingId) s in
        match recompute_aggregates listing_id s1 with
        | None => Sent {| code := 500; json := message "Server error" |} s1
        | Some s2 =>
            Sent {| code := 200; json := message "Rating deleted successfully" |} s2
        end
  end.
End Patch.

(** ** [src/routes/admin.js] *)

Section Admin.
Context `{Postgres}.

(** [UPDATE listings SET status = $1 WHERE id = $2 RETURNING id, title,
    status] *)
Definition update_status (new_status : string) (id : Z) (s : store)
    : option (listing * store) :=
  l ← listings s !! id;
  let l' := with_status new_status l in
  Some (l', set_listings (<[id := l']>) s).

(** [PATCH /api/admin/listings/:id]: update status (approve or reject). *)
Definition patch_admin_listing (req_user : identity) (id : Z)
    (body : gmap string jsval) (s : store) : outcome :=
  let status := field body "status" in
  match status with
  | JStr text =>
      if String.eqb text "approved" || String.eqb text "rejected" then
        match update_status text id s with
        | None => Sent {| code := 404; json := message "Listing not found" |} s
        | Some (l', s') =>
            Sent {| code := 200;
                    json := obj [("message", JStr ("Listing " +:+ text));
                                 ("data", JObj (select ["id"; "title"; "status"] id l'))] |}
                 s'
        end
      else Sent {| code := 400; json := message "Invalid status value" |} s
  | _ => Sent {| code := 400; json := message "Invalid status value" |} s
  end.
End Admin.

(** ** A reference engine and store driver

    One concrete [Engine] and [Postgres], on which the handlers can be
    run.  The theorems below hold for every engine and driver; the
    closed examples are evaluated on this one. *)

Fixpoint read_digits (R : Z) (s : string) (acc : Z) (n : nat) : Z * nat * string :=
  match s with
  | EmptyString => (acc, n, s)
  | String c r =>
      match digit_value c with
      | Some d => if d <? R then read_digits R r (acc * R + d) (S n) else (acc, n, s)
      | None => (acc, n, s)
      end
  end.

Definition pow10 (e : Z) : Q :=
  if 0 <=? e then inject_Z (10 ^ e) else (1 # Z.to_pos (10 ^ (- e)))%Q.

Definition nondecimal_radix (c : ascii) : option Z :=
  match c with
  | "x" | "X" => Some 16
  | "o" | "O" => Some 8
  | "b" | "B" => Some 2
  | _ => None
  end%char.

Definition read_exponent (s : string) : option Z :=
  match s with
  | EmptyString => Some 0
  | String c r =>
      match c with
      | "e" | "E" =>
          let '(sign, r1) := strip_sign r in
          let '(e, n, r2) := read_digits 10 r1 0 0 in
          if (0 <? n)%nat && String.eqb r2 "" then Some (sign * e) else None
      | _ => None
      end%char
  end.

Definition read_decimal (s : string) : number :=
  let '(sign, r0) := strip_sign s in
  if String.eqb r0 "Infinity" then (if sign =? 1 then PInf else NInf) else
  let '(ip, ni, r1) := read_digits 10 r0 0 0 in
  let '(fp, nf, r2) :=
    match r1 with
    | String "." r => read_digits 10 r 0 0
    | _ => (0, 0%nat, r1)
    end in
  if (ni + nf =? 0)%nat then NaN else
  match read_exponent r2 with
  | None => NaN
  | Some e =>
      Fin (Qred (inject_Z (sign * (ip * 10 ^ Z.of_nat nf + fp))
                 * pow10 (e - Z.of_nat nf)))
  end.

(** StringToNumber on the numeric literals of ECMAScript: decimal with
    fraction and exponent, [Infinity], and the radix-prefixed integers;
    the empty or blank string is 0 and anything else NaN. *)
Definition reference_StringToNumber (str : string) : number :=
  let s := trim str in
  match s with
  | EmptyString => num_Z 0
  | String "0" (String x r) =>
      match nondecimal_radix x with
      | Some R =>
          let '(v, n, rest) := read_digits R r 0 0 in
          if (0 <? n)%nat && String.eqb rest "" then num_Z v else NaN
      | None => read_decimal s
      end
  | _ => read_decimal s
  end.

Fixpoint fraction_digits (fuel : nat) (rem den : Z) : string :=
  match fuel with
  | O => ""
  | S fuel' =>
      if rem =? 0 then ""
      else pretty (rem * 10 / den) +:+ fraction_digits fuel' (rem * 10 mod den) den
  end.

(** Number::toString on integers and on terminating decimals (cut after
    17 fraction digits otherwise). *)
Definition reference_NumberToString (n : number) : string :=
  match n with
  | NaN => "NaN"
  | PInf => "Infinity"
  | NInf => "-Infinity"
  | Fin q =>
      let num := Z.abs (Qnum q) in
      let den := Zpos (Qden q) in
      let sign := if Qnum q <? 0 then "-" else "" in
      let frac := fraction_digits 17 (num mod den) den in
      sign +:+ pretty (num / den) +:+ (if String.eqb frac "" then "" else "." +:+ frac)
  end.

Definition dquote : string := String (ascii_of_nat 34) EmptyString.
Definition backslash : string := String (ascii_of_nat 92) EmptyString.

Fixpoint escape (s : string) : string :=
  match s with
  | EmptyString => EmptyString
  | String c r =>
      let n := nat_of_ascii c in
      (if (n =? 34)%nat then backslash +:+ dquote
       else if (n =? 92)%nat then backslash +:+ backslash
       else if (n =? 10)%nat then backslash +:+ "n"
       else String c EmptyString) +:+ escape r
  end.

Definition quote (s : string) : string := dquote +:+ escape s +:+ dquote.

Definition comma_join (parts : list string) : string :=
  match parts with
  | [] => ""
  | p :: ps => foldl (λ acc x, acc +:+ "," +:+ x) p ps
  end.

(** [JSON.stringify] without indentation; the properties of an object
    are written in the order of the map. *)
Fixpoint reference_stringify (v : jsval) : string :=
  match v with
  | JUndefined | JNull => "null"
  | JBool true => "true"
  | JBool false => "false"
  | JNum (Fin q) => reference_NumberToString (Fin q)
  | JNum _ => "null"
  | JStr s => quote s
  | JArr l => "[" +:+ comma_join (map reference_stringify l) +:+ "]"
  | JObj o =>
      "{" +:+ comma_join
                (map_fold (λ k x acc,
                             match x with
                             | JUndefined => acc
                             | _ => acc ++ [quote k +:+ ":" +:+ reference_stringify x]
                             end) [] o)
          +:+ "}"
  end.

#[global] Instance reference_engine : Engine := {|
  StringToNumber := reference_StringToNumber;
  NumberToString := reference_NumberToString;
  JSON_stringify := reference_stringify;
  (* the text V8 gives for a property read on null *)
  Error_message _ := "Cannot read properties of null (reading 'color')"
|}.

Definition lower (c : ascii) : ascii :=
  let n := nat_of_ascii c in
  if ((65 <=? n) && (n <=? 90))%nat then ascii_of_nat (n + 32) else c.

(** [text ILIKE pattern]: [%] matches any run of characters, [_] one
    character, a backslash escapes the next pattern character, letters
    match without regard to case. *)
Fixpoint ilike (pattern : string) : string → bool :=
  match pattern with
  | EmptyString => λ text, String.eqb text ""
  | String p rest =>
      if Ascii.eqb p "%" then
        fix star (text : string) : bool :=
          ilike rest text ||
          match text with
          | EmptyString => false
          | String _ text' => star text'
          end
      else if Ascii.eqb p "_" then
        λ text, match text with
                | EmptyString => false
                | String _ text' => ilike rest text'
                end
      else
        λ text, match text with
                | EmptyString => false
                | String c text' =>
                    match (if Ascii.eqb p "\" then rest else pattern) with
                    | EmptyString => false
                    | String p' _ =>
                        Ascii.eqb (lower p') (lower c)
                        && (if Ascii.eqb p "\"
                            then match rest with
                                 | EmptyString => false
                                 | String _ rest' => ilike rest' text'
                                 end
                            else ilike rest text')
                    end
                end
  end.

Definition Q_is_integer (q : Q) : bool := (Qnum q mod Zpos (Qden q) =? 0).

(** The [integer] type of PostgreSQL: whole numbers from -2^31 to
    2^31 - 1; anything else is refused as a parameter. *)
Definition reference_integer_in (v : jsval) : option Z :=
  let of_number n :=
    match n with
    | Fin q =>
        let z := Qnum q / Zpos (Qden q) in
        if Q_is_integer q && (- 2 ^ 31 <=? z) && (z <? 2 ^ 31) then Some z else None
    | _ => None
    end in
  match v with
  | JNum n => of_number n
  | JStr s => of_number (reference_StringToNumber s)
  | _ => None
  end.

#[global] Instance reference_postgres : Postgres := {|
  pg_ilike cell pattern :=
    match cell with
    | JStr text => ilike pattern text
    | _ => false
    end;
  pg_text_eq cell v :=
    match cell, v with
    | JStr a, JStr b => String.eqb a b
    | _, _ => false
    end;
  pg_numeric cell :=
    match cell with
    | JNum (Fin q) => q
    | JStr s => match reference_StringToNumber s with Fin q => q | _ => 0%Q end
    | _ => 0%Q
    end;
  pg_deliver _ cell := cell;
  pg_integer_in := reference_integer_in;
  pg_sort A le :=
    @merge_sort A (λ x y, le x y = true) (λ x y, decide_rel (=) (le x y) true)
|}.


(** The copy of the by-owner handler in the earlier revision of the
    route file that the repository keeps, headed "Get listings for a
    specific user (public approved + private for owner/admin)": it
    also reads [decoded.role] and skips the status filter for an
    admin.  Its rows carry no [variants] and only the four numeric
    columns are converted. *)
Section PreviousRevision.
Context `{Engine} `{Postgres}.

Definition convert_numerics (row : gmap string jsval) : completion (gmap string jsval) :=
  price ← Number_or_0 (field row "price");
  average_rating ← Number_or_0 (field row "average_rating");
  rating_count ← Number_or_0 (field row "rating_count");
  stock_quantity ← Number_or_0 (field row "stock_quantity");
  Normal (<["stock_quantity" := stock_quantity]>
          (<["rating_count" := rating_count]>
           (<["average_rating" := average_rating]>
            (<["price" := price]> row)))).

Definition previous_user_listing_columns : list string :=
  ["id"; "user_id"; "title"; "description"; "price"; "condition";
   "whatsapp_phone"; "image_urls"; "stock_quantity"; "category";
   "average_rating"; "rating_count"; "status"; "created_at"].

Definition previous_get_user_listings (user : Z) (decoded : option identity)
    (s : store) : outcome :=
  let currentUserId := userId <$> decoded in
  let isAdmin :=
    match decoded with
    | Some d => strict_eq_str (role d) "admin"
    | None => false
    end in
  let isOwner := bool_decide (currentUserId = Some user) in
  let result :=
    (λ '(id, l), select previous_user_listing_columns id l)
      <$> user_listings_rows user (negb (negb isOwner && negb isAdmin)) s in
  match mapM convert_numerics result with
  | Throw _ => Sent {| code := 500; json := message "Server error" |} s
  | Normal cleanedRows =>
      Sent {| code := 200;
              json := obj [("status", JStr "success");
                           ("count", JNum (num_Z (Z.of_nat (length cleanedRows))));
                           ("data", rows_json cleanedRows)] |} s
  end.
End PreviousRevision.

(** ** Vocabulary of the specification *)

(** The error taxonomy, read off the status code of the response. *)
Inductive result_kind : Type :=
| Success
| ValidationError
| PermissionError
| NotFound
| StoreFailure.

Definition kind_of (r : response) : option result_kind :=
  if (code r =? 200) || (code r =? 201) then Some Success
  else if code r =? 400 then Some ValidationError
  else if code r =? 403 then Some PermissionError
  else if code r =? 404 then Some NotFound
  else if code r =? 500 then Some StoreFailure
  else None.

(** The kind of response a handler run ends with; [None] when an
    exception escaped the handler. *)
Definition kind (o : outcome) : option result_kind :=
  match o with
  | Sent r _ => kind_of r
  | Uncaught _ _ => None
  end.

(** The response a handler run sent; the empty response when an
    exception escaped. *)
Definition response_of (o : outcome) : response :=
  match o with
  | Sent r _ => r
  | Uncaught _ _ => {| code := 0; json := JUndefined |}
  end.

(** The [data] array of a response. *)
Definition data_of (r : response) : list jsval :=
  match json r with
  | JObj o =>
      match o !! "data" with
      | Some (JArr items) => items
      | _ => []
      end
  | _ => []
  end.

Definition numeric_fields : list string :=
  ["price"; "average_rating"; "rating_count"; "stock_quantity"].

Definition array_fields : list string := ["image_urls"; "variants"].

Definition is_array (v : jsval) : Prop := ∃ l, v = JArr l.

(** What it means for [o] to be the cleaned form of the row [row]. *)
Record clean_of `{Engine} (row o : gmap string jsval) : Prop := {
  clean_numbers : ∀ k, k ∈ numeric_fields → ∃ n, o !! k = Some (JNum n) ∧ n ≠ NaN;
  clean_zero : ∀ k, k ∈ numeric_fields →
    field row k = JUndefined ∨ field row k = JNull
    ∨ ToNumber (field row k) = Normal NaN →
    o !! k = Some (JNum (num_Z 0));
  clean_value : ∀ k x, k ∈ numeric_fields →
    ToNumber (field row k) = Normal x → truthy (JNum x) = true →
    o !! k = Some (JNum x);
  clean_arrays : ∀ k, k ∈ array_fields → ∃ v, o !! k = Some v ∧ is_array v;
  clean_empty : ∀ k, k ∈ array_fields → ¬ is_array (field row k) →
    o !! k = Some (JArr []);
  clean_same_array : ∀ k, k ∈ array_fields → is_array (field row k) →
    o !! k = Some (field row k);
  clean_other : ∀ k, k ∉ numeric_fields ++ array_fields → o !! k = row !! k
}.

(** A value that is neither an array nor an object. *)
Definition primitive (v : jsval) : Prop :=
  match v with
  | JArr _ | JObj _ => False
  | _ => True
  end.

(** [item.key] on a returned item. *)
Definition field_of (item : jsval) (key : string) : jsval :=
  match item with
  | JObj o => field o key
  | _ => JUndefined
  end.


Definition is_zero (n : number) : bool :=
  match n with
  | Fin q => Qeqb0 q
  | _ => false
  end.



(** ** A small catalog to run the handlers on *)

Definition alice : identity := {| userId := 1; role := JStr "user" |}.
Definition bob : identity := {| userId := 2; role := JStr "user" |}.
Definition carol : identity := {| userId := 3; role := JStr "user" |}.
Definition root : identity := {| userId := 9; role := JStr "admin" |}.

Definition account (name : string) : user :=
  {| username := JStr name; shop_name := JNull; avatar_url := JNull;
     cover_image_url := JNull |}.

Definition item (owner : Z) (st : string) (at_ : Z) (title : string) (price : jsval)
    : listing :=
  {| user_id := owner; status := st; average_rating := 0; rating_count := 0;
     created_at := at_;
     content := list_to_map [("title", JStr title); ("price", price);
                             ("stock_quantity", JNum (num_Z 1));
                             ("category", JStr "Books")] |}.

(** Alice owns an approved lamp, a pending desk and an approved chair
    priced like the lamp; Bob owns an approved book whose price cell
    holds no number. *)
Definition campus : store :=
  {| listings := list_to_map [(1, item 1 "approved" 100 "Lamp" (JStr "12.50"));
                              (2, item 1 "pending" 200 "Desk" (JNum (num_Z 40)));
                              (3, item 1 "approved" 300 "Chair" (JStr "12.50"));
                              (4, item 2 "approved" 400 "Book" (JStr "free"))];
     ratings := ∅;
     users := list_to_map [(1, account "alice"); (2, account "bob");
                           (3, account "carol"); (9, account "root")];
     ratings_id_seq := 1;
     listings_id_seq := 5 |}.

Definition no_query : query :=
  {| q_page := JUndefined; q_limit := JUndefined; q_sort := JUndefined;
     q_search := JUndefined; q_category := JUndefined |}.

(** The conditions the patch handler checks on the body before it
    looks at the listing: some whitelisted field is present; the
    price, when present, converts to a positive number; the stock
    quantity, when present, converts to a non-negative number. *)
Definition carries_changes (body : gmap string jsval) : Prop :=
  ∃ k, k ∈ allowedFields ∧ field body k ≠ JUndefined.

Definition price_acceptable `{Engine} (body : gmap string jsval) : Prop :=
  field body "price" = JUndefined
  ∨ ∃ n, ToNumber (field body "price") = Normal n ∧ num_lt (num_Z 0) n = true.

Definition stock_acceptable `{Engine} (body : gmap string jsval) : Prop :=
  field body "stock_quantity" = JUndefined
  ∨ ∃ n, ToNumber (field body "stock_quantity") = Normal n
         ∧ num_le (num_Z 0) n = true.

(** The same checks, failed: the price that was sent converts to NaN or
    to a number that is not positive; the stock quantity that was sent
    converts to NaN or to a negative number. *)
Definition price_refused `{Engine} (body : gmap string jsval) : Prop :=
  field body "price" ≠ JUndefined
  ∧ ∃ n, ToNumber (field body "price") = Normal n ∧ num_lt (num_Z 0) n = false.

Definition stock_refused `{Engine} (body : gmap string jsval) : Prop :=
  field body "stock_quantity" ≠ JUndefined
  ∧ ∃ n, ToNumber (field body "stock_quantity") = Normal n
         ∧ num_le (num_Z 0) n = false.

(** [v !== undefined ? Some v : None] *)
Definition defined (v : jsval) : option jsval :=
  match v with
  | JUndefined => None
  | _ => Some v
  end.

(** Two rows of [listings] that agree on every column the patch route
    may not write. *)
Definition same_protected_columns (l l' : listing) : Prop :=
  user_id l' = user_id l ∧ status l' = status l
  ∧ average_rating l' = average_rating l ∧ rating_count l' = rating_count l
  ∧ created_at l' = created_at l.

(** The string on which the variant filter calls [trim] for a [color]
    or [size] value [v], that is [(v || '')]: the value itself when it
    is a string, the empty string when it is falsy, and no string at
    all (the call throws) when it is a truthy value of another type. *)
Definition option_text (v : jsval) : option string :=
  match v with
  | JStr s => Some s
  | _ => if truthy v then None else Some ""
  end.

(** A variant entry the filter can evaluate: an object whose [color]
    and [size] are strings, absent or falsy, and whose [stock] converts
    to a number without throwing. *)
Definition well_shaped `{Engine} (v : jsval) : Prop :=
  ∃ o, v = JObj o
       ∧ is_Some (option_text (field o "color"))
       ∧ is_Some (option_text (field o "size"))
       ∧ ∃ n, ToNumber (field o "stock") = Normal n.

Definition non_empty_after_trim (v : jsval) : bool :=
  match option_text v with
  | Some s => negb (String.eqb (trim s) "")
  | None => false
  end.

(** The rule of the sanitizer: color or size non-empty after trim, and
    a stock that converts to a non-negative number. *)
Definition conforming `{Engine} (v : jsval) : bool :=
  match v with
  | JObj o =>
      (non_empty_after_trim (field o "color") || non_empty_after_trim (field o "size"))
      && match ToNumber (field o "stock") with
         | Normal n => num_le (num_Z 0) n
         | Throw _ => false
         end
  | _ => false
  end.

(** An entry whose [color] is the number 5. *)
Definition numeric_color : jsval :=
  obj [("color", JNum (num_Z 5)); ("size", JStr "M"); ("stock", JNum (num_Z 1))].

(** ** Rating aggregates *)

(** A rating value in the accepted range: a finite number between 1
    and 5. *)
Definition in_range (n : number) : Prop :=
  ∃ q, n = Fin q ∧ (1 <= q)%Q ∧ (q <= 5)%Q.

(** The arithmetic mean of the rating values, 0 over no rows. *)
Definition mean (rs : list rating) : Q :=
  match AVG rs with
  | None => 0%Q
  | Some m => m
  end.

(** What the two aggregate statements store for a set of rating rows:
    the mean cast to [numeric(3,2)], 0 over no rows. *)
Definition stored_average (rs : list rating) : Q :=
  match AVG rs with
  | None => 0%Q
  | Some m => round2 m
  end.

(** The aggregates of a listing agree with its rating rows: the count
    is the number of rows and the average is their mean rounded to two
    decimals. *)
Definition aggregates_consistent (s : store) (listingId : Z) : Prop :=
  match listings s !! listingId with
  | None => True
  | Some l =>
      rating_count l = COUNT (ratings_of s listingId)
      ∧ average_rating l = stored_average (ratings_of s listingId)
  end.

(** The invariant as the specification words it: the average is the
    mean itself. *)
Definition aggregates_exact (s : store) (listingId : Z) : Prop :=
  match listings s !! listingId with
  | None => True
  | Some l =>
      rating_count l = COUNT (ratings_of s listingId)
      ∧ (average_rating l == mean (ratings_of s listingId))%Q
  end.

(** The two operations on the ratings of a listing. *)
Inductive rating_op : Type :=
| Rate (now : Z) (acting : identity) (listingId : Z) (body : gmap string jsval)
| DeleteRating (acting : identity) (ratingId : Z).

Definition run_op `{Engine} `{Postgres} (op : rating_op) (s : store) : outcome :=
  match op with
  | Rate now acting listingId body => post_rating now acting listingId body s
  | DeleteRating acting ratingId => delete_rating acting ratingId s
  end.

(** A sequence of operations each of which succeeds (201 for a rating,
    200 for a deletion); [None] as soon as one does not. *)
Fixpoint run_successful `{Engine} `{Postgres} (ops : list rating_op) (s : store)
    : option store :=
  match ops with
  | [] => Some s
  | op :: rest =>
      match kind (run_op op s) with
      | Some Success => run_successful rest (final_store (run_op op s))
      | _ => None
      end
  end.

Definition stars (n : Z) : gmap string jsval := {[ "rating" := JNum (num_Z n) ]}.

(** Bob, Carol and the admin rate Alice's lamp 5, 4 and 4. *)
Definition three_ratings : list rating_op :=
  [Rate 501 bob 1 (stars 5); Rate 502 carol 1 (stars 4); Rate 503 root 1 (stars 4)].

(** ** Order of the search results *)









(** A patch that renames the desk and also tries to approve it. *)
Definition desk_patch : gmap string jsval :=
  <["status" := JStr "approved"]> {[ "title" := JStr "Desk, oak" ]}.

(** * The other routes over the catalog

    The handlers of [src/routes/listings.js] and [src/routes/admin.js]
    that read ratings, categories and the moderation queue, and the
    account routes of [src/routes/users.js] that write the catalog
    tables.  A route parameter that names a row ([:id], [:userId],
    [:ratingId]) is taken as the integer it denotes wherever the
    handler passes it on to the store as it is. *)

(** [parseInt(s, 10)] on a string: as [parseInt], with the radix given,
    so that no [0x] prefix is looked for. *)
Definition parseInt_10 (s : string) : option Z :=
  let '(sign, S1) := strip_sign (trimStart s) in
  Z.mul sign <$> parse_digits 10 S1 None.

(** The number [parseInt] returns: NaN when no digit was read. *)
Definition int_number (n : option Z) : number :=
  match n with
  | Some z => num_Z z
  | None => NaN
  end.

(** node-postgres binds [undefined] as NULL. *)
Definition bound (v : jsval) : jsval :=
  match v with
  | JUndefined => JNull
  | _ => v
  end.

(** The text PostgreSQL holds in a cell of a text column for the value
    that was bound to it; [None] for NULL. *)
Class PostgresText : Type := {
  pg_text : jsval → option string
}.

Section RatingReads.
Context `{Engine} `{Postgres}.

(** [SELECT rating FROM ratings WHERE listing_id = $1 AND user_id = $2] *)
Definition rating_by_user (listingId user : Z) (s : store) : list (gmap string jsval) :=
  (λ r, {[ "rating" := pg_deliver "rating" (JNum (num_Z (r_rating r))) ]})
    <$> filter (λ r, r_user_id r = user) (ratings_of s listingId).

(** [GET /api/listings/:id/rating-status]: the first row decides
    ([result.rowCount > 0], then [result.rows[0]]). *)
Definition get_rating_status (req_user : identity) (listingId : Z) (s : store) : outcome :=
  let user := userId req_user in
  match rating_by_user listingId user s with
  | row :: _ =>
      match Number_or_0 (field row "rating") with
      | Throw _ => Sent {| code := 500; json := message "Server error" |} s
      | Normal previousRating =>
          Sent {| code := 200;
                  json := obj [("hasRated", JBool true);
                               ("previousRating", previousRating)] |} s
      end
  | [] => Sent {| code := 200; json := obj [("hasRated", JBool false)] |} s
  end.

(** [FROM ratings r JOIN listings l ON r.listing_id = l.id JOIN users u
    ON r.user_id = u.id WHERE l.user_id = $1] *)
Definition seller_ratings_join (seller : Z) (s : store)
    : list (Z * rating * listing * user) :=
  omap (λ '(id, r),
          match listings s !! r_listing_id r, users s !! r_user_id r with
          | Some l, Some u => if user_id l =? seller then Some (id, r, l, u) else None
          | _, _ => None
          end)
       (map_to_list (ratings s)).

(** [... ORDER BY r.created_at DESC] *)
Definition newer_rating (a b : Z * rating * listing * user) : bool :=
  r_created_at b.1.1.2 <=? r_created_at a.1.1.2.

Definition seller_ratings_rows (seller : Z) (s : store)
    : list (Z * rating * listing * user) :=
  pg_sort newer_rating (seller_ratings_join seller s).

(** [SELECT r.id, r.rating, r.comment, r.created_at, u.username AS
    rater_username, l.title AS listing_title, l.id AS listing_id] *)
Definition seller_rating_row (row : Z * rating * listing * user) : gmap string jsval :=
  let '(id, r, l, u) := row in
  list_to_map [("id", pg_deliver "id" (JNum (num_Z id)));
               ("rating", pg_deliver "rating" (JNum (num_Z (r_rating r))));
               ("comment", pg_deliver "comment" (r_comment r));
               ("created_at", pg_deliver "created_at" (JNum (num_Z (r_created_at r))));
               ("rater_username", pg_deliver "username" (username u));
               ("listing_title", pg_deliver "title" (cell (r_listing_id r) l "title"));
               ("listing_id", pg_deliver "id" (JNum (num_Z (r_listing_id r))))].

(** [r => ({ ...r, rating: Number(r.rating) || 0 })] *)
Definition clean_rating (r : gmap string jsval) : completion (gmap string jsval) :=
  rating ← Number_or_0 (field r "rating");
  Normal (<["rating" := rating]> r).

(** [GET /api/listings/users/:userId/ratings]: the authorization test
    is made before the [try] block is entered. *)
Definition get_seller_ratings (req_user : identity) (sellerId : Z) (s : store) : outcome :=
  let currentUserId := userId req_user in
  let isAdmin := strict_eq_str (role req_user) "admin" in
  if negb (currentUserId =? sellerId) && negb isAdmin then
    Sent {| code := 403; json := message "Not authorized" |} s
  else
    match mapM clean_rating (seller_rating_row <$> seller_ratings_rows sellerId s) with
    | Throw _ => Sent {| code := 500; json := message "Server error" |} s
    | Normal cleanedRatings =>
        Sent {| code := 200;
                json := obj [("status", JStr "success");
                             ("count", JNum (num_Z (Z.of_nat (length cleanedRatings))));
                             ("data", rows_json cleanedRatings)] |} s
    end.
End RatingReads.

Section Popular.
Context `{Engine} `{Postgres} `{PostgresText}.

(** [FROM listings WHERE status = 'approved' AND category IS NOT NULL
    AND category != '']: the category of every such row. *)
Definition approved_categories (s : store) : list string :=
  omap (λ '(id, l),
          if String.eqb (status l) "approved" then
            match pg_text (cell id l "category") with
            | Some category => if String.eqb category "" then None else Some category
            | None => None
            end
          else None)
       (map_to_list (listings s)).

(** [SELECT category, COUNT( * ) as count ... GROUP BY category] *)
Definition group_by_count (categories : list string) : list (string * Z) :=
  (λ c, (c, Z.of_nat (length (filter (λ x, x = c) categories))))
    <$> remove_dups categories.

(** [... ORDER BY count DESC LIMIT 10] *)
Definition more_listings (a b : string * Z) : bool := b.2 <=? a.2.

Definition popular_rows (s : store) : list (string * Z) :=
  take 10 (pg_sort more_listings (group_by_count (approved_categories s))).

(** The row object of the driver.  [COUNT( * )] is a bigint, which
    node-postgres delivers as its decimal text: [src/unnamed/part_003]
    (models/db.js) installs no type parser. *)
Definition popular_row (row : string * Z) : gmap string jsval :=
  list_to_map [("category", pg_deliver "category" (JStr row.1));
               ("count", JStr (pretty row.2))].

(** [r => ({ category: r.category, count: parseInt(r.count) })] *)
Definition popular_item (r : gmap string jsval) : completion (gmap string jsval) :=
  count ← parseInt (field r "count");
  Normal (list_to_map [("category", field r "category");
                       ("count", JNum (int_number count))]).

(** [GET /api/listings/categories/popular] *)
Definition get_popular_categories (s : store) : outcome :=
  match mapM popular_item (popular_row <$> popular_rows s) with
  | Throw _ => Sent {| code := 500; json := message "Server error" |} s
  | Normal data =>
      Sent {| code := 200;
              json := obj [("status", JStr "success"); ("data", rows_json data)] |} s
  end.
End Popular.

Section ModerationQueue.
Context `{Postgres}.

Definition pending_columns : list string :=
  ["id"; "title"; "description"; "price"; "condition"; "whatsapp_phone";
   "image_url"; "created_at"].

(** [FROM listings WHERE status = 'pending' ORDER BY created_at DESC] *)
Definition pending_rows (s : store) : list (Z * listing) :=
  pg_sort (λ a b, order_le created_at_DESC a.2 b.2)
    (listings_where s (λ _ l, String.eqb (status l) "pending")).

(** [GET /api/admin/pending].  The handler runs behind the
    authentication middleware and does not read [req.user]. *)
Definition get_pending (req_user : identity) (s : store) : outcome :=
  let result := (λ '(id, l), select pending_columns id l) <$> pending_rows s in
  Sent {| code := 200;
          json := obj [("status", JStr "success");
                       ("count", JNum (num_Z (Z.of_nat (length result))));
                       ("data", rows_json result)] |} s.
End ModerationQueue.

(** ** [src/routes/users.js]: the routes that write the catalog tables *)

Definition error_message (m : string) : jsval :=
  obj [("status", JStr "error"); ("message", JStr m)].

Definition success_message (m : string) : jsval :=
  obj [("status", JStr "success"); ("message", JStr m)].

Definition with_cover_image_url (v : jsval) (u : user) : user :=
  {| username := username u; shop_name := shop_name u; avatar_url := avatar_url u;
     cover_image_url := v |}.

Definition set_users (f : gmap Z user → gmap Z user) (s : store) : store :=
  {| listings := listings s; ratings := ratings s; users := f (users s);
     ratings_id_seq := ratings_id_seq s; listings_id_seq := listings_id_seq s |}.

(** [isNaN(userId) || userId <= 0] on the result of [parseInt]. *)
Definition invalid_user_id (userId : option Z) : bool :=
  match userId with
  | None => true
  | Some z => z <=? 0
  end.

(** [PUT /api/users/:id/cover]: change any seller's cover image, admin
    only.  The statement [UPDATE users SET cover_image_url = $1 WHERE
    id = $2], which compares [id] with the number [parseInt] gave,
    bound as an integer, is not followed by a look at its row count. *)
Definition put_cover `{Postgres} (req_user : identity) (id : string)
    (body : gmap string jsval) (s : store) : outcome :=
  if negb (strict_eq_str (role req_user) "admin") then
    Sent {| code := 403; json := error_message "Admin access only" |} s
  else
    let cover_image_url := field body "cover_image_url" in
    let userId := parseInt_10 id in
    if invalid_user_id userId then
      Sent {| code := 400; json := error_message "Invalid user ID" |} s
    else
      match pg_integer_in (JNum (int_number userId)) with
      | None => Sent {| code := 500; json := error_message "Server error" |} s
      | Some key =>
          Sent {| code := 200; json := success_message "Cover image updated" |}
               (set_users (alter (with_cover_image_url (bound cover_image_url)) key) s)
      end.

(** Whether the listing a rating row references belongs to [owner]. *)
Definition rates_listing_of (s : store) (owner : Z) (r : rating) : bool :=
  match listings s !! r_listing_id r with
  | Some l => user_id l =? owner
  | None => false
  end.

(** [DELETE FROM ratings WHERE user_id = $1] *)
Definition delete_ratings_by (user : Z) (s : store) : store :=
  set_ratings (filter (λ kr, r_user_id kr.2 ≠ user)) s.

(** Modelled from the spec: the foreign key of [ratings] is not in the
    repository; every row goes as in [delete_listing_row], together
    with the ratings that reference it.  [DELETE FROM listings WHERE
    user_id = $1]. *)
Definition delete_listings_of (user : Z) (s : store) : store :=
  {| listings := filter (λ kl, user_id kl.2 ≠ user) (listings s);
     ratings := filter (λ kr, rates_listing_of s user kr.2 = false) (ratings s);
     users := users s;
     ratings_id_seq := ratings_id_seq s;
     listings_id_seq := listings_id_seq s |}.

(** [DELETE /api/users/me]: delete own account.  The three statements
    run one after the other, outside any transaction; [DELETE FROM
    users WHERE id = $1 RETURNING id] comes last and its row count
    decides between 200 and 404. *)
Definition delete_me (req_user : identity) (s : store) : outcome :=
  let user := userId req_user in
  let s1 := delete_ratings_by user s in
  let s2 := delete_listings_of user s1 in
  match users s2 !! user with
  | None => Sent {| code := 404; json := error_message "User not found" |} s2
  | Some _ =>
      Sent {| code := 200;
              json := success_message
                        "Your account and all associated data have been permanently deleted." |}
           (set_users (delete user) s2)
  end.

(** A text driver to run the handlers on: a string is stored as it is,
    a number by its decimal form, NULL stays NULL. *)
#[global] Instance reference_postgres_text : PostgresText := {|
  pg_text cell :=
    match cell with
    | JStr text => Some text
    | JNum n => Some (reference_NumberToString n)
    | JBool true => Some "true"
    | JBool false => Some "false"
    | _ => None
    end
|}.

(** ** Vocabulary for the properties of these routes *)

(** [r.pagination.key] on a response. *)
Definition pagination_of (r : response) (key : string) : jsval :=
  match json r with
  | JObj o => field_of (field o "pagination") key
  | _ => JUndefined
  end.

(** [r.key] on the body of a response. *)
Definition body_of (r : response) (key : string) : jsval := field_of (json r) key.

(** The listing row, its owner's account and the filter of a search
    that a returned row satisfies. *)
Definition matches_search `{Postgres} (q : query) (id : Z) (l : listing) : Prop :=
  (∀ text, q_search q = JStr text → trim text ≠ "" →
     pg_ilike (cell id l "title") ("%" +:+ trim text +:+ "%") = true
     ∨ pg_ilike (cell id l "description") ("%" +:+ trim text +:+ "%") = true)
  ∧ (truthy (q_category q) = true → q_category q ≠ JStr "All" →
     pg_text_eq (cell id l "category") (q_category q) = true).

(** The driver hands an integer cell of [ratings.rating] over as the
    number it holds. *)
Definition ratings_delivered `{Postgres} : Prop :=
  ∀ z, pg_deliver "rating" (JNum (num_Z z)) = JNum (num_Z z).

(** The user has a rating row on the listing. *)
Definition has_rating (s : store) (listingId user : Z) : Prop :=
  ∃ r, r ∈ ratings_of s listingId ∧ r_user_id r = user.

(** Every rating row references a listing that exists. *)
Definition referential (s : store) : Prop :=
  ∀ id r, ratings s !! id = Some r → is_Some (listings s !! r_listing_id r).

(** The catalog is consistent: ratings reference listings, and the
    aggregates of every listing agree with its rating rows. *)
Definition catalog_consistent (s : store) : Prop :=
  referential s ∧ ∀ listingId, aggregates_consistent s listingId.

(** The operations of [src/routes/listings.js] and
    [src/routes/admin.js] that write the catalog. *)
Inductive catalog_op : Type :=
| Create (now : Z) (acting : identity) (body : gmap string jsval)
| Patch (acting : identity) (id : Z) (body : gmap string jsval)
| Moderate (acting : identity) (id : Z) (body : gmap string jsval)
| Delete (acting : identity) (id : Z)
| Rating (op : rating_op).

Definition run_catalog_op `{Engine} `{Postgres} (op : catalog_op) (s : store) : outcome :=
  match op with
  | Create now acting body => post_listing now acting body s
  | Patch acting id body => patch_listing acting id body s
  | Moderate acting id body => patch_admin_listing acting id body s
  | Delete acting id => delete_listing acting id s
  | Rating op => run_op op s
  end.

(** The number of approved listings whose category is [category]. *)
Definition listings_in `{PostgresText} (s : store) (category : string) : Z :=
  Z.of_nat (length (filter (λ kl, status kl.2 = "approved"
                                      ∧ pg_text (cell kl.1 kl.2 "category") = Some category)
                           (map_to_list (listings s)))).

(** The item the popular-categories route returns for a category and
    the number of its listings. *)
Definition popular_entry `{Postgres} (row : string * Z) : gmap string jsval :=
  list_to_map [("category", pg_deliver "category" (JStr row.1));
               ("count", JNum (num_Z row.2))].

(** Whether a string begins with a decimal digit. *)
Definition starts_with_digit (s : string) : bool :=
  match s with
  | String c _ =>
      match digit_value c with
      | Some d => d <? 10
      | None => false
      end
  | EmptyString => false
  end.

(** Bodies, requests and stores for the examples. *)
Definition approve : gmap string jsval := {[ "status" := JStr "approved" ]}.
Definition reject : gmap string jsval := {[ "status" := JStr "rejected" ]}.

Definition bike : gmap string jsval :=
  list_to_map [("title", JStr "  Bike "); ("price", JStr "80");
               ("stock_quantity", JNum (num_Z 2))].

(** The sample catalog after Bob, Carol and the admin have rated the
    lamp. *)
Definition rated_campus : store :=
  default campus (run_successful three_ratings campus).

(** * The account and site routes

    The profile routes of [src/routes/users.js], the feedback routes of
    [src/routes/feedback.js], the settings router that [src/server.js]
    carries (lines 99-138) and the visit counter of the server file in
    [src/unnamed/part_000].  They work on the catalog store and on
    tables beside it.  The definitions of these tables are not in the
    repository: a table is modelled by what the SQL text of the
    handlers shows of it, and a cell holds the value that was bound to
    the statement, as [content] does for a listing. *)

(** A row of [feedback], keyed by its [id]. *)
Record feedback_row : Type := {
  f_user_id : Z;
  f_rating : jsval;
  f_comment : jsval;
  f_created_at : Z
}.

Record site : Type := {
  catalog : store;
  (** The cells of [users] in the columns that [user] leaves out
      ([bio], [whatsapp_phone], [email], ...), by row id and column
      name; a cell that was never written is NULL. *)
  account_cells : gmap (Z * string) jsval;
  feedback : gmap Z feedback_row;
  feedback_id_seq : Z;
  (** [app_settings.hero_image_url], by row id. *)
  app_settings : gmap Z jsval;
  (** [stats.value], by [key]: [ON CONFLICT (key)] needs the key to be
      unique.  The SQL text does not give the width of the integer
      column; no bound is put on it here. *)
  stats : gmap string Z
}.

Inductive site_outcome : Type :=
| Replied (r : response) (t : site)
| Escaped (e : js_error) (t : site).

Definition final_site (o : site_outcome) : site :=
  match o with
  | Replied _ t | Escaped _ t => t
  end.

Definition reply_of (o : site_outcome) : option response :=
  match o with
  | Replied r _ => Some r
  | Escaped _ _ => None
  end.

Definition set_feedback (rows : gmap Z feedback_row) (next : Z) (t : site) : site :=
  {| catalog := catalog t; account_cells := account_cells t; feedback := rows;
     feedback_id_seq := next; app_settings := app_settings t; stats := stats t |}.

Definition set_app_settings (f : gmap Z jsval → gmap Z jsval) (t : site) : site :=
  {| catalog := catalog t; account_cells := account_cells t; feedback := feedback t;
     feedback_id_seq := feedback_id_seq t; app_settings := f (app_settings t);
     stats := stats t |}.

Definition set_stats (f : gmap string Z → gmap string Z) (t : site) : site :=
  {| catalog := catalog t; account_cells := account_cells t; feedback := feedback t;
     feedback_id_seq := feedback_id_seq t; app_settings := app_settings t;
     stats := f (stats t) |}.

(** ** [src/routes/users.js]: the profile *)

Definition profile_columns : list string :=
  ["id"; "username"; "shop_name"; "bio"; "cover_image_url"; "avatar_url";
   "whatsapp_phone"].

(** The stored cell of a column of a [users] row. *)
Definition account_cell (t : site) (id : Z) (u : user) (column : string) : jsval :=
  if String.eqb column "id" then JNum (num_Z id)
  else if bool_decide (column ∈ ["username"; "shop_name"; "avatar_url"; "cover_image_url"])
  then user_cell u column
  else default JNull (account_cells t !! (id, column)).

Definition with_profile (shop_name cover_image_url avatar_url : jsval) (u : user) : user :=
  {| username := username u; shop_name := shop_name; avatar_url := avatar_url;
     cover_image_url := cover_image_url |}.

Section Profile.
Context `{Postgres}.

(** [SELECT columns FROM users]: the row object the driver builds. *)
Definition select_account (columns : list string) (t : site) (id : Z) (u : user)
    : gmap string jsval :=
  list_to_map ((λ c, (c, pg_deliver c (account_cell t id u c))) <$> columns).

(** [GET /api/users/:id]: the public profile.  [WHERE id = $1]
    compares with the number [parseInt] gave, bound as an integer. *)
Definition get_user (id : string) (t : site) : site_outcome :=
  let userId := parseInt_10 id in
  if invalid_user_id userId then
    Replied {| code := 400;
               json := error_message "Invalid user ID (must be a positive number)" |} t
  else
    match pg_integer_in (JNum (int_number userId)) with
    | None =>
        Replied {| code := 500;
                   json := error_message "Server error while fetching user profile" |} t
    | Some key =>
        match users (catalog t) !! key with
        | None => Replied {| code := 404; json := error_message "User not found" |} t
        | Some u =>
            Replied {| code := 200;
                       json := obj [("status", JStr "success");
                                    ("data", JObj (select_account profile_columns t key u))] |}
                    t
        end
    end.
End Profile.

(** [PUT /api/users/profile]: [UPDATE users SET shop_name = $1, bio =
    $2, cover_image_url = $3, avatar_url = $4 WHERE id = $5] with
    [field || null] bound for each of the four; the row count is not
    looked at. *)
Definition put_profile (req_user : identity) (body : gmap string jsval) (t : site)
    : site_outcome :=
  let shop_name := field body "shop_name" in
  let bio := field body "bio" in
  let cover_image_url := field body "cover_image_url" in
  let avatar_url := field body "avatar_url" in
  let userId := userId req_user in
  Replied {| code := 200; json := success_message "Profile updated successfully" |}
    {| catalog :=
         set_users (alter (with_profile (js_or shop_name JNull)
                                        (js_or cover_image_url JNull)
                                        (js_or avatar_url JNull)) userId)
                   (catalog t);
       account_cells :=
         match users (catalog t) !! userId with
         | Some _ => <[(userId, "bio") := js_or bio JNull]> (account_cells t)
         | None => account_cells t
         end;
       feedback := feedback t;
       feedback_id_seq := feedback_id_seq t;
       app_settings := app_settings t;
       stats := stats t |}.

(** ** [src/routes/feedback.js] *)

(** What the repository does not show of the [feedback] table: whether
    it takes a row that is inserted (the type of [rating], a CHECK, a
    foreign key on [user_id]) and the cell it then holds for the rating
    that was bound; [None] when the store rejects the row. *)
Class FeedbackTable : Type := {
  feedback_rating_in : store → Z → jsval → option jsval
}.

Section Feedback.
Context `{Engine} `{Postgres} `{FeedbackTable}.

(** [INSERT INTO feedback (user_id, rating, comment) VALUES ($1, $2,
    $3)] *)
Definition insert_feedback (now : Z) (user : Z) (rating comment : jsval) (t : site)
    : option site :=
  let id := feedback_id_seq t in
  match feedback t !! id, feedback_rating_in (catalog t) user rating with
  | None, Some value =>
      let f := {| f_user_id := user; f_rating := value; f_comment := comment;
                  f_created_at := now |} in
      Some (set_feedback (<[id := f]> (feedback t)) (id + 1) t)
  | _, _ => None
  end.

(** [POST /api/feedback]: the range test is the one of the rating
    route, made before the [try] block is entered. *)
Definition post_feedback (now : Z) (req_user : identity) (body : gmap string jsval)
    (t : site) : site_outcome :=
  let rating := field body "rating" in
  let comment := field body "comment" in
  let userId := userId req_user in
  match rating_out_of_range rating with
  | Throw e => Escaped e t
  | Normal true =>
      Replied {| code := 400; json := message "Rating must be between 1 and 5" |} t
  | Normal false =>
      match insert_feedback now userId rating (js_or comment JNull) t with
      | None => Replied {| code := 500; json := message "Failed to submit feedback" |} t
      | Some t1 =>
          Replied {| code := 201; json := message "Feedback submitted successfully" |} t1
      end
  end.

(** [FROM feedback f JOIN users u ON f.user_id = u.id] *)
Definition feedback_join (t : site) : list (Z * feedback_row * user) :=
  omap (λ '(id, f), (λ u, (id, f, u)) <$> users (catalog t) !! f_user_id f)
       (map_to_list (feedback t)).

(** [... ORDER BY f.created_at DESC] *)
Definition newer_feedback (a b : Z * feedback_row * user) : bool :=
  f_created_at b.1.2 <=? f_created_at a.1.2.

(** [SELECT f.id, f.rating, f.comment, f.created_at, u.username] *)
Definition feedback_item (row : Z * feedback_row * user) : gmap string jsval :=
  let '(id, f, u) := row in
  list_to_map [("id", pg_deliver "id" (JNum (num_Z id)));
               ("rating", pg_deliver "rating" (f_rating f));
               ("comment", pg_deliver "comment" (f_comment f));
               ("created_at", pg_deliver "created_at" (JNum (num_Z (f_created_at f))));
               ("username", pg_deliver "username" (username u))].

Definition feedback_rows (t : site) : list (Z * feedback_row * user) :=
  pg_sort newer_feedback (feedback_join t).

(** [GET /api/feedback]: all feedback, admin only. *)
Definition get_feedback (req_user : identity) (t : site) : site_outcome :=
  if negb (strict_eq_str (role req_user) "admin") then
    Replied {| code := 403; json := message "Admin access only" |} t
  else
    Replied {| code := 200; json := rows_json (feedback_item <$> feedback_rows t) |} t.
End Feedback.

(** ** The settings router *)

Definition default_hero_image_url : string :=
  "https://images.unsplash.com/photo-1523050854058-8df90110c9f1?w=1920".

Section Settings.
Context `{Postgres}.

(** [GET /api/settings/hero]: [SELECT hero_image_url FROM app_settings
    WHERE id = 1], and a fixed image when there is no such row. *)
Definition get_hero (t : site) : site_outcome :=
  match app_settings t !! 1 with
  | None =>
      Replied {| code := 200;
                 json := obj [("hero_image_url", JStr default_hero_image_url)] |} t
  | Some hero_image_url =>
      Replied {| code := 200;
                 json := obj [("hero_image_url",
                               pg_deliver "hero_image_url" hero_image_url)] |} t
  end.

(** [PUT /api/settings/hero], admin only: [UPDATE app_settings SET
    hero_image_url = $1, updated_at = CURRENT_TIMESTAMP WHERE id = 1];
    the row count is not looked at. *)
Definition put_hero (req_user : identity) (body : gmap string jsval) (t : site)
    : site_outcome :=
  if negb (strict_eq_str (role req_user) "admin") then
    Replied {| code := 403; json := message "Admin access only" |} t
  else
    let hero_image_url := field body "hero_image_url" in
    Replied {| code := 200; json := message "Hero image updated successfully" |}
            (set_app_settings (alter (λ _, bound hero_image_url) 1) t).
End Settings.

(** ** The visit counter *)

(** [s.includes(needle)] *)
Fixpoint includes (needle s : string) : bool :=
  String.prefix needle s
  || match s with
     | String _ rest => includes needle rest
     | EmptyString => false
     end.

(** The test of the counting middleware on [req.path]: API calls,
    admin paths, anything with a dot, the root and the health endpoint
    are passed on uncounted. *)
Definition skipped (path : string) : bool :=
  String.prefix "/api" path
  || String.prefix "/admin" path
  || includes "." path
  || String.eqb path "/"
  || String.eqb path "/health".

(** [INSERT INTO stats (key, value) VALUES ('visits', 1) ON CONFLICT
    (key) DO UPDATE SET value = stats.value + 1] *)
Definition increment_visits (t : site) : site :=
  set_stats (λ st, <["visits" := match st !! "visits" with
                                 | Some value => value + 1
                                 | None => 1
                                 end]> st) t.

(** The middleware that runs ahead of every route. *)
Definition count_visit (path : string) (t : site) : site :=
  if skipped path then t else increment_visits t.

Section Stats.
Context `{Engine} `{Postgres}.

(** [GET /api/admin/stats/visits]: the statement of the middleware
    again, with [RETURNING value AS "totalVisits"]. *)
Definition get_stats_visits (t : site) : site_outcome :=
  let t1 := increment_visits t in
  let value := default 0 (stats t1 !! "visits") in
  match parseInt (pg_deliver "value" (JNum (num_Z value))) with
  | Throw _ => Replied {| code := 500; json := message "Server error" |} t1
  | Normal totalVisits =>
      Replied {| code := 200;
                 json := obj [("totalVisits", JNum (int_number totalVisits))] |} t1
  end.

(** A request for the count as the server handles it: the middleware,
    then the route. *)
Definition serve_stats_visits (t : site) : site_outcome :=
  get_stats_visits (count_visit "/api/admin/stats/visits" t).
End Stats.

(** A table that takes any row whose rating is an integer, as
    [ratings] does. *)
#[global] Instance reference_feedback_table : FeedbackTable := {|
  feedback_rating_in _ _ v := JNum ∘ num_Z <$> reference_integer_in v
|}.

(** ** Vocabulary for the properties of these routes *)

(** The site around the sample catalog: Alice has a bio and a phone
    number, the settings row exists, two users have left feedback. *)
Definition campus_site : site :=
  {| catalog := campus;
     account_cells := list_to_map [((1, "bio"), JStr "Books and lamps");
                                   ((1, "whatsapp_phone"), JStr "+265 1");
                                   ((1, "email"), JStr "alice@campus.example");
                                   ((1, "password_hash"), JStr "$2a$10$hash")];
     feedback := list_to_map
                   [(1, {| f_user_id := 2; f_rating := JNum (num_Z 5);
                           f_comment := JStr "Great"; f_created_at := 40 |});
                    (2, {| f_user_id := 3; f_rating := JNum (num_Z 2);
                           f_comment := JNull; f_created_at := 50 |})];
     feedback_id_seq := 3;
     app_settings := {[ 1 := JStr "hero.png" ]};
     stats := {[ "visits" := 7 ]} |}.

(** The same site with no settings row and no counter yet. *)
Definition fresh_site : site :=
  {| catalog := campus; account_cells := ∅; feedback := ∅; feedback_id_seq := 1;
     app_settings := ∅; stats := ∅ |}.

(** The number of visits counted so far. *)
Definition visits (t : site) : Z := default 0 (stats t !! "visits").

(** [k] requests for the visit count, one after the other. *)
Fixpoint serve_stats_visits_times `{Engine} `{Postgres} (k : nat) (t : site) : site :=
  match k with
  | O => t
  | S k => serve_stats_visits_times k (final_site (serve_stats_visits t))
  end.

(** * Properties *)

Ltac in_list := repeat first [apply list_elem_of_here | apply list_elem_of_further].

(** ** Completions *)

Lemma bind_Normal {A B} (c : completion A) (f : A → completion B) b :
  c ≫= f = Normal b → ∃ a, c = Normal a ∧ f a = Normal b.
Proof. destruct c; simpl; [eauto | discriminate]. Qed.

Lemma mapM_Normal {A B} (f : A → completion B) (l : list A) (k : list B) :
  mapM f l = Normal k → Forall2 (λ a b, f a = Normal b) l k.
Proof.
  revert k. induction l as [|a l IH]; intros k; simpl.
  - intros [= <-]. constructor.
  - intros (b & Hb & Hk)%bind_Normal.
    apply bind_Normal in Hk as (k' & Hk' & Hk). injection Hk as <-.
    constructor; auto.
Qed.

Lemma data_of_rows c k v (rows : list (gmap string jsval)) rest :
  k ≠ "data" →
  data_of {| code := c; json := obj ((k, v) :: ("data", rows_json rows) :: rest) |}
  = JObj <$> rows.
Proof.
  intros Hk. unfold data_of, obj. simpl.
  rewrite lookup_insert_ne by done. by rewrite lookup_insert_eq.
Qed.

(** A handler run that ends with a response of a known kind is [Sent]. *)
Lemma kind_Sent o k :
  kind o = Some k → o = Sent (response_of o) (final_store o).
Proof. destruct o; [reflexivity | discriminate]. Qed.

(** ** cleanListing and the read paths *)

Section CleanListing.
Context `{Engine} `{Postgres}.

Lemma Number_or_0_Normal v w :
  Number_or_0 v = Normal w →
  ∃ x, ToNumber v = Normal x ∧ w = js_or (JNum x) (JNum (num_Z 0)).
Proof.
  unfold Number_or_0. intros (x & Hx & Hw)%bind_Normal.
  exists x. split; [done | congruence].
Qed.

(** [Number(v) || 0]: 0 for NaN and for 0, the number otherwise. *)
Lemma js_or_zero x :
  js_or (JNum x) (JNum (num_Z 0))
  = JNum (if num_isNaN x || is_zero x then num_Z 0 else x).
Proof.
  destruct x as [|q| |]; try reflexivity.
  unfold js_or. cbn. by destruct (Qeqb0 q).
Qed.

Lemma number_or_zero_not_NaN x :
  (if num_isNaN x || is_zero x then num_Z 0 else x) ≠ NaN.
Proof. destruct x as [|q| |]; cbn; try done. by destruct (Qeqb0 q). Qed.

Lemma array_or_empty v : is_array (if Array_isArray v then v else JArr []).
Proof. destruct v; simpl; eexists; reflexivity. Qed.

Lemma Array_isArray_true v : Array_isArray v = true ↔ is_array v.
Proof.
  split.
  - destruct v; simpl; try discriminate. intros _. eexists; reflexivity.
  - intros [l ->]. reflexivity.
Qed.

Lemma cleanListing_spec row o : cleanListing row = Normal o → clean_of row o.
Proof.
  unfold cleanListing.
  intros (p & Hp & Hr)%bind_Normal.
  apply bind_Normal in Hr as (a & Ha & Hr).
  apply bind_Normal in Hr as (c & Hc & Hr).
  apply bind_Normal in Hr as (q & Hq & Hr).
  injection Hr as <-.
  apply Number_or_0_Normal in Hp as (xp & Hxp & ->).
  apply Number_or_0_Normal in Ha as (xa & Hxa & ->).
  apply Number_or_0_Normal in Hc as (xc & Hxc & ->).
  apply Number_or_0_Normal in Hq as (xq & Hxq & ->).
  assert (Hzero : ∀ v x, ToNumber v = Normal x →
            v = JUndefined ∨ v = JNull ∨ ToNumber v = Normal NaN →
            js_or (JNum x) (JNum (num_Z 0)) = JNum (num_Z 0)).
  { intros v x Hx [-> | [-> | Hn]].
    - injection Hx as <-. reflexivity.
    - injection Hx as <-. reflexivity.
    - rewrite Hn in Hx. injection Hx as <-. reflexivity. }
  assert (Hval : ∀ x, truthy (JNum x) = true →
            js_or (JNum x) (JNum (num_Z 0)) = JNum x).
  { intros x Hx. unfold js_or. by rewrite Hx. }
  split.
  - intros k Hk. unfold numeric_fields in Hk.
    repeat (apply elem_of_cons in Hk as [-> | Hk]);
      [| | | | by apply elem_of_nil in Hk];
      simplify_map_eq; rewrite js_or_zero; eexists;
      (split; [reflexivity | apply number_or_zero_not_NaN]).
  - intros k Hk Hz. unfold numeric_fields in Hk.
    repeat (apply elem_of_cons in Hk as [-> | Hk]);
      [| | | | by apply elem_of_nil in Hk];
      simplify_map_eq; f_equal; eapply Hzero; eauto.
  - intros k x Hk Hx Ht. unfold numeric_fields in Hk.
    repeat (apply elem_of_cons in Hk as [-> | Hk]);
      [| | | | by apply elem_of_nil in Hk];
      rewrite ?Hxp, ?Hxa, ?Hxc, ?Hxq in Hx; injection Hx as <-;
      simplify_map_eq; f_equal; by apply Hval.
  - intros k Hk. unfold array_fields in Hk.
    repeat (apply elem_of_cons in Hk as [-> | Hk]);
      [| | by apply elem_of_nil in Hk];
      simplify_map_eq; eexists; (split; [reflexivity | apply array_or_empty]).
  - intros k Hk Hn. unfold array_fields in Hk.
    repeat (apply elem_of_cons in Hk as [-> | Hk]);
      [| | by apply elem_of_nil in Hk];
      simplify_map_eq;
      (destruct (Array_isArray _) eqn:E;
       [by apply Array_isArray_true in E | reflexivity]).
  - intros k Hk Ha. unfold array_fields in Hk.
    repeat (apply elem_of_cons in Hk as [-> | Hk]);
      [| | by apply elem_of_nil in Hk];
      simplify_map_eq; apply Array_isArray_true in Ha; by rewrite Ha.
  - intros k Hk. unfold numeric_fields, array_fields in Hk. simpl in Hk.
    rewrite !lookup_insert_ne; [done | ..];
      intros <-; apply Hk; set_solver.
Qed.

(** cleanListing returns on every row whose numeric cells are
    primitive values, which is all the driver delivers for a numeric
    or integer column. *)

Lemma ToNumber_primitive v : primitive v → ∃ n, ToNumber v = Normal n.
Proof. destruct v as [| |[]| | | |]; simpl; intros Hv; try done; eauto. Qed.

Lemma cleanListing_returns row :
  (∀ k, k ∈ numeric_fields → primitive (field row k)) →
  ∃ o, cleanListing row = Normal o.
Proof.
  intros Hp. unfold cleanListing, Number_or_0.
  destruct (ToNumber_primitive (field row "price")) as [? ->];
    [apply Hp; set_solver|].
  destruct (ToNumber_primitive (field row "average_rating")) as [? ->];
    [apply Hp; set_solver|].
  destruct (ToNumber_primitive (field row "rating_count")) as [? ->];
    [apply Hp; set_solver|].
  destruct (ToNumber_primitive (field row "stock_quantity")) as [? ->];
    [apply Hp; set_solver|].
  simpl. eauto.
Qed.






End CleanListing.

(** ** Page and limit validation *)

Section Pagination.
Context `{Engine} `{Postgres}.

(** The part of the page/limit guard that is reachable: a page or
    limit that parses to a negative integer, or a limit above 100, is
    answered with 400 and no rows. *)
Lemma get_listings_rejects q s page limit search :
  parseInt (q_page q) = Normal page →
  parseInt (q_limit q) = Normal limit →
  optional_trim (q_search q) = Normal search →
  int_or page 1 < 1 ∨ int_or limit 24 < 1 ∨ int_or limit 24 > 100 →
  get_listings q s
  = Sent {| code := 400; json := message "Invalid page or limit" |} s.
Proof.
  intros Hp Hl Hs Hbad. unfold get_listings. rewrite Hp, Hl, Hs. simpl.
  destruct (_ || _) eqn:E; [done|].
  apply orb_false_iff in E as [E1 E3]. apply orb_false_iff in E1 as [E1 E2].
  lia.
Qed.

(** After the defaults are applied the page is never 0 and the limit
    is never 0, whatever was sent. *)
Lemma int_or_nonzero n d : d ≠ 0 → int_or n d ≠ 0.
Proof.
  intros Hd. unfold int_or. destruct n as [z|]; [|done].
  destruct (z =? 0) eqn:E; [done | lia].
Qed.

Lemma parseInt_zero : parseInt (JStr "0") = Normal (Some 0).
Proof. reflexivity. Qed.
End Pagination.

(** C6.  At [page=0] and [limit=0] the search is not rejected:
    [parseInt("0") || 1] and [parseInt("0") || 24] replace the zero by
    the default before the guard [page < 1 || limit < 1 || limit > 100]
    is evaluated, so the request is answered exactly like one that
    carries no page and no limit, and never with a validation
    failure. *)
Theorem get_listings_zero_page_and_limit_accepted `{Engine} `{Postgres}
    (sort search category : jsval) (s : store) :
  let zero := {| q_page := JStr "0"; q_limit := JStr "0"; q_sort := sort;
                 q_search := search; q_category := category |} in
  let absent := {| q_page := JUndefined; q_limit := JUndefined; q_sort := sort;
                   q_search := search; q_category := category |} in
  get_listings zero s = get_listings absent s
  ∧ kind (get_listings zero s) ≠ Some ValidationError.
Proof.
  simpl. split; [reflexivity|].
  unfold get_listings. simpl.
  destruct (optional_trim search) as [trimmed|]; simpl; [|done].
  destruct (mapM _ _); simpl; done.
Qed.

(** On the sample catalog the request [?page=0&limit=0] returns the
    three approved listings. *)
Example get_listings_zero_on_campus :
  let zero := {| q_page := JStr "0"; q_limit := JStr "0"; q_sort := JUndefined;
                 q_search := JUndefined; q_category := JUndefined |} in
  kind (get_listings zero campus) = Some Success
  ∧ length (data_of (response_of (get_listings zero campus))) = 3%nat.
Proof. split; vm_compute; reflexivity. Qed.

(** ** Moderation *)

Section Moderation.
Context `{Postgres}.

(** The two failures of the moderation route that the code does
    implement: a status other than the strings [approved] and
    [rejected] is a validation error, a missing listing is not found;
    the store is left as it was. *)
Lemma patch_admin_listing_failures (acting : identity) (id : Z)
    (body : gmap string jsval) (s : store) :
  (field body "status" ≠ JStr "approved" → field body "status" ≠ JStr "rejected" →
   ∃ r, patch_admin_listing acting id body s = Sent r s
        ∧ kind_of r = Some ValidationError)
  ∧ (listings s !! id = None →
     field body "status" = JStr "approved" ∨ field body "status" = JStr "rejected" →
     ∃ r, patch_admin_listing acting id body s = Sent r s
          ∧ kind_of r = Some NotFound).
Proof.
  unfold patch_admin_listing. split.
  - intros Ha Hr. destruct (field body "status") as [| | | |text| |];
      try (eexists; split; reflexivity).
    destruct (String.eqb text "approved") eqn:E1.
    { apply String.eqb_eq in E1 as ->. done. }
    destruct (String.eqb text "rejected") eqn:E2.
    { apply String.eqb_eq in E2 as ->. done. }
    simpl. eexists; split; reflexivity.
  - intros Hnone [-> | ->]; simpl; unfold update_status; rewrite Hnone; simpl;
      eexists; split; reflexivity.
Qed.
End Moderation.

(** C2.  The moderation route never looks at the role of the acting
    identity: for any authenticated caller, admin or not, setting the
    status of an existing listing to [approved] or [rejected] succeeds
    and the stored status changes. *)
Theorem patch_admin_listing_ignores_role `{Postgres} (acting : identity) (id : Z)
    (l : listing) (new_status : string) (s : store) :
  listings s !! id = Some l →
  new_status = "approved" ∨ new_status = "rejected" →
  ∃ r s', patch_admin_listing acting id {[ "status" := JStr new_status ]} s = Sent r s'
          ∧ kind_of r = Some Success
          ∧ status <$> listings s' !! id = Some new_status.
Proof.
  intros Hl Hs. unfold patch_admin_listing, field.
  rewrite lookup_singleton_eq. simpl.
  assert (String.eqb new_status "approved" || String.eqb new_status "rejected" = true)
    as -> by (destruct Hs as [-> | ->]; reflexivity).
  unfold update_status. rewrite Hl. simpl.
  eexists _, _. split_and!; [reflexivity | reflexivity |].
  simpl. by rewrite lookup_insert_eq.
Qed.

Lemma patch_admin_listing_ignores_role_witness :
  ∃ r s', patch_admin_listing bob 2 {[ "status" := JStr "approved" ]} campus = Sent r s'
          ∧ kind_of r = Some Success
          ∧ status <$> listings s' !! 2 = Some "approved".
Proof.
  apply (patch_admin_listing_ignores_role bob 2
           (item 1 "pending" 200 "Desk" (JNum (num_Z 40))) "approved" campus).
  - vm_compute; reflexivity.
  - left; reflexivity.
Defined.

(** ** Partial update and deletion *)

Section PatchFacts.
Context `{Engine} `{Postgres}.


Lemma pick_defined body f : pick body f = (λ v, (f, v)) <$> defined (field body f).
Proof. unfold pick, defined. by destruct (field body f). Qed.

Lemma update_of_omap_notin body (fs : list string) k :
  k ∉ fs → update_of k (omap (pick body) fs) = None.
Proof.
  induction fs as [|f fs IH]; intros Hk; [done|].
  apply not_elem_of_cons in Hk as [Hne Hk].
  cbn [omap list_omap]. rewrite pick_defined.
  destruct (defined (field body f)); cbn; [|by apply IH].
  assert (String.eqb f k = false) as -> by (apply String.eqb_neq; congruence).
  by apply IH.
Qed.

Lemma update_of_omap body (fs : list string) k :
  k ∈ fs → update_of k (omap (pick body) fs) = defined (field body k).
Proof.
  induction fs as [|f fs IH]; intros Hk; [by apply elem_of_nil in Hk|].
  cbn [omap list_omap]. rewrite pick_defined.
  destruct (decide (f = k)) as [-> | Hne].
  - destruct (defined (field body k)) eqn:E; cbn.
    + by rewrite String.eqb_refl.
    + destruct (decide (k ∈ fs)) as [Hin | Hnin].
      * by rewrite IH.
      * by apply update_of_omap_notin.
  - apply elem_of_cons in Hk as [-> | Hk]; [done|].
    destruct (defined (field body f)); cbn; [|by apply IH].
    assert (String.eqb f k = false) as -> by (by apply String.eqb_neq).
    by apply IH.
Qed.

Lemma update_of_assign_ne k k' v updates :
  k ≠ k' → update_of k (assign k' v updates) = update_of k updates.
Proof.
  intros Hne. unfold assign.
  induction updates as [|[a x] updates IH]; [done|].
  cbn. destruct (String.eqb a k') eqn:E; cbn; rewrite IH; [|done].
  apply String.eqb_eq in E as ->.
  assert (String.eqb k' k = false) as -> by (apply String.eqb_neq; congruence).
  done.
Qed.

Lemma assign_keys k v updates : (assign k v updates).*1 = updates.*1.
Proof.
  unfold assign. induction updates as [|[a x] updates IH]; [done|].
  cbn. rewrite IH. by destruct (String.eqb a k).
Qed.

Lemma coerce_keys key bad m updates updates' :
  coerce key bad m updates = Normal (inr updates') → updates'.*1 = updates.*1.
Proof.
  unfold coerce. destruct (update_of key updates) as [raw|]; [|by intros [= <-]].
  intros (n & Hn & Hr)%bind_Normal.
  destruct (_ || _); [done|]. injection Hr as <-. apply assign_keys.
Qed.

Lemma bind_values_keys updates sets :
  bind_values updates = Normal (Some sets) → sets.*1 = updates.*1.
Proof.
  revert sets. induction updates as [|[key raw] updates IH]; intros sets.
  - by intros [= <-].
  - cbn [bind_values]. intros (value & Hv & Hr)%bind_Normal.
    destruct value as [value|]; [|done].
    apply bind_Normal in Hr as (bound & Hb & Hr).
    destruct bound as [bound|]; [|done]. injection Hr as <-.
    cbn. f_equal. by apply IH.
Qed.

Lemma collect_updates_keys body k :
  k ∈ (collect_updates body).*1 → k ∈ allowedFields ∧ field body k ≠ JUndefined.
Proof.
  unfold collect_updates. intros Hk.
  apply list_elem_of_fmap in Hk as ([k' v] & -> & Hin).
  apply list_elem_of_omap in Hin as (f & Hf & Hp).
  unfold pick in Hp.
  destruct (field body f) eqn:E; simplify_eq; cbn; (split; [done | by rewrite E]).
Qed.

Lemma foldl_insert_notin (sets : list (string * jsval)) (c : gmap string jsval) k :
  k ∉ sets.*1 → foldl (λ c '(k, v), <[k := v]> c) c sets !! k = c !! k.
Proof.
  revert c. induction sets as [|[a x] sets IH]; intros c Hk; [done|].
  cbn in *. apply not_elem_of_cons in Hk as [Hne Hk].
  rewrite IH by done. by rewrite lookup_insert_ne.
Qed.
Lemma validation_keys updates updates' :
  (u ← coerce "price" (λ n, num_le n (num_Z 0))
         "Price must be a positive number" updates;
   match u with
   | inl m => Normal (inl m)
   | inr updates =>
       coerce "stock_quantity" (λ n, num_lt n (num_Z 0))
         "Stock quantity cannot be negative" updates
   end) = Normal (inr updates') →
  updates'.*1 = updates.*1.
Proof.
  intros (u1 & H1 & H2)%bind_Normal. destruct u1 as [m|u1]; [done|].
  apply coerce_keys in H1, H2. congruence.
Qed.

Lemma patch_listing_inv (u : identity) id body s :
  let o := patch_listing u id body s in
  (final_store o = s ∧ kind o ≠ Some Success)
  ∨ (∃ l sets l', listings s !! id = Some l ∧ user_id l = userId u
       ∧ sets.*1 = (collect_updates body).*1
       ∧ update_listing sets id s = Some (l', final_store o)).
Proof.
  unfold patch_listing. cbv zeta.
  case_bool_decide; [by left|].
  destruct (_ ≫= _) as [[m|updates]|] eqn:Hv; [by left | | by left].
  apply validation_keys in Hv.
  destruct (listings s !! id) as [l|] eqn:Hl; [|by left].
  destruct (user_id l =? userId u) eqn:Ho; [|by left]. cbn [negb].
  destruct (bind_values updates) as [[sets|]|] eqn:Hb; [|by left..].
  apply bind_values_keys in Hb.
  destruct (update_listing sets id s) as [[l' s']|] eqn:Hu; [|by left].
  right. exists l, sets, l'. split_and!; [done | lia | congruence |].
  by destruct (cleanListing _).
Qed.
Lemma num_positive n :
  num_lt (num_Z 0) n = true → num_isNaN n = false ∧ num_le n (num_Z 0) = false.
Proof.
  destruct n as [|q| |]; cbn; try done.
  unfold Qltb. intros Hq%negb_true_iff. done.
Qed.

Lemma num_non_negative n :
  num_le (num_Z 0) n = true → num_isNaN n = false ∧ num_lt n (num_Z 0) = false.
Proof.
  destruct n as [|q| |]; cbn; try done.
  unfold Qltb. intros ->. done.
Qed.

Lemma collect_updates_nonempty body :
  carries_changes body → collect_updates body ≠ [].
Proof.
  intros (k & Hk & Hv) Hnil.
  pose proof (update_of_omap body allowedFields k Hk) as Hu.
  fold (collect_updates body) in Hu. rewrite Hnil in Hu. cbn in Hu.
  destruct (field body k); done.
Qed.

Lemma coerce_accepts key (bad : number → bool) m updates raw n :
  update_of key updates = Some raw → ToNumber raw = Normal n →
  num_isNaN n = false → bad n = false →
  coerce key bad m updates = Normal (inr (assign key (JNum n) updates)).
Proof.
  intros Hu Hn Hnan Hbad. unfold coerce. rewrite Hu, Hn. cbn.
  by rewrite Hnan, Hbad.
Qed.

Lemma coerce_absent key (bad : number → bool) m updates :
  update_of key updates = None → coerce key bad m updates = Normal (inr updates).
Proof. intros Hu. unfold coerce. by rewrite Hu. Qed.

Lemma defined_Some v : v ≠ JUndefined → defined v = Some v.
Proof. by destruct v. Qed.

Lemma validation_passes body :
  price_acceptable body → stock_acceptable body →
  ∃ updates',
    (u ← coerce "price" (λ n, num_le n (num_Z 0))
           "Price must be a positive number" (collect_updates body);
     match u with
     | inl m => Normal (inl m)
     | inr updates =>
         coerce "stock_quantity" (λ n, num_lt n (num_Z 0))
           "Stock quantity cannot be negative" updates
     end) = Normal (inr updates').
Proof.
  intros Hp Hs.
  assert (Hup : update_of "price" (collect_updates body)
                = defined (field body "price")).
  { apply update_of_omap. unfold allowedFields. set_solver. }
  assert (Hus : update_of "stock_quantity" (collect_updates body)
                = defined (field body "stock_quantity")).
  { apply update_of_omap. unfold allowedFields. set_solver. }
  assert (∃ u1, coerce "price" (λ n, num_le n (num_Z 0))
                  "Price must be a positive number" (collect_updates body)
                = Normal (inr u1)
                ∧ update_of "stock_quantity" u1
                  = defined (field body "stock_quantity")) as (u1 & -> & Hu1).
  { destruct Hp as [Hp | (n & Hn & Hpos)].
    - eexists. split; [apply coerce_absent; by rewrite Hup, Hp | done].
    - apply num_positive in Hpos as [Hnan Hle].
      eexists. split.
      + eapply coerce_accepts; [| exact Hn | done | done].
        rewrite Hup. apply defined_Some. intros Hu. rewrite Hu in Hn.
        injection Hn as <-. done.
      + by rewrite update_of_assign_ne. }
  cbn. destruct Hs as [Hs | (n & Hn & Hpos)].
  - eexists. apply coerce_absent. by rewrite Hu1, Hs.
  - apply num_non_negative in Hpos as [Hnan Hlt].
    eexists. eapply coerce_accepts; [| exact Hn | done | done].
    rewrite Hu1. apply defined_Some. intros Hu. rewrite Hu in Hn.
    injection Hn as <-. done.
Qed.

Lemma patch_listing_forbidden (u : identity) id l body s :
  listings s !! id = Some l → userId u ≠ user_id l →
  carries_changes body → price_acceptable body → stock_acceptable body →
  patch_listing u id body s
  = Sent {| code := 403;
            json := message "You are not authorized to edit this listing" |} s.
Proof.
  intros Hl Ho Hc Hp Hs. unfold patch_listing. cbv zeta.
  apply collect_updates_nonempty in Hc.
  case_bool_decide as Hlen; [by destruct (collect_updates body)|].
  destruct (validation_passes body Hp Hs) as [updates' ->].
  rewrite Hl. assert ((user_id l =? userId u) = false) as -> by lia. done.
Qed.
Lemma collect_updates_empty body :
  (∀ k, k ∈ allowedFields → field body k = JUndefined) →
  collect_updates body = [].
Proof.
  intros Hnone. unfold collect_updates.
  induction allowedFields as [|f fs IH]; [done|].
  cbn [omap list_omap]. unfold pick at 1.
  rewrite Hnone by apply list_elem_of_here.
  apply IH. intros k Hk. apply Hnone. by apply list_elem_of_further.
Qed.

Lemma num_not_positive n :
  num_lt (num_Z 0) n = false → num_isNaN n || num_le n (num_Z 0) = true.
Proof.
  destruct n as [|q| |]; cbn; try done.
  unfold Qltb. intros Hq%negb_false_iff. done.
Qed.

Lemma num_negative n :
  num_le (num_Z 0) n = false → num_isNaN n || num_lt n (num_Z 0) = true.
Proof.
  destruct n as [|q| |]; cbn; try done.
  unfold Qltb. by intros ->.
Qed.

Lemma coerce_refuses key (bad : number → bool) m updates raw n :
  update_of key updates = Some raw → ToNumber raw = Normal n →
  num_isNaN n || bad n = true →
  coerce key bad m updates = Normal (inl m).
Proof.
  intros Hu Hn Hbad. unfold coerce. rewrite Hu, Hn. cbn. by rewrite Hbad.
Qed.

(** A price that passes its check leaves the stock quantity to be
    checked as it was sent. *)
Lemma price_passes body :
  price_acceptable body →
  ∃ u1, coerce "price" (λ n, num_le n (num_Z 0))
          "Price must be a positive number" (collect_updates body)
        = Normal (inr u1)
        ∧ update_of "stock_quantity" u1 = defined (field body "stock_quantity").
Proof.
  intros Hp.
  assert (Hup : update_of "price" (collect_updates body)
                = defined (field body "price")).
  { apply update_of_omap. unfold allowedFields. set_solver. }
  assert (Hus : update_of "stock_quantity" (collect_updates body)
                = defined (field body "stock_quantity")).
  { apply update_of_omap. unfold allowedFields. set_solver. }
  destruct Hp as [Hp | (n & Hn & Hpos)].
  - eexists. split; [apply coerce_absent; by rewrite Hup, Hp | done].
  - apply num_positive in Hpos as [Hnan Hle].
    eexists. split.
    + eapply coerce_accepts; [| exact Hn | done | done].
      rewrite Hup. apply defined_Some. intros Hu. rewrite Hu in Hn.
      injection Hn as <-. done.
    + by rewrite update_of_assign_ne.
Qed.

(** A body that fails one of the checks made ahead of the ownership
    test is refused with 400, whoever sends it and whatever the store
    holds. *)
Lemma patch_listing_refused (u : identity) id body s :
  ¬ carries_changes body ∨ price_refused body
  ∨ (price_acceptable body ∧ stock_refused body) →
  kind (patch_listing u id body s) = Some ValidationError.
Proof.
  intros [Hnone | Hbad]; unfold patch_listing; cbv zeta.
  - rewrite collect_updates_empty; [done|].
    intros k Hk. destruct (field body k) eqn:E; [done | exfalso; apply Hnone..];
      exists k; (split; [done | by rewrite E]).
  - assert (Hc : carries_changes body).
    { destruct Hbad as [[Hne _] | [_ [Hne _]]].
      - exists "price". split; [unfold allowedFields; set_solver | done].
      - exists "stock_quantity". split; [unfold allowedFields; set_solver | done]. }
    apply collect_updates_nonempty in Hc.
    case_bool_decide as Hlen; [by destruct (collect_updates body)|].
    destruct Hbad as [(Hne & n & Hn & Hneg) | (Hp & Hne & n & Hn & Hneg)].
    + assert (Hup : update_of "price" (collect_updates body)
                    = defined (field body "price")).
      { apply update_of_omap. unfold allowedFields. set_solver. }
      rewrite (coerce_refuses "price" _ _ _ (field body "price") n); [done | | done |].
      * rewrite Hup. by apply defined_Some.
      * by apply num_not_positive.
    + destruct (price_passes body Hp) as (u1 & -> & Hu1). cbn.
      rewrite (coerce_refuses "stock_quantity" _ _ _ (field body "stock_quantity") n);
        [done | | done |].
      * rewrite Hu1. by apply defined_Some.
      * by apply num_negative.
Qed.
End PatchFacts.

Section Deletion.
Context `{Postgres}.

Lemma strict_eq_str_true v text : strict_eq_str v text = true ↔ v = JStr text.
Proof.
  destruct v; cbn; try (split; [discriminate | congruence]).
  rewrite String.eqb_eq. split; congruence.
Qed.

Lemma delete_listing_by_admin (acting : identity) id l s :
  listings s !! id = Some l → role acting = JStr "admin" →
  delete_listing acting id s
  = Sent {| code := 200; json := message "Listing deleted successfully" |}
         (delete_listing_row id s).
Proof.
  intros Hl Hr. unfold delete_listing. rewrite Hl, Hr. cbn.
  by rewrite andb_false_r.
Qed.

Lemma delete_listing_by_owner (acting : identity) id l s :
  listings s !! id = Some l → userId acting = user_id l →
  delete_listing acting id s
  = Sent {| code := 200; json := message "Listing deleted successfully" |}
         (delete_listing_row id s).
Proof.
  intros Hl Ho. unfold delete_listing. rewrite Hl, Ho, Z.eqb_refl. done.
Qed.

Lemma delete_listing_forbidden (acting : identity) id l s :
  listings s !! id = Some l → userId acting ≠ user_id l →
  role acting ≠ JStr "admin" →
  delete_listing acting id s
  = Sent {| code := 403; json := message "Permission denied" |} s.
Proof.
  intros Hl Ho Hr. unfold delete_listing. rewrite Hl.
  assert ((userId acting =? user_id l) = false) as -> by lia.
  destruct (strict_eq_str (role acting) "admin") eqn:E; [|done].
  by apply strict_eq_str_true in E.
Qed.
End Deletion.

(** C3 (as amended).  For an existing listing and an acting user who is
    not its owner, admin or not: a patch never succeeds and never
    changes the store; it is answered with a permission error whenever
    the body passes the checks that the handler makes before it loads
    the owner (some whitelisted field present; the price, when given,
    converts to a positive number; the stock quantity, when given,
    converts to a non-negative number), and with a validation error
    when it fails one of them: no whitelisted field is present, or the
    price given converts to NaN or to a number that is not positive,
    or, the price passing, the stock quantity given converts to NaN or
    to a negative number.  Delete by an admin who is not the owner
    succeeds and removes the listing; delete by a caller who is neither
    owner nor admin is a permission error and changes nothing. *)
Theorem patch_owner_only_delete_owner_or_admin `{Engine} `{Postgres}
    (acting : identity) (id : Z) (l : listing) (body : gmap string jsval)
    (s : store) :
  listings s !! id = Some l → userId acting ≠ user_id l →
  (final_store (patch_listing acting id body s) = s
   ∧ kind (patch_listing acting id body s) ≠ Some Success)
  ∧ (carries_changes body → price_acceptable body → stock_acceptable body →
     kind (patch_listing acting id body s) = Some PermissionError)
  ∧ (¬ carries_changes body ∨ price_refused body
     ∨ (price_acceptable body ∧ stock_refused body) →
     kind (patch_listing acting id body s) = Some ValidationError)
  ∧ (role acting = JStr "admin" →
     kind (delete_listing acting id s) = Some Success
     ∧ listings (final_store (delete_listing acting id s)) !! id = None)
  ∧ (role acting ≠ JStr "admin" →
     kind (delete_listing acting id s) = Some PermissionError
     ∧ final_store (delete_listing acting id s) = s).
Proof.
  intros Hl Ho. split; [|split_and!].
  - destruct (patch_listing_inv acting id body s)
      as [? | (l0 & sets & l' & Hl0 & Hown & _)]; [done|].
    rewrite Hl in Hl0. injection Hl0 as <-. congruence.
  - intros Hc Hp Hs. by erewrite patch_listing_forbidden.
  - apply patch_listing_refused.
  - intros Hr. erewrite delete_listing_by_admin by done. cbn.
    split; [done | apply lookup_delete_eq].
  - intros Hr. by erewrite delete_listing_forbidden.
Qed.

Lemma patch_owner_only_delete_owner_or_admin_witness :
  kind (patch_listing root 1 {[ "title" := JStr "Lamp (sold)" ]} campus)
  = Some PermissionError
  ∧ final_store (patch_listing root 1 {[ "title" := JStr "Lamp (sold)" ]} campus)
    = campus
  ∧ kind (patch_listing root 1 {[ "price" := JStr "abc" ]} campus)
    = Some ValidationError
  ∧ kind (delete_listing root 1 campus) = Some Success
  ∧ kind (delete_listing bob 1 campus) = Some PermissionError.
Proof.
  assert (Hl : listings campus !! 1 = Some (item 1 "approved" 100 "Lamp" (JStr "12.50")))
    by (vm_compute; reflexivity).
  assert (Hroot : userId root ≠ 1) by (cbn; lia).
  assert (Hbob : userId bob ≠ 1) by (cbn; lia).
  pose proof (@patch_owner_only_delete_owner_or_admin reference_engine
                reference_postgres root 1 _
                {[ "title" := JStr "Lamp (sold)" ]} campus Hl Hroot)
    as ((Hsame & _) & Hforbidden & _ & Hadmin & _).
  pose proof (@patch_owner_only_delete_owner_or_admin reference_engine
                reference_postgres root 1 _
                {[ "price" := JStr "abc" ]} campus Hl Hroot)
    as (_ & _ & Hrefused & _).
  pose proof (@patch_owner_only_delete_owner_or_admin reference_engine
                reference_postgres bob 1 _ ∅ campus Hl Hbob)
    as (_ & _ & _ & _ & Hother).
  split_and!.
  - apply Hforbidden.
    + exists "title". split; [apply list_elem_of_here | done].
    + left; reflexivity.
    + left; reflexivity.
  - exact Hsame.
  - apply Hrefused. right. left. split; [discriminate|].
    exists NaN. split; reflexivity.
  - apply Hadmin. reflexivity.
  - apply Hother. discriminate.
Defined.

(** C3 as stated fails: an admin who is not the owner patches listing 1
    with a body that has no whitelisted field, or with a price of 0; the
    answer is a validation error, not a permission error, because the
    body is checked before the owner is loaded. *)
Lemma patch_by_non_owner_validation_first :
  user_id <$> listings campus !! 1 = Some 1
  ∧ userId root ≠ 1
  ∧ kind (patch_listing root 1 ∅ campus) = Some ValidationError
  ∧ kind (patch_listing root 1 {[ "price" := JNum (num_Z 0) ]} campus)
    = Some ValidationError
  ∧ kind (patch_listing root 1 ∅ campus) ≠ Some PermissionError.
Proof. split_and!; vm_compute; congruence. Qed.

Section Whitelist.
Context `{Engine} `{Postgres}.

Lemma collect_updates_ext body body' :
  (∀ k, k ∈ allowedFields → body' !! k = body !! k) →
  collect_updates body' = collect_updates body.
Proof.
  intros Hsame. unfold collect_updates.
  induction allowedFields as [|f fs IH]; [done|].
  cbn [omap list_omap].
  assert (pick body' f = pick body f) as ->.
  { unfold pick, field. rewrite Hsame; [done | apply list_elem_of_here]. }
  rewrite IH; [done|]. intros k Hk. apply Hsame. by apply list_elem_of_further.
Qed.

Lemma update_listing_effect sets id s l' s' :
  update_listing sets id s = Some (l', s') →
  ∃ l, listings s !! id = Some l
       ∧ l' = with_content (foldl (λ c '(k, v), <[k := v]> c) (content l) sets) l
       ∧ s' = set_listings (<[id := l']>) s.
Proof.
  unfold update_listing. destruct (listings s !! id) as [l|]; [|done].
  cbn. intros [= <- <-]. eauto.
Qed.
End Whitelist.

(** C8.  The patch route writes only the columns named in its
    whitelist [allowedFields] (title, description, price, condition,
    whatsapp_phone for the contact handle, image_url and image_urls for
    the images, stock_quantity, category, variants), and of those only
    the ones the body carries: every other column of the listing, every
    other listing, the ratings and the users are left as they were.  A
    body is read through its whitelisted keys only, so unknown keys are
    ignored; and when no whitelisted key is present the answer is the
    400 "nothing to update" response and the store is unchanged. *)
Theorem patch_listing_whitelist `{Engine} `{Postgres} (acting : identity) (id : Z)
    (body : gmap string jsval) (s : store) :
  let s' := final_store (patch_listing acting id body s) in
  (∀ id', is_Some (listings s' !! id') ↔ is_Some (listings s !! id'))
  ∧ (∀ id' l l', listings s !! id' = Some l → listings s' !! id' = Some l' →
       same_protected_columns l l'
       ∧ (∀ k, k ∉ allowedFields ∨ field body k = JUndefined →
            content l' !! k = content l !! k)
       ∧ (id' ≠ id → l' = l))
  ∧ ratings s' = ratings s
  ∧ users s' = users s
  ∧ (∀ body', (∀ k, k ∈ allowedFields → body' !! k = body !! k) →
       patch_listing acting id body' s = patch_listing acting id body s)
  ∧ ((∀ k, k ∈ allowedFields → field body k = JUndefined) →
     patch_listing acting id body s
     = Sent {| code := 400; json := message "No valid fields provided for update" |} s).
Proof.
  cbv zeta.
  assert (Hext : ∀ body', (∀ k, k ∈ allowedFields → body' !! k = body !! k) →
            patch_listing acting id body' s = patch_listing acting id body s).
  { intros body' Hsame. unfold patch_listing.
    by rewrite (collect_updates_ext body body' Hsame). }
  assert (Hempty : (∀ k, k ∈ allowedFields → field body k = JUndefined) →
            patch_listing acting id body s
            = Sent {| code := 400;
                      json := message "No valid fields provided for update" |} s).
  { intros Hnone. unfold patch_listing.
    by rewrite (collect_updates_empty body Hnone). }
  destruct (patch_listing_inv acting id body s)
    as [[-> _] | (l0 & sets & l1 & Hl0 & _ & Hkeys & Hu)].
  - split_and!; try done.
    intros id' l l' Hl Hl'. rewrite Hl in Hl'. injection Hl' as <-.
    by split_and!.
  - apply update_listing_effect in Hu as (l & Hl & -> & ->).
    rewrite Hl0 in Hl. injection Hl as <-. cbn.
    split_and!; try done.
    + intros id'. destruct (decide (id' = id)) as [-> | Hne].
      * rewrite lookup_insert_eq, Hl0. split; eauto.
      * by rewrite lookup_insert_ne.
    + intros id' l l' Hl Hl'. destruct (decide (id' = id)) as [-> | Hne].
      * rewrite lookup_insert_eq in Hl'. injection Hl' as <-.
        rewrite Hl0 in Hl. injection Hl as <-.
        split_and!; [by split_and! | | done].
        intros k Hk. cbn. apply foldl_insert_notin.
        rewrite Hkeys. intros [Hin Hdef]%collect_updates_keys.
        by destruct Hk.
      * rewrite lookup_insert_ne in Hl' by done.
        rewrite Hl in Hl'. injection Hl' as <-.
        by split_and!.
Qed.

Lemma patch_listing_whitelist_witness :
  patch_listing alice 1 {[ "unknownField" := JStr "x" ]} campus
  = Sent {| code := 400; json := message "No valid fields provided for update" |} campus
  ∧ patch_listing alice 2 desk_patch campus
    = patch_listing alice 2 {[ "title" := JStr "Desk, oak" ]} campus
  ∧ (∀ l', listings (final_store (patch_listing alice 2 desk_patch campus)) !! 2
           = Some l' →
       status l' = "pending" ∧ content l' !! "category" = Some (JStr "Books")).
Proof.
  pose proof (@patch_listing_whitelist reference_engine reference_postgres
                alice 1 {[ "unknownField" := JStr "x" ]} campus)
    as (_ & _ & _ & _ & _ & Hnothing).
  pose proof (@patch_listing_whitelist reference_engine reference_postgres
                alice 2 {[ "title" := JStr "Desk, oak" ]} campus)
    as (_ & _ & _ & _ & Hignored & _).
  pose proof (@patch_listing_whitelist reference_engine reference_postgres
                alice 2 desk_patch campus)
    as (_ & Honly & _).
  cbv zeta in *. split_and!.
  - apply Hnothing. intros k Hk. unfold field.
    rewrite lookup_singleton_ne; [done|]. intros <-.
    repeat (apply elem_of_cons in Hk as [Hk | Hk]; [discriminate|]).
    by apply elem_of_nil in Hk.
  - apply Hignored. intros k Hk. apply lookup_insert_ne. intros <-.
    repeat (apply elem_of_cons in Hk as [Hk | Hk]; [discriminate|]).
    by apply elem_of_nil in Hk.
  - intros l' Hl'.
    assert (Hl : listings campus !! 2
                 = Some (item 1 "pending" 200 "Desk" (JNum (num_Z 40))))
      by (vm_compute; reflexivity).
    destruct (Honly 2 _ l' Hl Hl') as ((_ & Hstatus & _) & Hcontent & _).
    split; [exact Hstatus|].
    rewrite (Hcontent "category"); [vm_compute; reflexivity|].
    right. vm_compute. reflexivity.
Defined.

(** The owner's patch of the pending desk succeeds and stores the new
    title; the [status] key it also carries is not applied. *)
Example patch_listing_on_campus :
  kind (patch_listing alice 2 desk_patch campus) = Some Success
  ∧ (λ l, (status l, content l !! "title"))
      <$> listings (final_store (patch_listing alice 2 desk_patch campus)) !! 2
    = Some ("pending", Some (JStr "Desk, oak")).
Proof. split; vm_compute; reflexivity. Qed.

(** ** Variant sanitizer *)

Section Variants.
Context `{Engine} `{Postgres}.

Lemma call_trim_or v s :
  option_text v = Some s → call_trim (js_or v (JStr "")) = Normal (JStr (trim s)).
Proof.
  unfold option_text, js_or.
  destruct v as [| |[]|[|q| |]|text| |]; cbn; try done; try (by intros [= <-]).
  - by destruct (Qeqb0 q); cbn; [intros [= <-]|].
  - intros [= <-]. by destruct text.
Qed.

Lemma truthy_trimmed v s :
  option_text v = Some s → truthy (JStr (trim s)) = non_empty_after_trim v.
Proof. intros Hs. unfold non_empty_after_trim. by rewrite Hs. Qed.

Lemma num_le_not_NaN n : num_le (num_Z 0) n = true → num_isNaN n = false.
Proof. by destruct n. Qed.

Lemma stock_check stock n (hasOption : jsval) :
  ToNumber stock = Normal n →
  (ToNumber stock
   ≫= λ n0 : number,
        (if num_le (num_Z 0) n0
         then ToNumber stock ≫= λ n' : number, Normal (negb (num_isNaN n'))
         else Normal false)
        ≫= λ stockValid : bool, Normal (truthy hasOption && stockValid))
  = Normal (truthy hasOption && num_le (num_Z 0) n).
Proof.
  intros Hn. rewrite Hn. cbn [mbind completion_bind].
  destruct (num_le (num_Z 0) n) eqn:E; [|done].
  cbn [mbind completion_bind]. by rewrite (num_le_not_NaN n E).
Qed.

Lemma keep_variant_well_shaped v :
  well_shaped v → keep_variant v = Normal (conforming v).
Proof.
  intros (o & -> & [c Hc] & [z Hz] & n & Hn).
  unfold keep_variant, conforming. cbn [GetV mbind completion_bind].
  fold (field o "color"). fold (field o "size"). fold (field o "stock").
  rewrite (call_trim_or _ _ Hc). cbn [mbind completion_bind].
  rewrite (truthy_trimmed _ _ Hc).
  destruct (non_empty_after_trim (field o "color")) eqn:Ec.
  - cbn [mbind completion_bind]. rewrite (stock_check _ n _ Hn), Hn.
    by rewrite (truthy_trimmed _ _ Hc), Ec.
  - rewrite (call_trim_or _ _ Hz). cbn [mbind completion_bind].
    rewrite (stock_check _ n _ Hn), Hn.
    by rewrite (truthy_trimmed _ _ Hz).
Qed.

Lemma filter_variants_well_shaped (variants : list jsval) :
  Forall well_shaped variants →
  filter_variants variants = Normal (filter (λ v, conforming v = true) variants).
Proof.
  induction 1 as [|v variants Hv _ IH]; [done|].
  cbn [filter_variants]. rewrite (keep_variant_well_shaped v Hv), IH.
  cbn [mbind completion_bind]. rewrite filter_cons.
  destruct (conforming v); by case_decide.
Qed.

Lemma keep_variant_null : keep_variant JNull = Throw TypeError.
Proof. reflexivity. Qed.

Lemma keep_variant_numeric_color : keep_variant numeric_color = Throw TypeError.
Proof. reflexivity. Qed.
End Variants.

(** C9.  The variant filter does not drop every non-conforming entry
    silently: on an entry that is [null], or whose [color] is a number,
    the callback throws a TypeError ([v.color] on null, [.trim] on a
    number).  On create the filter runs outside the [try] block, so the
    exception leaves the handler and no listing is created; on patch it
    is caught and the owner gets the 500 "Failed to update listing"
    response, which carries the message of the exception. *)
Theorem variant_filter_throws `{Engine} `{Postgres} (now : Z) (acting : identity)
    (id : Z) (l : listing) (s : store) (bad : jsval) :
  bad = JNull ∨ bad = numeric_color →
  listings s !! id = Some l → user_id l = userId acting →
  filter_variants [bad] = Throw TypeError
  ∧ post_listing now acting
      (list_to_map [("title", JStr "Lamp"); ("price", JNum (num_Z 10));
                    ("variants", JArr [bad])]) s
    = Uncaught TypeError s
  ∧ patch_listing acting id {[ "variants" := JArr [bad] ]} s
    = Sent {| code := 500;
              json := obj [("message", JStr "Failed to update listing");
                           ("error", JStr (Error_message TypeError))] |} s.
Proof.
  intros Hbad Hl Ho.
  split_and!.
  - destruct Hbad as [-> | ->]; reflexivity.
  - destruct Hbad as [-> | ->]; reflexivity.
  - assert (Hupdates : collect_updates {[ "variants" := JArr [bad] ]}
                       = [("variants", JArr [bad])]) by (vm_compute; reflexivity).
    unfold patch_listing. rewrite Hupdates. cbn. rewrite Hl, Ho, Z.eqb_refl. cbn.
    by destruct Hbad as [-> | ->].
Qed.

Lemma variant_filter_throws_witness :
  post_listing 500 alice
    (list_to_map [("title", JStr "Lamp"); ("price", JNum (num_Z 10));
                  ("variants", JArr [numeric_color])]) campus
  = Uncaught TypeError campus
  ∧ patch_listing alice 1 {[ "variants" := JArr [JNull] ]} campus
    = Sent {| code := 500;
              json := obj [("message", JStr "Failed to update listing");
                           ("error",
                            JStr "Cannot read properties of null (reading 'color')")] |}
           campus.
Proof.
  assert (Hl : listings campus !! 1 = Some (item 1 "approved" 100 "Lamp" (JStr "12.50")))
    by (vm_compute; reflexivity).
  split.
  - apply (@variant_filter_throws reference_engine reference_postgres 500 alice 1 _
             campus numeric_color (or_intror eq_refl) Hl eq_refl).
  - apply (@variant_filter_throws reference_engine reference_postgres 500 alice 1 _
             campus JNull (or_introl eq_refl) Hl eq_refl).
Defined.

(** ** Rating aggregates *)

Lemma sum_ratings_perm rs rs' : rs ≡ₚ rs' → sum_ratings rs = sum_ratings rs'.
Proof.
  unfold sum_ratings.
  induction 1 as [|r rs rs' _ IH|r r' rs|rs rs' rs'' _ IH1 _ IH2]; cbn; lia.
Qed.

Lemma AVG_perm rs rs' : rs ≡ₚ rs' → AVG rs = AVG rs'.
Proof.
  intros Hp. unfold AVG.
  rewrite (sum_ratings_perm _ _ Hp), (Permutation_length Hp).
  destruct rs as [|r rs], rs' as [|r' rs']; try done.
  - by apply Permutation_nil_cons in Hp.
  - symmetry in Hp. by apply Permutation_nil_cons in Hp.
Qed.

Lemma COUNT_perm rs rs' : rs ≡ₚ rs' → COUNT rs = COUNT rs'.
Proof. intros Hp. unfold COUNT. by rewrite (Permutation_length Hp). Qed.

Lemma stored_average_perm rs rs' : rs ≡ₚ rs' → stored_average rs = stored_average rs'.
Proof. intros Hp. unfold stored_average. by rewrite (AVG_perm _ _ Hp). Qed.

Lemma rows_of_insert m k r listingId :
  m !! k = None →
  rows_of (<[k := r]> m) listingId
  ≡ₚ (if decide (r_listing_id r = listingId) then [r] else []) ++ rows_of m listingId.
Proof.
  intros Hk. unfold rows_of. rewrite (map_to_list_insert m k r Hk).
  rewrite fmap_cons, filter_cons. cbn [snd]. by case_decide.
Qed.

Lemma rows_of_delete m k r listingId :
  m !! k = Some r →
  (if decide (r_listing_id r = listingId) then [r] else [])
    ++ rows_of (delete k m) listingId
  ≡ₚ rows_of m listingId.
Proof.
  intros Hk. unfold rows_of. rewrite <- (map_to_list_delete m k r Hk).
  rewrite fmap_cons, filter_cons. cbn [snd]. by case_decide.
Qed.

Lemma elem_of_rows_of m r listingId :
  r ∈ rows_of m listingId ↔ r_listing_id r = listingId ∧ ∃ k, m !! k = Some r.
Proof.
  unfold rows_of. rewrite list_elem_of_filter, list_elem_of_fmap.
  split.
  - intros (Hl & [k r'] & -> & Hin). split; [done|].
    exists k. by apply elem_of_map_to_list.
  - intros (Hl & k & Hk). split; [done|].
    exists (k, r). split; [done | by apply elem_of_map_to_list].
Qed.

Section Ratings.
Context `{Engine} `{Postgres}.

Lemma numeric_3_2_round q r : numeric_3_2 q = Some r → r = round2 q.
Proof. unfold numeric_3_2. destruct (Qle_bool _ _); congruence. Qed.

Lemma post_rating_success now (acting : identity) listingId body s :
  kind (post_rating now acting listingId body s) = Some Success →
  ∃ l r,
    listings s !! listingId = Some l
    ∧ ratings s !! ratings_id_seq s = None
    ∧ r_listing_id r = listingId ∧ r_user_id r = userId acting
    ∧ final_store (post_rating now acting listingId body s)
      = {| listings :=
             <[listingId :=
                 with_rating_aggregates (rating_count l + 1)
                   (stored_average
                      (rows_of (<[ratings_id_seq s := r]> (ratings s)) listingId)) l]>
               (listings s);
           ratings := <[ratings_id_seq s := r]> (ratings s);
           users := users s;
           ratings_id_seq := ratings_id_seq s + 1;
           listings_id_seq := listings_id_seq s |}.
Proof.
  unfold post_rating.
  destruct (rating_out_of_range _) as [[]|]; [done | | done].
  destruct (listings s !! listingId) as [l|] eqn:Hl; [|done].
  destruct (0 <? _); [done|].
  unfold insert_rating.
  destruct (ratings s !! ratings_id_seq s) eqn:Hk; [done|].
  destruct (pg_integer_in _) as [value|]; [|done].
  unfold update_aggregates_after_insert. cbn [listings]. rewrite Hl.
  unfold ratings_of. cbn [ratings].
  set (r := {| r_listing_id := listingId; r_user_id := userId acting;
               r_rating := value;
               r_comment := js_or (field body "comment") JNull;
               r_created_at := now |}).
  destruct (AVG _) as [m|] eqn:Havg; [|done].
  destruct (numeric_3_2 m) as [avg|] eqn:Hcast; [|done].
  intros _. exists l, r. split_and!; try done.
  cbn. unfold stored_average. rewrite Havg.
  by rewrite (numeric_3_2_round _ _ Hcast).
Qed.
Lemma delete_rating_success (acting : identity) ratingId s :
  kind (delete_rating acting ratingId s) = Some Success →
  ∃ r l,
    ratings s !! ratingId = Some r
    ∧ listings s !! r_listing_id r = Some l
    ∧ final_store (delete_rating acting ratingId s)
      = {| listings :=
             <[r_listing_id r :=
                 with_rating_aggregates
                   (COUNT (rows_of (delete ratingId (ratings s)) (r_listing_id r)))
                   (stored_average
                      (rows_of (delete ratingId (ratings s)) (r_listing_id r))) l]>
               (listings s);
           ratings := delete ratingId (ratings s);
           users := users s;
           ratings_id_seq := ratings_id_seq s;
           listings_id_seq := listings_id_seq s |}.
Proof.
  unfold delete_rating.
  destruct (ratings s !! ratingId) as [r|] eqn:Hr; [|done].
  cbn [mbind option_bind].
  destruct (listings s !! r_listing_id r) as [l|] eqn:Hl; [|done].
  cbn [mbind option_bind].
  destruct (_ && _); [done|].
  cbv zeta. unfold recompute_aggregates, ratings_of.
  cbn [listings ratings set_ratings]. rewrite Hl.
  destruct (AVG _) as [m|] eqn:Havg.
  - destruct (numeric_3_2 m) as [avg|] eqn:Hcast; [|done].
    cbn [mbind option_bind]. intros _. exists r, l. split_and!; try done.
    cbn. unfold stored_average. rewrite Havg.
    by rewrite (numeric_3_2_round _ _ Hcast).
  - cbn [mbind option_bind]. intros _. exists r, l. split_and!; try done.
    cbn. unfold stored_average. by rewrite Havg.
Qed.

Lemma rows_of_insert_other m k r listingId :
  m !! k = None → r_listing_id r ≠ listingId →
  rows_of (<[k := r]> m) listingId ≡ₚ rows_of m listingId.
Proof.
  intros Hk Hne. rewrite (rows_of_insert m k r listingId Hk).
  by rewrite decide_False.
Qed.

Lemma rows_of_delete_other m k r listingId :
  m !! k = Some r → r_listing_id r ≠ listingId →
  rows_of (delete k m) listingId ≡ₚ rows_of m listingId.
Proof.
  intros Hk Hne. rewrite <- (rows_of_delete m k r listingId Hk).
  by rewrite decide_False.
Qed.

Lemma run_op_consistent op s listingId :
  kind (run_op op s) = Some Success →
  aggregates_consistent s listingId →
  aggregates_consistent (final_store (run_op op s)) listingId.
Proof.
  intros Hok Hinv. unfold aggregates_consistent in *.
  destruct op as [now acting lid body | acting ratingId]; cbn [run_op] in *.
  - apply post_rating_success in Hok as (l & r & Hl & Hk & Hrl & Hru & ->).
    unfold ratings_of. cbn [listings ratings].
    destruct (decide (listingId = lid)) as [-> | Hne].
    + rewrite lookup_insert_eq. cbn. split; [|done].
      rewrite Hl in Hinv. destruct Hinv as [-> _].
      rewrite (COUNT_perm _ _ (rows_of_insert _ _ r lid Hk)).
      rewrite decide_True by done. unfold ratings_of, COUNT. cbn. lia.
    + rewrite lookup_insert_ne by done.
      destruct (listings s !! listingId) as [l0|]; [|done].
      assert (Hp : rows_of (<[ratings_id_seq s := r]> (ratings s)) listingId
                   ≡ₚ rows_of (ratings s) listingId)
        by (apply rows_of_insert_other; congruence).
      by rewrite (COUNT_perm _ _ Hp), (stored_average_perm _ _ Hp).
  - apply delete_rating_success in Hok as (r & l & Hr & Hl & ->).
    unfold ratings_of. cbn [listings ratings].
    destruct (decide (listingId = r_listing_id r)) as [-> | Hne].
    + rewrite lookup_insert_eq. by cbn.
    + rewrite lookup_insert_ne by done.
      destruct (listings s !! listingId) as [l0|]; [|done].
      assert (Hp : rows_of (delete ratingId (ratings s)) listingId
                   ≡ₚ rows_of (ratings s) listingId)
        by (eapply rows_of_delete_other; [done | congruence]).
      by rewrite (COUNT_perm _ _ Hp), (stored_average_perm _ _ Hp).
Qed.

Lemma run_successful_consistent ops s s' listingId :
  run_successful ops s = Some s' →
  aggregates_consistent s listingId →
  aggregates_consistent s' listingId.
Proof.
  revert s. induction ops as [|op ops IH]; intros s; cbn [run_successful].
  - by intros [= <-].
  - destruct (kind (run_op op s)) as [[]|] eqn:Hk; try done.
    intros Hrun Hinv. apply (IH _ Hrun). by apply run_op_consistent.
Qed.
Lemma rating_in_range n :
  in_range n → rating_out_of_range (JNum n) = Normal false.
Proof.
  intros (q & -> & Hlo & Hhi). unfold rating_out_of_range. cbn.
  assert (Qeqb0 q = false) as ->.
  { unfold Qeqb0. destruct (Qeq_bool q 0) eqn:E; [|done].
    apply Qeq_bool_iff in E. rewrite E in Hlo. by apply Qle_bool_iff in Hlo. }
  cbn. unfold Qltb.
  apply Qle_bool_iff in Hlo, Hhi.
  change (inject_Z 1) with 1%Q. change (inject_Z 5) with 5%Q.
  by rewrite Hlo, Hhi.
Qed.

Lemma rating_not_in_range n :
  ¬ in_range n → rating_out_of_range (JNum n) = Normal true.
Proof.
  intros Hout. unfold rating_out_of_range. destruct n as [|q| |]; cbn; try done.
  destruct (Qeqb0 q); cbn; [done|]. unfold Qltb.
  change (inject_Z 1) with 1%Q. change (inject_Z 5) with 5%Q.
  destruct (Qle_bool 1 q) eqn:Hlo; cbn; [|done].
  destruct (Qle_bool q 5) eqn:Hhi; cbn; [|done].
  exfalso. apply Hout. exists q. split; [done|].
  split; by apply Qle_bool_iff.
Qed.

Lemma post_rating_range now (acting : identity) listingId body s :
  field body "rating" = JUndefined
  ∨ (∃ n, field body "rating" = JNum n ∧ ¬ in_range n) →
  post_rating now acting listingId body s
  = Sent {| code := 400; json := message "Rating must be between 1 and 5" |} s.
Proof.
  unfold post_rating. intros [-> | (n & -> & Hn)]; [done|].
  by rewrite (rating_not_in_range n Hn).
Qed.

Lemma post_rating_not_found now (acting : identity) listingId body s n :
  field body "rating" = JNum n → in_range n →
  listings s !! listingId = None →
  post_rating now acting listingId body s
  = Sent {| code := 404; json := message "Listing not found" |} s.
Proof.
  intros Hr Hn Hl. unfold post_rating.
  by rewrite Hr, (rating_in_range n Hn), Hl.
Qed.

Lemma post_rating_duplicate now (acting : identity) listingId body s n r :
  field body "rating" = JNum n → in_range n →
  is_Some (listings s !! listingId) →
  r ∈ ratings_of s listingId → r_user_id r = userId acting →
  post_rating now acting listingId body s
  = Sent {| code := 400; json := message "You have already rated this listing" |} s.
Proof.
  intros Hr Hn [l Hl] Hin Hu. unfold post_rating.
  rewrite Hr, (rating_in_range n Hn), Hl.
  assert (r ∈ filter (λ r0, r_user_id r0 = userId acting) (ratings_of s listingId))
    as Hex by (by apply list_elem_of_filter).
  destruct (filter _ _) as [|r0 rest]; [by apply elem_of_nil in Hex|].
  done.
Qed.

Lemma post_rating_rejection_keeps_store now (acting : identity) listingId body s :
  kind (post_rating now acting listingId body s) = Some ValidationError
  ∨ kind (post_rating now acting listingId body s) = Some NotFound →
  final_store (post_rating now acting listingId body s) = s.
Proof.
  unfold post_rating.
  destruct (rating_out_of_range _) as [[]|]; [done | | done].
  destruct (listings s !! listingId); [|done].
  destruct (0 <? _); [done|].
  destruct (insert_rating _ _ _ _ _ _) as [s1|]; [|done].
  destruct (update_aggregates_after_insert _ _); cbn; intros [|]; done.
Qed.

(** The range test [!rating || rating < 1 || rating > 5] on any value. *)
Lemma rating_out_of_range_falsy v :
  truthy v = false → rating_out_of_range v = Normal true.
Proof. intros Hv. unfold rating_out_of_range. by rewrite Hv. Qed.

Lemma rating_out_of_range_outside v n :
  ToNumber v = Normal n →
  num_lt n (num_Z 1) = true ∨ num_lt (num_Z 5) n = true →
  rating_out_of_range v = Normal true.
Proof.
  intros Hn Hout. unfold rating_out_of_range, js_lt, js_gt.
  destruct (truthy v); [|done]. cbn [negb]. rewrite Hn. cbn [mbind completion_bind].
  destruct (num_lt n (num_Z 1)); [done|]. cbn [mbind completion_bind].
  by destruct Hout as [? | ->].
Qed.

Lemma rating_out_of_range_passes v n :
  truthy v = true → ToNumber v = Normal n →
  num_lt n (num_Z 1) = false → num_lt (num_Z 5) n = false →
  rating_out_of_range v = Normal false.
Proof.
  intros Hv Hn Hlo Hhi. unfold rating_out_of_range, js_lt, js_gt.
  rewrite Hv. cbn [negb]. rewrite Hn. cbn [mbind completion_bind].
  rewrite Hlo. cbn [mbind completion_bind]. by rewrite Hhi.
Qed.

(** What becomes of a rating whose value passed the range test. *)
Lemma post_rating_passed now (acting : identity) listingId body s :
  rating_out_of_range (field body "rating") = Normal false →
  (listings s !! listingId = None →
   post_rating now acting listingId body s
   = Sent {| code := 404; json := message "Listing not found" |} s)
  ∧ (is_Some (listings s !! listingId) → has_rating s listingId (userId acting) →
     post_rating now acting listingId body s
     = Sent {| code := 400; json := message "You have already rated this listing" |} s)
  ∧ (is_Some (listings s !! listingId) → ¬ has_rating s listingId (userId acting) →
     pg_integer_in (field body "rating") = None →
     post_rating now acting listingId body s
     = Sent {| code := 500; json := message "Failed to submit rating" |} s).
Proof.
  intros Hpass. unfold post_rating. cbv zeta. rewrite Hpass. split_and!.
  - by intros ->.
  - intros [l ->] (r & Hin & Hu).
    assert (r ∈ filter (λ r0, r_user_id r0 = userId acting) (ratings_of s listingId))
      as Hex by (by apply list_elem_of_filter).
    destruct (filter _ _) as [|r0 rest]; [by apply elem_of_nil in Hex|].
    done.
  - intros [l ->] Hnone Hrefused.
    destruct (filter (λ r0, r_user_id r0 = userId acting) (ratings_of s listingId))
      as [|r0 rest] eqn:Hf.
    + cbn. unfold insert_rating. rewrite Hrefused.
      by destruct (ratings s !! ratings_id_seq s).
    + exfalso. apply Hnone. exists r0.
      assert (r0 ∈ filter (λ r0, r_user_id r0 = userId acting) (ratings_of s listingId))
        as Hin by (rewrite Hf; apply list_elem_of_here).
      by apply list_elem_of_filter in Hin as [? ?].
Qed.
End Ratings.


Lemma run_successful_Some `{Engine} `{Postgres} ops s :
  (if run_successful ops s is Some _ then true else false) = true →
  run_successful ops s = Some (default s (run_successful ops s)).
Proof. by destruct (run_successful ops s). Qed.

(** C1 (as amended).  Along any sequence of successful rate and
    deleteRating operations, a listing whose aggregates agree with its
    rating rows keeps them in agreement: [rating_count] is the number
    of rating rows of the listing and [average_rating] is their mean
    rounded to two decimals by the [numeric(3,2)] cast; both are 0 when
    no rating remains. *)
Theorem rating_aggregates_invariant `{Engine} `{Postgres} (ops : list rating_op)
    (s s' : store) (listingId : Z) :
  run_successful ops s = Some s' →
  aggregates_consistent s listingId →
  aggregates_consistent s' listingId
  ∧ (∀ l, listings s' !! listingId = Some l → ratings_of s' listingId = [] →
       rating_count l = 0 ∧ average_rating l = 0%Q).
Proof.
  intros Hrun Hinv.
  pose proof (run_successful_consistent ops s s' listingId Hrun Hinv) as Hinv'.
  split; [done|]. intros l Hl Hnone.
  unfold aggregates_consistent in Hinv'. rewrite Hl, Hnone in Hinv'.
  exact Hinv'.
Qed.

Lemma rating_aggregates_invariant_witness :
  aggregates_consistent
    (default campus
       (run_successful (three_ratings ++ [DeleteRating alice 1]) campus)) 1.
Proof.
  assert (Hrun : run_successful (three_ratings ++ [DeleteRating alice 1]) campus
                 = Some (default campus
                           (run_successful (three_ratings ++ [DeleteRating alice 1])
                              campus))).
  { apply (@run_successful_Some reference_engine reference_postgres).
    vm_compute. reflexivity. }
  assert (Hinit : aggregates_consistent campus 1).
  { vm_compute. split; reflexivity. }
  exact (proj1 (@rating_aggregates_invariant reference_engine reference_postgres
                  (three_ratings ++ [DeleteRating alice 1]) campus
                  (default campus
                     (run_successful (three_ratings ++ [DeleteRating alice 1]) campus))
                  1 Hrun Hinit)).
Defined.

(** C1 as stated fails on the average: from the sample catalog, where
    the lamp has no rating and aggregates 0 and 0, three successful
    ratings 5, 4 and 4 leave [average_rating] at 4.33, which is not the
    mean 13/3. *)
Lemma average_rating_is_rounded :
  aggregates_exact campus 1
  ∧ ∃ s', run_successful three_ratings campus = Some s'
          ∧ (average_rating <$> listings s' !! 1) = Some (433 # 100)%Q
          ∧ (mean (ratings_of s' 1) == 13 # 3)%Q
          ∧ ¬ aggregates_exact s' 1.
Proof.
  split; [vm_compute; split; reflexivity|].
  exists (default campus (run_successful three_ratings campus)).
  split_and!.
  - apply (@run_successful_Some reference_engine reference_postgres
             three_ratings campus).
    vm_compute. reflexivity.
  - vm_compute. reflexivity.
  - vm_compute. reflexivity.
  - intros Hex. vm_compute in Hex. destruct Hex as [_ Hex]. discriminate.
Qed.

(** C4.  The rate operation tests the value with [!rating || rating < 1
    || rating > 5].  A value that is falsy (absent, null, 0, the empty
    text) or that converts to a number below 1 or above 5 is answered
    with the range validation error.  Every other value passes the
    test and goes on to the listing lookup (NotFound when the listing
    is missing), the duplicate lookup (the duplicate validation error
    when the user has rated the listing) and the INSERT.  The values
    that pass include those that are no number at all: for a text such
    as [abc] both comparisons are made with NaN and are false, so the
    value is not refused as out of range; it reaches the INSERT, and
    when the store refuses it there the answer is the 500 "Failed to
    submit rating", not a validation error.  Every response of kind
    ValidationError or NotFound, and that 500, leave the store (the
    rating rows and both aggregates) as it was.  After a successful
    rating, a second rating of the same listing by the same user with
    any value that passes the range test is the duplicate error and
    changes nothing. *)
Theorem post_rating_failures `{Engine} `{Postgres} (now : Z) (acting : identity)
    (listingId : Z) (body : gmap string jsval) (s : store) :
  let rating := field body "rating" in
  let o := post_rating now acting listingId body s in
  let out_of_range :=
    Sent {| code := 400; json := message "Rating must be between 1 and 5" |} s in
  (truthy rating = false → o = out_of_range)
  ∧ (∀ n, ToNumber rating = Normal n →
       num_lt n (num_Z 1) = true ∨ num_lt (num_Z 5) n = true → o = out_of_range)
  ∧ (∀ n, truthy rating = true → ToNumber rating = Normal n →
       num_lt n (num_Z 1) = false → num_lt (num_Z 5) n = false →
       (listings s !! listingId = None →
        o = Sent {| code := 404; json := message "Listing not found" |} s)
       ∧ (is_Some (listings s !! listingId) →
          has_rating s listingId (userId acting) →
          o = Sent {| code := 400;
                      json := message "You have already rated this listing" |} s)
       ∧ (is_Some (listings s !! listingId) →
          ¬ has_rating s listingId (userId acting) →
          pg_integer_in rating = None →
          o = Sent {| code := 500; json := message "Failed to submit rating" |} s))
  ∧ (kind o = Some ValidationError ∨ kind o = Some NotFound → final_store o = s)
  ∧ (kind o = Some Success →
     ∀ now' body', rating_out_of_range (field body' "rating") = Normal false →
       post_rating now' acting listingId body' (final_store o)
       = Sent {| code := 400;
                 json := message "You have already rated this listing" |}
              (final_store o)).
Proof.
  cbv zeta. split_and!.
  - intros Hfalsy. unfold post_rating. cbv zeta.
    by rewrite (rating_out_of_range_falsy _ Hfalsy).
  - intros n Hn Hout. unfold post_rating. cbv zeta.
    by rewrite (rating_out_of_range_outside _ n Hn Hout).
  - intros n Hv Hn Hlo Hhi.
    apply post_rating_passed. by apply (rating_out_of_range_passes _ n).
  - apply post_rating_rejection_keeps_store.
  - intros Hok now' body' Hpass.
    pose proof (post_rating_passed now' acting listingId body'
                  (final_store (post_rating now acting listingId body s)) Hpass)
      as (_ & Hdup & _).
    apply post_rating_success in Hok as (l & r & Hl & Hk & Hrl & Hru & Hfinal).
    apply Hdup; rewrite Hfinal.
    + cbn. rewrite lookup_insert_eq. eauto.
    + exists r. split; [|done]. unfold ratings_of. cbn. apply elem_of_rows_of.
      split; [done|]. exists (ratings_id_seq s). apply lookup_insert_eq.
Qed.

Lemma post_rating_failures_witness :
  post_rating 501 bob 1 {[ "rating" := JStr "abc" ]} campus
  = Sent {| code := 500; json := message "Failed to submit rating" |} campus
  ∧ post_rating 501 bob 1 {[ "rating" := JStr "7" ]} campus
    = Sent {| code := 400; json := message "Rating must be between 1 and 5" |} campus
  ∧ post_rating 501 bob 1 {[ "rating" := JNull ]} campus
    = Sent {| code := 400; json := message "Rating must be between 1 and 5" |} campus
  ∧ post_rating 501 bob 77 (stars 5) campus
    = Sent {| code := 404; json := message "Listing not found" |} campus
  ∧ post_rating 502 bob 1 (stars 3) (final_store (post_rating 501 bob 1 (stars 5) campus))
    = Sent {| code := 400; json := message "You have already rated this listing" |}
           (final_store (post_rating 501 bob 1 (stars 5) campus)).
Proof.
  pose proof (@post_rating_failures reference_engine reference_postgres
                501 bob 1 {[ "rating" := JStr "abc" ]} campus)
    as (_ & _ & Htext & _).
  pose proof (@post_rating_failures reference_engine reference_postgres
                501 bob 1 {[ "rating" := JStr "7" ]} campus)
    as (_ & Hseven & _).
  pose proof (@post_rating_failures reference_engine reference_postgres
                501 bob 1 {[ "rating" := JNull ]} campus)
    as (Hnull & _).
  pose proof (@post_rating_failures reference_engine reference_postgres
                501 bob 77 (stars 5) campus) as (_ & _ & Hmissing & _).
  pose proof (@post_rating_failures reference_engine reference_postgres
                501 bob 1 (stars 5) campus) as (_ & _ & _ & _ & Hsecond).
  cbv zeta in *.
  split_and!.
  - apply (Htext NaN); try reflexivity.
    + eexists. reflexivity.
    + intros (r & Hin & _). by apply elem_of_nil in Hin.
  - apply (Hseven (num_Z 7)); [reflexivity | right; reflexivity].
  - apply Hnull. reflexivity.
  - apply (Hmissing (num_Z 5)); reflexivity.
  - apply Hsecond; reflexivity.
Defined.

(** ** Listings of one owner *)

Section ByOwner.
Context `{Engine} `{P : Postgres} `{!PostgresLaws P}.

(** What the query of the by-owner route selects: every listing of the
    user when it is run for the owner, the approved ones otherwise. *)
Lemma user_listings_rows_owner user s :
  user_listings_rows user true s
  ≡ₚ listings_where s (λ _ l, user_id l =? user).
Proof. unfold user_listings_rows. cbn [negb]. apply pg_sort_perm. Qed.

Lemma user_listings_rows_other user s :
  user_listings_rows user false s
  ≡ₚ listings_where s (λ _ l, (user_id l =? user) && String.eqb (status l) "approved").
Proof. unfold user_listings_rows. cbn [negb]. apply pg_sort_perm. Qed.

Lemma get_user_listings_owner user (decoded : identity) s :
  userId decoded = user →
  get_user_listings user (Some decoded) s
  = match mapM cleanListing (user_listings_query user true s) with
    | Throw _ => Sent {| code := 500; json := message "Server error" |} s
    | Normal cleanedRows =>
        Sent {| code := 200;
                json := obj [("status", JStr "success");
                             ("count", JNum (num_Z (Z.of_nat (length cleanedRows))));
                             ("data", rows_json cleanedRows)] |} s
    end.
Proof.
  intros <-. unfold get_user_listings. cbn [fmap option_fmap option_map].
  by rewrite bool_decide_eq_true_2.
Qed.
End ByOwner.

(** C5.  The by-owner route never reads the role of the requester: a
    requester whose id is not the owner's id, admin or not, gets
    exactly the response an unauthenticated caller gets, that is the
    owner's approved listings only. *)
Theorem get_user_listings_ignores_role `{Engine} `{Postgres} (user : Z)
    (decoded : identity) (s : store) :
  userId decoded ≠ user →
  get_user_listings user (Some decoded) s = get_user_listings user None s.
Proof.
  intros Hne. unfold get_user_listings. cbn [fmap option_fmap option_map].
  rewrite !bool_decide_eq_false_2; [done | done | congruence].
Qed.

Lemma get_user_listings_ignores_role_witness :
  get_user_listings 1 (Some root) campus = get_user_listings 1 None campus.
Proof.
  apply (@get_user_listings_ignores_role reference_engine reference_postgres
           1 root campus).
  cbn. lia.
Defined.

(** On the sample catalog Alice has three listings, one of them
    pending.  The admin gets the two approved ones from the route as it
    is; Alice gets all three; and the earlier revision of the handler
    gives the admin all three. *)
Example get_user_listings_on_campus :
  length (data_of (response_of (get_user_listings 1 (Some root) campus))) = 2%nat
  ∧ length (data_of (response_of (get_user_listings 1 (Some alice) campus))) = 3%nat
  ∧ length (data_of (response_of (previous_get_user_listings 1 (Some root) campus)))
    = 3%nat.
Proof. split_and!; vm_compute; reflexivity. Qed.

(** ** Order of the search results *)

Lemma StronglySorted_weaken {A} (R S : A → A → Prop) (l : list A) :
  (∀ x y, R x y → S x y) → StronglySorted R l → StronglySorted S l.
Proof.
  intros HRS. induction 1 as [|x l _ IH Hx]; constructor; [done|].
  eapply Forall_impl; [exact Hx | auto].
Qed.



#[global] Instance reference_postgres_laws : PostgresLaws reference_postgres.
Proof.
  split.
  - intros A le l. cbn. apply merge_sort_Permutation.
  - intros A le l Htotal Htrans. cbn.
    apply StronglySorted_merge_sort.
    + intros x y z. apply Htrans.
    + intros x y. apply Htotal.
Qed.

(** The order on NUMERIC cells is total and transitive, NULL included. *)
Lemma numeric_le_total (a b : option Q) :
  numeric_le a b = true ∨ numeric_le b a = true.
Proof.
  destruct a as [x|], b as [y|]; cbn; auto.
  destruct (Qlt_le_dec y x) as [Hlt | Hle]; [right | left]; apply Qle_bool_iff;
    [by apply Qlt_le_weak | done].
Qed.

Lemma numeric_le_trans (a b c : option Q) :
  numeric_le a b = true → numeric_le b c = true → numeric_le a c = true.
Proof.
  destruct a, b, c; cbn; try done. rewrite !Qle_bool_iff. apply Qle_trans.
Qed.

Section Ordering.
Context `{Engine} `{P : Postgres} `{!PostgresLaws P}.

Lemma order_le_total o (a b : listing) :
  order_le o a b = true ∨ order_le o b a = true.
Proof.
  destruct o; cbn.
  - destruct (Z.le_ge_cases (created_at b) (created_at a)); [left | right]; lia.
  - apply numeric_le_total.
  - destruct (numeric_le_total (price_of a) (price_of b)); auto.
Qed.

Lemma order_le_trans o (a b c : listing) :
  order_le o a b = true → order_le o b c = true → order_le o a c = true.
Proof.
  destruct o; cbn.
  - lia.
  - apply numeric_le_trans.
  - intros ? ?. by eapply numeric_le_trans.
Qed.





Lemma orderBy_of_other sort :
  sort ≠ JStr "price-low" → sort ≠ JStr "price-high" →
  orderBy_of (js_or sort (JStr "newest")) = created_at_DESC.
Proof.
  intros Hlow Hhigh. unfold orderBy_of, js_or.
  destruct (truthy sort); [|reflexivity].
  destruct (strict_eq_str sort "price-low") eqn:E1.
  { by apply strict_eq_str_true in E1. }
  destruct (strict_eq_str sort "price-high") eqn:E2.
  { by apply strict_eq_str_true in E2. }
  reflexivity.
Qed.
End Ordering.


Section Items.
Context `{Engine} `{P : Postgres} `{!PostgresLaws P}.








End Items.

(** ** The read paths return the cleaned rows of the store *)


Section ReadPaths.
Context `{Engine} `{P : Postgres} `{!PostgresLaws P}.






End ReadPaths.









(** * Further properties *)

(** ** The public fetch of one listing *)

Lemma elem_of_listings_join_users s cond id l u :
  (id, l, u) ∈ listings_join_users s cond
  ↔ listings s !! id = Some l ∧ cond id l = true ∧ users s !! user_id l = Some u.
Proof.
  unfold listings_join_users. rewrite list_elem_of_omap. split.
  - intros ([id' l'] & Hin & Hrow). apply elem_of_map_to_list in Hin.
    destruct (cond id' l') eqn:Hc; [|done].
    destruct (users s !! user_id l') as [u'|] eqn:Hu; [|done].
    cbn in Hrow. by simplify_eq.
  - intros (Hl & Hc & Hu). exists (id, l). split; [by apply elem_of_map_to_list|].
    by rewrite Hc, Hu.
Qed.

Lemma listing_query_nil `{Postgres} id s :
  listing_query id s = []
  ↔ ¬ ∃ l u, listings s !! id = Some l ∧ status l = "approved"
             ∧ users s !! user_id l = Some u.
Proof.
  unfold listing_query. split.
  - intros Hnil%fmap_nil_inv (l & u & Hl & Hs & Hu).
    assert (Hin : (id, l, u) ∈ listings_join_users s
              (λ i l0, (i =? id) && String.eqb (status l0) "approved")).
    { apply elem_of_listings_join_users. split_and!; [done | | done].
      rewrite Z.eqb_refl. by apply String.eqb_eq. }
    rewrite Hnil in Hin. by apply elem_of_nil in Hin.
  - intros Hnone.
    destruct (listings_join_users s _) as [|[[i l] u] rest] eqn:E; [done|].
    exfalso. clear -E Hnone. apply Hnone.
    assert (Hin : (i, l, u) ∈ listings_join_users s
              (λ i l0, (i =? id) && String.eqb (status l0) "approved")).
    { rewrite E. apply list_elem_of_here. }
    apply elem_of_listings_join_users in Hin as (Hl & Hc & Hu).
    apply andb_true_iff in Hc as [Hi Hs].
    apply Z.eqb_eq in Hi as ->. apply String.eqb_eq in Hs.
    by exists l, u.
Qed.

(** X1.  The public fetch of one listing answers "not found" exactly
    when there is no approved listing with that id whose owner has an
    account: a pending or rejected listing is hidden from everyone, its
    owner included, and so is a listing whose owner row is gone.  The
    fetch never changes the store. *)
Theorem get_listing_not_found_iff `{Engine} `{Postgres} (id : Z) (s : store) :
  (kind (get_listing id s) = Some NotFound
   ↔ ¬ ∃ l u, listings s !! id = Some l ∧ status l = "approved"
              ∧ users s !! user_id l = Some u)
  ∧ final_store (get_listing id s) = s.
Proof.
  rewrite <- listing_query_nil. unfold get_listing.
  destruct (listing_query id s) as [|row rows].
  - split; [|done]. split; done.
  - destruct (cleanListing row); split; try done; split; done.
Qed.

(** ** The search: what a page holds *)

Section Search.
Context `{Engine} `{P : Postgres}.

(** What a search that answers 200 has computed. *)
Lemma get_listings_success q s r s' :
  get_listings q s = Sent r s' → code r = 200 →
  ∃ (p l : option Z) search cleaned,
    parseInt (q_page q) = Normal p
    ∧ parseInt (q_limit q) = Normal l
    ∧ optional_trim (q_search q) = Normal search
    ∧ 1 ≤ int_or p 1 ∧ 1 ≤ int_or l 24 ≤ 100
    ∧ mapM cleanListing
        (listingsQuery (search_where search (q_category q))
           (orderBy_of (js_or (q_sort q) (JStr "newest")))
           (int_or l 24) ((int_or p 1 - 1) * int_or l 24) s) = Normal cleaned
    ∧ s' = s
    ∧ r = {| code := 200;
             json := obj [("status", JStr "success");
                          ("data", rows_json cleaned);
                          ("pagination",
                           obj [("currentPage", JNum (num_Z (int_or p 1)));
                                ("totalPages",
                                 JNum (num_Z (ceil_div
                                                (totalQuery (search_where search (q_category q)) s)
                                                (int_or l 24))));
                                ("totalItems",
                                 JNum (num_Z (totalQuery (search_where search (q_category q)) s)));
                                ("hasNext",
                                 JBool (int_or p 1 * int_or l 24
                                        <? totalQuery (search_where search (q_category q)) s));
                                ("hasPrev", JBool (int_or p 1 >? 1))])] |}.
Proof.
  unfold get_listings. intros Hr Hc.
  destruct (parseInt (q_page q)) as [p|]; [|by simplify_eq/=].
  destruct (parseInt (q_limit q)) as [l|]; [|by simplify_eq/=].
  destruct (optional_trim (q_search q)) as [search|]; [|by simplify_eq/=].
  cbn [mbind completion_bind] in Hr.
  destruct (_ || _) eqn:Hguard; [by simplify_eq/=|].
  apply orb_false_iff in Hguard as [Hguard Hhi].
  apply orb_false_iff in Hguard as [Hpage Hlo].
  destruct (mapM _ _) as [cleaned|] eqn:HM; [|by simplify_eq/=].
  injection Hr as <- <-.
  exists p, l, search, cleaned. split_and!; try done; lia.
Qed.

Lemma search_where_true (q : query) search id l :
  optional_trim (q_search q) = Normal search →
  search_where search (q_category q) id l = true →
  status l = "approved" ∧ matches_search q id l.
Proof.
  intros Hs Hw. unfold search_where in Hw.
  assert (Hparts :
    String.eqb (status l) "approved" = true
    ∧ (∀ text, search = JStr text → text ≠ "" →
         pg_ilike (cell id l "title") ("%" +:+ text +:+ "%")
         || pg_ilike (cell id l "description") ("%" +:+ text +:+ "%") = true)
    ∧ (truthy (q_category q) = true → q_category q ≠ JStr "All" →
       pg_text_eq (cell id l "category") (q_category q) = true)).
  { destruct (truthy (q_category q) && negb (strict_eq_str (q_category q) "All")) eqn:Hc.
    - apply andb_true_iff in Hw as [Hw Hcat].
      assert (Hwhere : String.eqb (status l) "approved" = true
                ∧ (∀ text, search = JStr text → text ≠ "" →
                     pg_ilike (cell id l "title") ("%" +:+ text +:+ "%")
                     || pg_ilike (cell id l "description") ("%" +:+ text +:+ "%") = true)).
      { destruct (truthy search) eqn:Ht.
        - destruct search as [| | | |text| |]; try (split; [done | intros ? [=]]).
          apply andb_true_iff in Hw as [Hw Hlike]. split; [done|].
          by intros ? [= <-] _.
        - split; [done|]. intros text -> Hne. cbn in Ht.
          apply negb_false_iff, String.eqb_eq in Ht. done. }
      destruct Hwhere. by split_and!.
    - assert (Hwhere : String.eqb (status l) "approved" = true
                ∧ (∀ text, search = JStr text → text ≠ "" →
                     pg_ilike (cell id l "title") ("%" +:+ text +:+ "%")
                     || pg_ilike (cell id l "description") ("%" +:+ text +:+ "%") = true)).
      { destruct (truthy search) eqn:Ht.
        - destruct search as [| | | |text| |]; try (split; [done | intros ? [=]]).
          apply andb_true_iff in Hw as [Hw Hlike]. split; [done|].
          by intros ? [= <-] _.
        - split; [done|]. intros text -> Hne. cbn in Ht.
          apply negb_false_iff, String.eqb_eq in Ht. done. }
      destruct Hwhere as [? ?]. split_and!; [done | done |].
      intros Ht Hall. rewrite Ht in Hc. cbn in Hc.
      apply negb_false_iff, strict_eq_str_true in Hc. done. }
  destruct Hparts as (Hst & Hsearch & Hcat).
  split; [by apply String.eqb_eq|]. split; [|done].
  intros text Hq Hne. rewrite Hq in Hs. cbn in Hs. injection Hs as <-.
  apply orb_true_iff. by apply Hsearch.
Qed.

Lemma listings_join_users_NoDup s cond :
  NoDup (listings_join_users s cond).*1.*1.
Proof.
  assert (Hsub : (listings_join_users s cond).*1.*1
                 `sublist_of` (map_to_list (listings s)).*1).
  { unfold listings_join_users.
    induction (map_to_list (listings s)) as [|[id l] rows IH]; [done|].
    cbn [omap list_omap].
    destruct (cond id l); [|by apply sublist_cons].
    destruct (users s !! user_id l); cbn; [by apply sublist_skip | by apply sublist_cons]. }
  eapply sublist_NoDup; [|exact Hsub]. apply NoDup_fst_map_to_list.
Qed.

Lemma listings_join_users_length s cond :
  (length (listings_join_users s cond) ≤ length (listings_where s cond))%nat.
Proof.
  unfold listings_join_users, listings_where.
  induction (map_to_list (listings s)) as [|[id l] rows IH]; [done|].
  cbn [omap list_omap]. rewrite filter_cons. case_decide as Hc.
  - rewrite Hc. destruct (users s !! user_id l); cbn; lia.
  - apply not_true_is_false in Hc. by rewrite Hc.
Qed.
End Search.

Lemma ceil_div_bounds total limit :
  0 ≤ total → 0 < limit →
  limit * (ceil_div total limit - 1) < total ≤ limit * ceil_div total limit.
Proof.
  intros Ht Hl. unfold ceil_div.
  pose proof (Z.div_mod (total + limit - 1) limit ltac:(lia)) as Hdm.
  pose proof (Z.mod_pos_bound (total + limit - 1) limit Hl) as Hm.
  lia.
Qed.

(** X2.  Every item of a successful search is the cleaned form of a
    row of an approved listing whose owner has an account; that listing
    matches the search text in its title or description and lies in the
    requested category whenever such a filter was sent; and no listing
    occurs twice on the page. *)
Theorem search_returns_approved_matches `{Engine} `{P : Postgres} `{!PostgresLaws P}
    (q : query) (s : store) (r : response) (s' : store) :
  get_listings q s = Sent r s' → code r = 200 →
  ∃ rows : list (Z * listing * user),
    Forall2 (λ row item,
       ∃ o, cleanListing (select_joined search_columns ["username"; "shop_name"] row)
            = Normal o ∧ item = JObj o) rows (data_of r)
    ∧ NoDup rows.*1.*1
    ∧ ∀ id l u, (id, l, u) ∈ rows →
        listings s !! id = Some l ∧ users s !! user_id l = Some u
        ∧ status l = "approved" ∧ matches_search q id l.
Proof.
  intros Hr Hc.
  destruct (get_listings_success q s r s' Hr Hc)
    as (p & l & search & cleaned & _ & _ & Hsearch & _ & _ & HM & _ & ->).
  rewrite data_of_rows by done.
  set (where_ := search_where search (q_category q)) in *.
  set (orderBy := orderBy_of (js_or (q_sort q) (JStr "newest"))) in *.
  set (limit := int_or l 24) in *.
  set (offset := (int_or p 1 - 1) * limit) in *.
  exists (listingsQuery_rows where_ orderBy limit offset s).
  assert (Hsub : listingsQuery_rows where_ orderBy limit offset s
                 `sublist_of` pg_sort (λ a b : Z * listing * user,
                                         order_le orderBy a.1.2 b.1.2)
                                (listings_join_users s where_)).
  { unfold listingsQuery_rows, limit_offset.
    etrans; [apply sublist_take | apply sublist_drop]. }
  split_and!.
  - apply mapM_Normal in HM. unfold listingsQuery in HM.
    apply Forall2_fmap_l in HM. apply Forall2_fmap_r.
    eapply Forall2_impl; [exact HM|]. cbn. eauto.
  - eapply sublist_NoDup; [|apply fmap_sublist, fmap_sublist, Hsub].
    rewrite (pg_sort_perm _ _ (listings_join_users s where_)).
    apply listings_join_users_NoDup.
  - intros id l0 u Hin.
    eapply elem_of_sublist in Hin; [|exact Hsub].
    rewrite (pg_sort_perm _ _ (listings_join_users s where_)) in Hin.
    apply elem_of_listings_join_users in Hin as (Hl & Hw & Hu).
    destruct (search_where_true q search id l0 Hsearch Hw) as [Hst Hm].
    by split_and!.
Qed.

Lemma search_returns_approved_matches_witness :
  ∃ rows : list (Z * listing * user),
    length rows = length (data_of (response_of (get_listings no_query campus)))
    ∧ ∀ id l u, (id, l, u) ∈ rows → status l = "approved".
Proof.
  assert (Hk : kind (get_listings no_query campus) = Some Success)
    by (vm_compute; reflexivity).
  assert (Hc : code (response_of (get_listings no_query campus)) = 200)
    by (vm_compute; reflexivity).
  destruct (@search_returns_approved_matches reference_engine reference_postgres
              reference_postgres_laws no_query campus
              (response_of (get_listings no_query campus))
              (final_store (get_listings no_query campus))
              (kind_Sent _ _ Hk) Hc)
    as (rows & Hitems & _ & Hrows).
  exists rows. split.
  - exact (Forall2_length _ _ _ Hitems).
  - intros id l u Hin. exact (proj1 (proj2 (proj2 (Hrows id l u Hin)))).
Defined.

(** X3.  The pagination block of a successful search: the page is at
    least 1 and the limit between 1 and 100; the page holds at most
    [limit] items and at most [totalItems]; [totalPages] is the least
    number of pages of [limit] items that hold [totalItems]; [hasNext]
    is true exactly on a page before the last one and [hasPrev] exactly
    after the first. *)
Theorem get_listings_pagination `{Engine} `{P : Postgres} `{!PostgresLaws P}
    (q : query) (s : store) (r : response) (s' : store) :
  get_listings q s = Sent r s' → code r = 200 →
  ∃ (p l : option Z) (total pages : Z),
    parseInt (q_page q) = Normal p ∧ parseInt (q_limit q) = Normal l
    ∧ let page := int_or p 1 in
      let limit := int_or l 24 in
      1 ≤ page ∧ 1 ≤ limit ≤ 100
      ∧ pagination_of r "currentPage" = JNum (num_Z page)
      ∧ pagination_of r "totalItems" = JNum (num_Z total)
      ∧ pagination_of r "totalPages" = JNum (num_Z pages)
      ∧ pagination_of r "hasNext" = JBool (page <? pages)
      ∧ pagination_of r "hasPrev" = JBool (1 <? page)
      ∧ Z.of_nat (length (data_of r)) ≤ limit
      ∧ Z.of_nat (length (data_of r)) ≤ total
      ∧ limit * (pages - 1) < total ≤ limit * pages.
Proof.
  intros Hr Hc.
  destruct (get_listings_success q s r s' Hr Hc)
    as (p & l & search & cleaned & Hp & Hl & _ & Hpage & Hlimit & HM & _ & ->).
  set (where_ := search_where search (q_category q)) in *.
  set (orderBy := orderBy_of (js_or (q_sort q) (JStr "newest"))) in *.
  set (total := totalQuery where_ s).
  exists p, l, total, (ceil_div total (int_or l 24)).
  split; [done|]. split; [done|]. cbv zeta.
  assert (Htotal : 0 ≤ total) by (unfold total, totalQuery; lia).
  pose proof (ceil_div_bounds total (int_or l 24) Htotal ltac:(lia)) as Hceil.
  assert (Hlen : length cleaned
                 = length (listingsQuery_rows where_ orderBy (int_or l 24)
                             ((int_or p 1 - 1) * int_or l 24) s)).
  { apply mapM_Normal, Forall2_length in HM. unfold listingsQuery in HM.
    by rewrite length_fmap in HM. }
  assert (Hrows : (length (listingsQuery_rows where_ orderBy (int_or l 24)
                             ((int_or p 1 - 1) * int_or l 24) s)
                   ≤ Z.to_nat (int_or l 24)
                   ∧ length (listingsQuery_rows where_ orderBy (int_or l 24)
                               ((int_or p 1 - 1) * int_or l 24) s)
                     ≤ length (listings_where s where_))%nat).
  { unfold listingsQuery_rows, limit_offset.
    rewrite length_take, length_drop.
    rewrite (Permutation_length (pg_sort_perm _ _ (listings_join_users s where_))).
    pose proof (listings_join_users_length s where_). lia. }
  rewrite data_of_rows by done. rewrite length_fmap, Hlen.
  split_and!; try done; try lia.
  - transitivity (JBool (int_or p 1 * int_or l 24 <? total)); [reflexivity|].
    f_equal.
    destruct (Z.ltb_spec (int_or p 1 * int_or l 24) total);
      destruct (Z.ltb_spec (int_or p 1) (ceil_div total (int_or l 24)));
      try done; nia.
  - transitivity (JBool (int_or p 1 >? 1)); [reflexivity|].
    f_equal. apply Z.gtb_ltb.
  - unfold total, totalQuery. lia.
Qed.

Lemma get_listings_pagination_witness :
  ∃ (p l : option Z) (total pages : Z),
    parseInt (q_page no_query) = Normal p ∧ parseInt (q_limit no_query) = Normal l
    ∧ let page := int_or p 1 in
      let limit := int_or l 24 in
      let r := response_of (get_listings no_query campus) in
      1 ≤ page ∧ 1 ≤ limit ≤ 100
      ∧ pagination_of r "currentPage" = JNum (num_Z page)
      ∧ pagination_of r "totalItems" = JNum (num_Z total)
      ∧ pagination_of r "totalPages" = JNum (num_Z pages)
      ∧ pagination_of r "hasNext" = JBool (page <? pages)
      ∧ pagination_of r "hasPrev" = JBool (1 <? page)
      ∧ Z.of_nat (length (data_of r)) ≤ limit
      ∧ Z.of_nat (length (data_of r)) ≤ total
      ∧ limit * (pages - 1) < total ≤ limit * pages.
Proof.
  assert (Hk : kind (get_listings no_query campus) = Some Success)
    by (vm_compute; reflexivity).
  assert (Hc : code (response_of (get_listings no_query campus)) = 200)
    by (vm_compute; reflexivity).
  exact (@get_listings_pagination reference_engine reference_postgres
           reference_postgres_laws no_query campus
           (response_of (get_listings no_query campus))
           (final_store (get_listings no_query campus))
           (kind_Sent _ _ Hk) Hc).
Defined.

(** X4.  Filters that select everything are the same as no filter: the
    category [All], a search text that is empty after trimming, and any
    sort key other than [price-low] and [price-high] give the response
    of the request without that parameter. *)
Theorem get_listings_neutral_filters `{Engine} `{Postgres} (q : query) (s : store) :
  (q_category q = JStr "All" →
   get_listings q s
   = get_listings {| q_page := q_page q; q_limit := q_limit q; q_sort := q_sort q;
                     q_search := q_search q; q_category := JUndefined |} s)
  ∧ (∀ text, q_search q = JStr text → trim text = "" →
       get_listings q s
       = get_listings {| q_page := q_page q; q_limit := q_limit q; q_sort := q_sort q;
                         q_search := JUndefined; q_category := q_category q |} s)
  ∧ (q_sort q ≠ JStr "price-low" → q_sort q ≠ JStr "price-high" →
     get_listings q s
     = get_listings {| q_page := q_page q; q_limit := q_limit q; q_sort := JUndefined;
                       q_search := q_search q; q_category := q_category q |} s).
Proof.
  split_and!.
  - intros Hcat. unfold get_listings. cbn [q_page q_limit q_sort q_search q_category].
    rewrite Hcat. reflexivity.
  - intros text Hs Ht. unfold get_listings.
    cbn [q_page q_limit q_sort q_search q_category].
    rewrite Hs. cbn [optional_trim call_trim]. rewrite Ht.
    destruct (parseInt (q_page q)) as [p|]; [|done].
    destruct (parseInt (q_limit q)) as [l|]; [|done].
    reflexivity.
  - intros Hlow Hhigh. unfold get_listings.
    cbn [q_page q_limit q_sort q_search q_category].
    rewrite (orderBy_of_other (q_sort q) Hlow Hhigh).
    reflexivity.
Qed.

Lemma get_listings_neutral_filters_witness :
  let q := {| q_page := JUndefined; q_limit := JUndefined; q_sort := JStr "oldest";
              q_search := JStr "  "; q_category := JStr "All" |} in
  get_listings q campus
  = get_listings {| q_page := JUndefined; q_limit := JUndefined; q_sort := JStr "oldest";
                    q_search := JStr "  "; q_category := JUndefined |} campus
  ∧ get_listings q campus
    = get_listings {| q_page := JUndefined; q_limit := JUndefined; q_sort := JStr "oldest";
                      q_search := JUndefined; q_category := JStr "All" |} campus
  ∧ get_listings q campus
    = get_listings {| q_page := JUndefined; q_limit := JUndefined; q_sort := JUndefined;
                      q_search := JStr "  "; q_category := JStr "All" |} campus.
Proof.
  cbv zeta.
  pose proof (@get_listings_neutral_filters reference_engine reference_postgres
                {| q_page := JUndefined; q_limit := JUndefined; q_sort := JStr "oldest";
                   q_search := JStr "  "; q_category := JStr "All" |} campus)
    as (Hcat & Hsearch & Hsort).
  split_and!.
  - exact (Hcat eq_refl).
  - exact (Hsearch "  " eq_refl eq_refl).
  - apply Hsort; discriminate.
Defined.

(** ** Rating status *)

Section RatingStatus.
Context `{Engine} `{Postgres}.

(** What a successful rating has checked and stored. *)
Lemma post_rating_inserted now (acting : identity) listingId body s :
  kind (post_rating now acting listingId body s) = Some Success →
  ∃ value l,
    pg_integer_in (field body "rating") = Some value
    ∧ rating_out_of_range (field body "rating") = Normal false
    ∧ listings s !! listingId = Some l
    ∧ filter (λ r, r_user_id r = userId acting) (ratings_of s listingId) = []
    ∧ ratings s !! ratings_id_seq s = None
    ∧ ratings (final_store (post_rating now acting listingId body s))
      = <[ratings_id_seq s :=
            {| r_listing_id := listingId; r_user_id := userId acting;
               r_rating := value;
               r_comment := js_or (field body "comment") JNull;
               r_created_at := now |}]> (ratings s).
Proof.
  unfold post_rating.
  destruct (rating_out_of_range _) as [[]|] eqn:Hrange; [done | | done].
  destruct (listings s !! listingId) as [l|] eqn:Hl; [|done].
  destruct (filter _ _) as [|r0 rest] eqn:Hex; [|done]. cbn [length].
  unfold insert_rating.
  destruct (ratings s !! ratings_id_seq s) eqn:Hk; [done|].
  destruct (pg_integer_in _) as [value|]; [|done].
  unfold update_aggregates_after_insert. cbn [listings]. rewrite Hl.
  destruct (AVG _) as [m|]; [|done].
  destruct (numeric_3_2 m) as [avg|]; [|done].
  intros _. exists value, l. by split_and!.
Qed.

Lemma rating_by_user_nil listingId user s :
  filter (λ r, r_user_id r = user) (ratings_of s listingId) = [] →
  get_rating_status {| userId := user; role := JUndefined |} listingId s
  = Sent {| code := 200; json := obj [("hasRated", JBool false)] |} s.
Proof.
  intros Hnil. unfold get_rating_status, rating_by_user. cbn [userId].
  by rewrite Hnil.
Qed.

Lemma get_rating_status_role (acting : identity) listingId s :
  get_rating_status acting listingId s
  = get_rating_status {| userId := userId acting; role := JUndefined |} listingId s.
Proof. reflexivity. Qed.

Lemma Number_or_0_integer z :
  Number_or_0 (JNum (num_Z z)) = Normal (JNum (num_Z z)).
Proof.
  unfold Number_or_0, js_or. cbn. unfold Qeqb0.
  destruct (Qeq_bool (inject_Z z) 0) eqn:E; cbn; [|done].
  apply Qeq_bool_iff in E. unfold Qeq in E. cbn in E.
  assert (z = 0) as -> by lia. done.
Qed.

Lemma get_rating_status_first (acting : identity) listingId s r rest :
  ratings_delivered →
  filter (λ r, r_user_id r = userId acting) (ratings_of s listingId) = r :: rest →
  get_rating_status acting listingId s
  = Sent {| code := 200;
            json := obj [("hasRated", JBool true);
                         ("previousRating", JNum (num_Z (r_rating r)))] |} s.
Proof.
  intros Hd Hrows. unfold get_rating_status, rating_by_user. rewrite Hrows.
  cbn [fmap list_fmap]. unfold field. rewrite lookup_singleton_eq.
  cbn [default from_option id].
  by rewrite Hd, Number_or_0_integer.
Qed.

Lemma has_rating_filter s listingId user :
  has_rating s listingId user
  ↔ filter (λ r, r_user_id r = user) (ratings_of s listingId) ≠ [].
Proof.
  unfold has_rating. split.
  - intros (r & Hin & Hu) Hnil.
    assert (r ∈ filter (λ r, r_user_id r = user) (ratings_of s listingId)) as Hf
      by (by apply list_elem_of_filter).
    rewrite Hnil in Hf. by apply elem_of_nil in Hf.
  - intros Hne. destruct (filter _ _) as [|r rest] eqn:E; [done|].
    assert (r ∈ filter (λ r, r_user_id r = user) (ratings_of s listingId)) as Hf
      by (rewrite E; apply list_elem_of_here).
    apply list_elem_of_filter in Hf as [Hu Hin]. by exists r.
Qed.
End RatingStatus.

(** X5.  The rating status agrees with the duplicate check of the rate
    operation: for a listing that exists and a value in range, the
    status says [hasRated: true] exactly when the user has a rating row
    on the listing, which is exactly when a rating by that user is
    refused as a duplicate. *)
Theorem rating_status_matches_duplicate_check `{Engine} `{Postgres} (now : Z)
    (acting : identity) (listingId : Z) (body : gmap string jsval) (s : store)
    (n : number) :
  ratings_delivered →
  field body "rating" = JNum n → in_range n → is_Some (listings s !! listingId) →
  (has_rating s listingId (userId acting)
   ↔ body_of (response_of (get_rating_status acting listingId s)) "hasRated" = JBool true)
  ∧ (body_of (response_of (get_rating_status acting listingId s)) "hasRated" = JBool true
     ↔ post_rating now acting listingId body s
       = Sent {| code := 400; json := message "You have already rated this listing" |} s).
Proof.
  intros Hd Hr Hn [l Hl].
  destruct (filter (λ r, r_user_id r = userId acting) (ratings_of s listingId))
    as [|r rest] eqn:Hrows.
  - rewrite get_rating_status_role, (rating_by_user_nil _ _ _ Hrows).
    rewrite has_rating_filter, Hrows.
    split; [split; done|]. split; [done|].
    unfold post_rating. rewrite Hr, (rating_in_range n Hn), Hl, Hrows. cbn [length].
    destruct (insert_rating _ _ _ _ _ _) as [s1|]; [|done].
    by destruct (update_aggregates_after_insert _ _).
  - rewrite (get_rating_status_first _ _ _ _ _ Hd Hrows).
    rewrite has_rating_filter, Hrows.
    split; [split; done|]. split; [|done]. intros _.
    unfold post_rating. by rewrite Hr, (rating_in_range n Hn), Hl, Hrows.
Qed.

Lemma in_range_5 : in_range (num_Z 5).
Proof. exists (inject_Z 5). split; [done|]. split; vm_compute; discriminate. Qed.

Lemma ratings_delivered_reference : @ratings_delivered reference_postgres.
Proof. intros z. reflexivity. Qed.

Lemma rating_status_matches_duplicate_check_witness :
  (has_rating rated_campus 1 (userId bob)
   ↔ body_of (response_of (get_rating_status bob 1 rated_campus)) "hasRated" = JBool true)
  ∧ (body_of (response_of (get_rating_status bob 1 rated_campus)) "hasRated" = JBool true
     ↔ post_rating 600 bob 1 (stars 5) rated_campus
       = Sent {| code := 400; json := message "You have already rated this listing" |}
              rated_campus).
Proof.
  assert (Hl : is_Some (listings rated_campus !! 1)) by (vm_compute; eauto).
  exact (@rating_status_matches_duplicate_check reference_engine reference_postgres
           600 bob 1 (stars 5) rated_campus (num_Z 5)
           ratings_delivered_reference eq_refl in_range_5 Hl).
Defined.

(** X6.  Rating and then asking for the status: before a successful
    rating the status of that user on that listing is [hasRated:
    false]; after it the status is [hasRated: true] with
    [previousRating] the value that was stored. *)
Theorem rating_status_after_rating `{Engine} `{Postgres} (now : Z) (acting : identity)
    (listingId : Z) (body : gmap string jsval) (s : store) :
  ratings_delivered →
  kind (post_rating now acting listingId body s) = Some Success →
  let s' := final_store (post_rating now acting listingId body s) in
  get_rating_status acting listingId s
  = Sent {| code := 200; json := obj [("hasRated", JBool false)] |} s
  ∧ ∃ value, pg_integer_in (field body "rating") = Some value
      ∧ get_rating_status acting listingId s'
        = Sent {| code := 200;
                  json := obj [("hasRated", JBool true);
                               ("previousRating", JNum (num_Z value))] |} s'.
Proof.
  intros Hd Hok. cbv zeta.
  destruct (post_rating_inserted now acting listingId body s Hok)
    as (value & l & Hv & _ & _ & Hnone & Hfresh & Hratings).
  split.
  - by rewrite get_rating_status_role, (rating_by_user_nil _ _ _ Hnone).
  - exists value. split; [done|].
    set (r := {| r_listing_id := listingId; r_user_id := userId acting;
                 r_rating := value;
                 r_comment := js_or (field body "comment") JNull;
                 r_created_at := now |}) in *.
    apply (get_rating_status_first acting listingId _ r []); [done|].
    unfold ratings_of. rewrite Hratings.
    apply Permutation_singleton_r.
    rewrite (rows_of_insert (ratings s) (ratings_id_seq s) r listingId Hfresh).
    rewrite decide_True by done. cbn [app].
    rewrite filter_cons, decide_True by done.
    unfold ratings_of in Hnone. by rewrite Hnone.
Qed.

Lemma rating_status_after_rating_witness :
  let s' := final_store (post_rating 501 bob 1 (stars 5) campus) in
  get_rating_status bob 1 campus
  = Sent {| code := 200; json := obj [("hasRated", JBool false)] |} campus
  ∧ ∃ value, reference_integer_in (field (stars 5) "rating") = Some value
      ∧ get_rating_status bob 1 s'
        = Sent {| code := 200;
                  json := obj [("hasRated", JBool true);
                               ("previousRating", JNum (num_Z value))] |} s'.
Proof.
  assert (Hok : kind (post_rating 501 bob 1 (stars 5) campus) = Some Success)
    by (vm_compute; reflexivity).
  exact (@rating_status_after_rating reference_engine reference_postgres
           501 bob 1 (stars 5) campus ratings_delivered_reference Hok).
Defined.

Lemma with_rating_aggregates_id cnt avg0 cnt' avg' (l : listing) :
  cnt = rating_count l → avg0 = average_rating l →
  with_rating_aggregates cnt avg0 (with_rating_aggregates cnt' avg' l) = l.
Proof. intros -> ->. by destruct l. Qed.

(** X7.  Rating a listing and then deleting that rating puts the
    catalog back: when the aggregates of the listing agreed with its
    rating rows before, the listings, the ratings and the users are
    afterwards what they were, the status of the user on the listing is
    [hasRated: false] again, and a new rating by the same user is not
    refused. *)
Theorem rate_then_delete_restores `{Engine} `{Postgres} (now : Z)
    (acting moderator : identity) (listingId : Z) (body : gmap string jsval)
    (s : store) :
  aggregates_consistent s listingId →
  kind (post_rating now acting listingId body s) = Some Success →
  let s1 := final_store (post_rating now acting listingId body s) in
  kind (delete_rating moderator (ratings_id_seq s) s1) = Some Success →
  let s2 := final_store (delete_rating moderator (ratings_id_seq s) s1) in
  listings s2 = listings s ∧ ratings s2 = ratings s ∧ users s2 = users s
  ∧ get_rating_status acting listingId s2
    = Sent {| code := 200; json := obj [("hasRated", JBool false)] |} s2
  ∧ ∀ now', kind (post_rating now' acting listingId body s2) ≠ Some ValidationError.
Proof.
  intros Hinv Hok. cbv zeta.
  destruct (post_rating_inserted now acting listingId body s Hok)
    as (value & l & Hv & Hrange & Hl & Hnone & Hfresh & Hratings).
  pose proof (post_rating_success now acting listingId body s Hok)
    as (l0 & r & Hl0 & _ & Hrl & Hru & Hs1).
  rewrite Hl in Hl0. injection Hl0 as <-.
  rewrite Hs1. intros Hdel.
  pose proof (delete_rating_success moderator (ratings_id_seq s) _ Hdel)
    as (r' & l' & Hr' & Hl' & Hs2).
  rewrite Hs2. cbn [ratings listings] in Hr', Hl'.
  rewrite lookup_insert_eq in Hr'. injection Hr' as <-.
  rewrite Hrl, lookup_insert_eq in Hl'. injection Hl' as <-.
  cbn [listings ratings users]. rewrite Hrl.
  rewrite delete_insert_eq, delete_id by done.
  assert (Hlist : <[listingId :=
                      with_rating_aggregates (COUNT (rows_of (ratings s) listingId))
                        (stored_average (rows_of (ratings s) listingId))
                        (with_rating_aggregates (rating_count l + 1)
                           (stored_average
                              (rows_of (<[ratings_id_seq s := r]> (ratings s)) listingId))
                           l)]>
                    (<[listingId :=
                         with_rating_aggregates (rating_count l + 1)
                           (stored_average
                              (rows_of (<[ratings_id_seq s := r]> (ratings s)) listingId))
                           l]> (listings s))
                  = listings s).
  { unfold aggregates_consistent in Hinv. rewrite Hl in Hinv.
    destruct Hinv as [Hcnt Havg]. unfold ratings_of in Hcnt, Havg.
    rewrite with_rating_aggregates_id by done.
    rewrite insert_insert_eq. by apply insert_id. }
  rewrite Hlist. split_and!; try done.
  - rewrite get_rating_status_role. by apply rating_by_user_nil.
  - intros now'. unfold post_rating. rewrite Hrange. cbn [listings]. rewrite Hl.
    unfold ratings_of in *. cbn [ratings]. rewrite Hnone. cbn [length].
    destruct (insert_rating _ _ _ _ _ _) as [s3|]; [|done].
    by destruct (update_aggregates_after_insert _ _).
Qed.

Lemma rate_then_delete_restores_witness :
  let s1 := final_store (post_rating 501 bob 1 (stars 5) campus) in
  let s2 := final_store (delete_rating alice (ratings_id_seq campus) s1) in
  listings s2 = listings campus ∧ ratings s2 = ratings campus ∧ users s2 = users campus
  ∧ get_rating_status bob 1 s2
    = Sent {| code := 200; json := obj [("hasRated", JBool false)] |} s2
  ∧ ∀ now', kind (post_rating now' bob 1 (stars 5) s2) ≠ Some ValidationError.
Proof.
  assert (Hinv : aggregates_consistent campus 1) by (vm_compute; split; reflexivity).
  assert (Hok : kind (post_rating 501 bob 1 (stars 5) campus) = Some Success)
    by (vm_compute; reflexivity).
  assert (Hdel : kind (delete_rating alice (ratings_id_seq campus)
                         (final_store (post_rating 501 bob 1 (stars 5) campus)))
                 = Some Success)
    by (vm_compute; reflexivity).
  exact (@rate_then_delete_restores reference_engine reference_postgres
           501 bob alice 1 (stars 5) campus Hinv Hok Hdel).
Defined.

(** X8.  Who may delete a rating: the answer is "not found" exactly
    when the rating, or the listing it references, does not exist, and
    a permission error exactly when both exist and the caller is
    neither the owner of the listing nor an admin; in both cases
    nothing changes.  Having written the rating gives no right to
    delete it. *)
Theorem delete_rating_authorization `{Engine} `{Postgres} (acting : identity)
    (ratingId : Z) (s : store) :
  let o := delete_rating acting ratingId s in
  (kind o = Some NotFound
   ↔ ¬ ∃ r l, ratings s !! ratingId = Some r ∧ listings s !! r_listing_id r = Some l)
  ∧ (kind o = Some PermissionError
     ↔ ∃ r l, ratings s !! ratingId = Some r ∧ listings s !! r_listing_id r = Some l
              ∧ userId acting ≠ user_id l ∧ role acting ≠ JStr "admin")
  ∧ (kind o = Some NotFound ∨ kind o = Some PermissionError → final_store o = s)
  ∧ (∀ r l, ratings s !! ratingId = Some r → listings s !! r_listing_id r = Some l →
       r_user_id r = userId acting → userId acting ≠ user_id l →
       role acting ≠ JStr "admin" →
       o = Sent {| code := 403;
                   json := message "Not authorized to delete this rating" |} s).
Proof.
  cbv zeta. unfold delete_rating.
  destruct (ratings s !! ratingId) as [r|] eqn:Hr; cbn [mbind option_bind].
  2:{ split_and!; try done.
      - split; [|done]. intros _ (r & l & ? & _). done.
      - split; [done|]. intros (r & l & ? & _). done. }
  destruct (listings s !! r_listing_id r) as [l|] eqn:Hl; cbn [mbind option_bind].
  2:{ split_and!; try done.
      - split; [|done]. intros _ (r' & l & [= <-] & Hl'). congruence.
      - split; [done|]. intros (r' & l & [= <-] & Hl' & _). congruence.
      - intros r' l [= <-] Hl'. congruence. }
  assert (Hadmin : strict_eq_str (role acting) "admin" = true ↔ role acting = JStr "admin")
    by apply strict_eq_str_true.
  assert (Hsome : ∃ r0 l0, Some r = Some r0 ∧ listings s !! r_listing_id r0 = Some l0)
    by eauto.
  destruct (userId acting =? user_id l) eqn:Ho;
    destruct (strict_eq_str (role acting) "admin") eqn:Ha; cbn [negb andb].
  4:{ assert (role acting ≠ JStr "admin") by (intros Hx; apply Hadmin in Hx; done).
      split_and!; try done.
      - split; [|done]. intros _. exists r, l. split_and!; [done | done | lia | done]. }
  all: cbv zeta; destruct (recompute_aggregates _ _) as [s2|]; cbn [kind kind_of code].
  all: split_and!; try done.
  all: try (split; [done|]; intros (r' & l' & Hr' & Hl' & Hne & Hrole);
            simplify_eq; first [lia | exfalso; apply Hrole; by apply Hadmin]).
  all: try (intros [|]; done).
  all: try (intros r' l' Hr' Hl' _ Hne Hrole; simplify_eq;
            first [lia | exfalso; apply Hrole; by apply Hadmin]).
Qed.

Lemma delete_rating_authorization_witness :
  delete_rating bob 1 rated_campus
  = Sent {| code := 403; json := message "Not authorized to delete this rating" |}
         rated_campus.
Proof.
  pose proof (@delete_rating_authorization reference_engine reference_postgres
                bob 1 rated_campus) as (_ & _ & _ & Hrater).
  cbv zeta in Hrater.
  apply (Hrater {| r_listing_id := 1; r_user_id := 2; r_rating := 5;
                   r_comment := JNull; r_created_at := 501 |}
                (with_rating_aggregates 3 (433 # 100)
                   (item 1 "approved" 100 "Lamp" (JStr "12.50")))).
  - vm_compute. reflexivity.
  - vm_compute. reflexivity.
  - reflexivity.
  - cbn. lia.
  - discriminate.
Defined.

(** ** The ratings a seller received *)

Section SellerRatings.
Context `{Engine} `{P : Postgres} `{!PostgresLaws P}.

Lemma elem_of_seller_ratings_join seller s id r l u :
  (id, r, l, u) ∈ seller_ratings_join seller s
  ↔ ratings s !! id = Some r ∧ listings s !! r_listing_id r = Some l
    ∧ user_id l = seller ∧ users s !! r_user_id r = Some u.
Proof.
  unfold seller_ratings_join. rewrite list_elem_of_omap. split.
  - intros ([id' r'] & Hin & Hrow). apply elem_of_map_to_list in Hin.
    destruct (listings s !! r_listing_id r') as [l'|] eqn:Hl; [|done].
    destruct (users s !! r_user_id r') as [u'|] eqn:Hu; [|done].
    destruct (user_id l' =? seller) eqn:Hs; [|done].
    simplify_eq. split_and!; [done | done | lia | done].
  - intros (Hr & Hl & Hs & Hu). exists (id, r).
    split; [by apply elem_of_map_to_list|].
    rewrite Hl, Hu. assert ((user_id l =? seller) = true) as -> by lia. done.
Qed.

Lemma seller_ratings_join_NoDup seller s :
  NoDup (seller_ratings_join seller s).*1.*1.*1.
Proof.
  assert (Hsub : (seller_ratings_join seller s).*1.*1.*1
                 `sublist_of` (map_to_list (ratings s)).*1).
  { unfold seller_ratings_join.
    induction (map_to_list (ratings s)) as [|[id r] rows IH]; [done|].
    cbn [omap list_omap].
    destruct (listings s !! r_listing_id r); [|by apply sublist_cons].
    destruct (users s !! r_user_id r); [|by apply sublist_cons].
    destruct (user_id _ =? seller); cbn; [by apply sublist_skip | by apply sublist_cons]. }
  eapply sublist_NoDup; [|exact Hsub]. apply NoDup_fst_map_to_list.
Qed.

Lemma seller_ratings_rows_sorted seller s :
  StronglySorted (λ a b, r_created_at b.1.1.2 ≤ r_created_at a.1.1.2)
    (seller_ratings_rows seller s).
Proof.
  eapply StronglySorted_weaken;
    [|apply (pg_sort_sorted _ newer_rating (seller_ratings_join seller s))].
  - intros a b Hab. unfold newer_rating in Hab. lia.
  - intros a b. unfold newer_rating. lia.
  - intros a b c. unfold newer_rating. lia.
Qed.
End SellerRatings.

(** X9.  The ratings of a seller are shown to the seller and to an
    admin only: any other caller gets a permission error.  A
    successful response lists, newest first and each once, exactly the
    ratings of the listings the seller owns whose rater still has an
    account, with [count] the number of items. *)
Theorem seller_ratings_listed `{Engine} `{P : Postgres} `{!PostgresLaws P}
    (acting : identity) (seller : Z) (s : store) :
  (userId acting ≠ seller → role acting ≠ JStr "admin" →
   get_seller_ratings acting seller s
   = Sent {| code := 403; json := message "Not authorized" |} s)
  ∧ (userId acting = seller ∨ role acting = JStr "admin" →
     ∀ r s', get_seller_ratings acting seller s = Sent r s' → code r = 200 →
       s' = s
       ∧ ∃ rows : list (Z * rating * listing * user),
           Forall2 (λ row item,
              ∃ o, clean_rating (seller_rating_row row) = Normal o ∧ item = JObj o)
             rows (data_of r)
           ∧ body_of r "count" = JNum (num_Z (Z.of_nat (length rows)))
           ∧ NoDup rows.*1.*1.*1
           ∧ StronglySorted (λ a b, r_created_at b.1.1.2 ≤ r_created_at a.1.1.2) rows
           ∧ ∀ id rt l u, (id, rt, l, u) ∈ rows
               ↔ ratings s !! id = Some rt ∧ listings s !! r_listing_id rt = Some l
                 ∧ user_id l = seller ∧ users s !! r_user_id rt = Some u).
Proof.
  split.
  - intros Hne Hrole. unfold get_seller_ratings.
    assert ((userId acting =? seller) = false) as -> by lia.
    destruct (strict_eq_str (role acting) "admin") eqn:Ha; [|done].
    by apply strict_eq_str_true in Ha.
  - intros Hmay r s' Hr Hc. unfold get_seller_ratings in Hr.
    assert (negb (userId acting =? seller)
            && negb (strict_eq_str (role acting) "admin") = false) as Hguard.
    { destruct Hmay as [-> | Hrole].
      - by rewrite Z.eqb_refl.
      - apply strict_eq_str_true in Hrole. rewrite Hrole. apply andb_false_r. }
    rewrite Hguard in Hr.
    destruct (mapM _ _) as [cleaned|] eqn:HM; [|by simplify_eq/=].
    injection Hr as <- <-. split; [done|].
    exists (seller_ratings_rows seller s).
    apply mapM_Normal in HM. apply Forall2_fmap_l in HM.
    split_and!.
    + assert (data_of {| code := 200;
                json := obj [("status", JStr "success");
                             ("count", JNum (num_Z (Z.of_nat (length cleaned))));
                             ("data", rows_json cleaned)] |} = JObj <$> cleaned) as ->
        by reflexivity.
      apply Forall2_fmap_r. eapply Forall2_impl; [exact HM|]. cbn. eauto.
    + rewrite (Forall2_length _ _ _ HM). reflexivity.
    + unfold seller_ratings_rows.
      rewrite (pg_sort_perm _ newer_rating (seller_ratings_join seller s)).
      apply seller_ratings_join_NoDup.
    + apply seller_ratings_rows_sorted.
    + intros id rt l u. unfold seller_ratings_rows.
      rewrite (pg_sort_perm _ newer_rating (seller_ratings_join seller s)).
      apply elem_of_seller_ratings_join.
Qed.

Lemma seller_ratings_listed_witness :
  get_seller_ratings bob 1 rated_campus
  = Sent {| code := 403; json := message "Not authorized" |} rated_campus
  ∧ ∃ rows : list (Z * rating * listing * user),
      body_of (response_of (get_seller_ratings alice 1 rated_campus)) "count"
      = JNum (num_Z (Z.of_nat (length rows)))
      ∧ StronglySorted (λ a b, r_created_at b.1.1.2 ≤ r_created_at a.1.1.2) rows.
Proof.
  pose proof (@seller_ratings_listed reference_engine reference_postgres
                reference_postgres_laws bob 1 rated_campus) as [Hdenied _].
  pose proof (@seller_ratings_listed reference_engine reference_postgres
                reference_postgres_laws alice 1 rated_campus) as [_ Hshown].
  split.
  - apply Hdenied; [cbn; lia | discriminate].
  - assert (Hk : kind (get_seller_ratings alice 1 rated_campus) = Some Success)
      by (vm_compute; reflexivity).
    assert (Hc : code (response_of (get_seller_ratings alice 1 rated_campus)) = 200)
      by (vm_compute; reflexivity).
    destruct (Hshown (or_introl eq_refl) _ _ (kind_Sent _ _ Hk) Hc)
      as (_ & rows & _ & Hcount & _ & Hsorted & _).
    exists rows. by split.
Defined.

(** ** Counts that arrive as text *)

Lemma digit_value_pretty_N_char (m : N) :
  (m < 10)%N → digit_value (pretty_N_char m) = Some (Z.of_N m).
Proof.
  intros Hm.
  assert (m = 0 ∨ m = 1 ∨ m = 2 ∨ m = 3 ∨ m = 4 ∨ m = 5 ∨ m = 6 ∨ m = 7 ∨ m = 8
          ∨ m = 9)%N as Hcases by lia.
  repeat (destruct Hcases as [-> | Hcases]; [reflexivity|]). by subst.
Qed.

(** Reading back the digits that [pretty] wrote. *)
Lemma parse_digits_pretty_N_go (x : N) :
  (0 < x)%N →
  ∃ k, ∀ s acc,
    parse_digits 10 (pretty_N_go x s) acc
    = parse_digits 10 s (Some (default 0 acc * k + Z.of_N x)).
Proof.
  induction (N.lt_wf_0 x) as [x _ IH]. intros Hx.
  assert (Hd : digit_value (pretty_N_char (x `mod` 10)) = Some (Z.of_N (x `mod` 10)))
    by (apply digit_value_pretty_N_char, N.mod_lt; lia).
  assert (Hlt : (Z.of_N (x `mod` 10) <? 10) = true).
  { apply Z.ltb_lt. pose proof (N.mod_lt x 10). lia. }
  destruct (decide (x `div` 10 = 0)%N) as [Hz | Hnz].
  - exists 10. intros s acc. rewrite pretty_N_go_step, Hz, pretty_N_go_0 by done.
    cbn [parse_digits]. rewrite Hd, Hlt. do 3 f_equal.
    pose proof (N.div_mod x 10 ltac:(lia)) as Hdm.
    rewrite Hz, N.mul_0_r, N.add_0_l in Hdm. by rewrite <- Hdm.
  - destruct (IH (x `div` 10)%N) as [k Hk].
    { apply N.div_lt; lia. }
    { by apply N.neq_0_lt_0. }
    exists (k * 10). intros s acc. rewrite pretty_N_go_step, Hk by done.
    cbn [parse_digits]. rewrite Hd, Hlt. cbn [default from_option id]. do 2 f_equal.
    pose proof (N.div_mod x 10 ltac:(lia)) as Hdm.
    assert (Z.of_N x = 10 * Z.of_N (x `div` 10) + Z.of_N (x `mod` 10)) as ->.
    { rewrite Hdm at 1. by rewrite N2Z.inj_add, N2Z.inj_mul. }
    ring.
Qed.

(** The text of a positive number starts with a digit from 1 to 9. *)
Lemma pretty_N_go_head (x : N) s :
  (0 < x)%N →
  ∃ m rest, (1 ≤ m < 10)%N ∧ pretty_N_go x s = String (pretty_N_char m) rest.
Proof.
  revert s. induction (N.lt_wf_0 x) as [x _ IH]. intros s Hx.
  rewrite pretty_N_go_step by done.
  destruct (decide (x `div` 10 = 0)%N) as [Hz | Hnz].
  - rewrite Hz, pretty_N_go_0. exists (x `mod` 10)%N, s. split; [|done].
    pose proof (N.div_mod x 10 ltac:(lia)) as Hdm.
    rewrite Hz, N.mul_0_r, N.add_0_l in Hdm. rewrite <- Hdm.
    split; [lia|]. rewrite Hdm. apply N.mod_lt. lia.
  - apply IH; [apply N.div_lt; lia | by apply N.neq_0_lt_0].
Qed.

Lemma parseInt_pretty `{Engine} (z : Z) :
  0 ≤ z → parseInt (JStr (pretty z)) = Normal (Some z).
Proof.
  intros Hz. destruct z as [|p|p]; [reflexivity | | lia].
  unfold parseInt. cbn [ToString mbind completion_bind].
  change (pretty (Z.pos p)) with (pretty_N_go (N.pos p) "").
  destruct (pretty_N_go_head (N.pos p) "" ltac:(lia)) as (m & rest & Hm & Hhead).
  destruct (parse_digits_pretty_N_go (N.pos p) ltac:(lia)) as [k Hk].
  specialize (Hk "" None). cbn [parse_digits default from_option id] in Hk.
  assert (Hstrip : strip_sign (trimStart (pretty_N_go (N.pos p) ""))
                   = (1, pretty_N_go (N.pos p) "")
                   ∧ strip_radix (pretty_N_go (N.pos p) "")
                     = (10, pretty_N_go (N.pos p) "")).
  { rewrite Hhead.
    assert (m = 1 ∨ m = 2 ∨ m = 3 ∨ m = 4 ∨ m = 5 ∨ m = 6 ∨ m = 7 ∨ m = 8 ∨ m = 9)%N
      as Hcases by lia.
    repeat (destruct Hcases as [-> | Hcases]; [split; reflexivity|]).
    subst. split; reflexivity. }
  destruct Hstrip as [Hsign Hradix].
  rewrite Hsign. cbv beta iota. rewrite Hradix. cbv beta iota. rewrite Hk.
  cbn [fmap option_fmap option_map]. do 2 f_equal.
Qed.

(** ** Popular categories *)

Section PopularFacts.
Context `{Engine} `{P : Postgres} `{!PostgresLaws P} `{PostgresText}.

Lemma popular_item_row (row : string * Z) :
  0 ≤ row.2 → popular_item (popular_row row) = Normal (popular_entry row).
Proof.
  intros Hn. unfold popular_item, popular_row, popular_entry, field.
  cbn [list_to_map foldr curry fst snd uncurry].
  rewrite (lookup_insert_ne _ "category" "count") by done.
  rewrite !lookup_insert_eq. cbn [default from_option id].
  by rewrite (parseInt_pretty row.2 Hn).
Qed.

Lemma mapM_popular_item (rows : list (string * Z)) :
  Forall (λ row, 0 ≤ row.2) rows →
  mapM popular_item (popular_row <$> rows) = Normal (popular_entry <$> rows).
Proof.
  induction 1 as [|row rows Hrow _ IH]; [done|].
  cbn [fmap list_fmap mapM]. fold (popular_row <$> rows).
  fold (popular_entry <$> rows).
  rewrite (popular_item_row row Hrow). cbn [mbind completion_bind].
  by rewrite IH.
Qed.

Lemma count_approved_categories s c :
  c ≠ "" →
  Z.of_nat (length (filter (λ x, x = c) (approved_categories s))) = listings_in s c.
Proof.
  intros Hc. unfold approved_categories, listings_in. f_equal.
  induction (map_to_list (listings s)) as [|[id l] rows IH]; [done|].
  cbn [omap list_omap]. rewrite (filter_cons _ (id, l)). cbn [fst snd].
  destruct (String.eqb (status l) "approved") eqn:Hs.
  - apply String.eqb_eq in Hs.
    destruct (pg_text (cell id l "category")) as [category|] eqn:Ht.
    + destruct (String.eqb category "") eqn:He.
      * apply String.eqb_eq in He as ->.
        rewrite decide_False by (intros [_ [= <-]]; done). exact IH.
      * rewrite filter_cons.
        destruct (decide (category = c)) as [-> | Hne].
        -- rewrite decide_True by done. cbn [length]. f_equal. exact IH.
        -- rewrite decide_False by (intros [_ [= ?]]; done). exact IH.
    + rewrite decide_False by (intros [_ [=]]). exact IH.
  - rewrite decide_False; [exact IH|].
    intros [Hst _]. rewrite Hst in Hs. done.
Qed.

Lemma elem_of_approved_categories s c :
  c ∈ approved_categories s ↔ c ≠ "" ∧ 0 < listings_in s c.
Proof.
  split.
  - intros Hin.
    assert (Hc : c ≠ "").
    { unfold approved_categories in Hin.
      apply list_elem_of_omap in Hin as ([id l] & _ & Hrow).
      destruct (String.eqb (status l) "approved"); [|done].
      destruct (pg_text _) as [category|]; [|done].
      destruct (String.eqb category "") eqn:He; [done|].
      injection Hrow as ->. intros ->. done. }
    split; [done|]. rewrite <- (count_approved_categories s c Hc).
    assert (Hf : c ∈ filter (λ x, x = c) (approved_categories s))
      by (by apply list_elem_of_filter).
    destruct (filter _ _); [by apply elem_of_nil in Hf | cbn; lia].
  - intros [Hc Hpos]. rewrite <- (count_approved_categories s c Hc) in Hpos.
    destruct (filter (λ x, x = c) (approved_categories s)) as [|x rest] eqn:E;
      [cbn in Hpos; lia|].
    assert (Hf : x ∈ filter (λ x, x = c) (approved_categories s))
      by (rewrite E; apply list_elem_of_here).
    apply list_elem_of_filter in Hf as [-> Hin]. done.
Qed.

Lemma elem_of_group_by_count (categories : list string) c n :
  (c, n) ∈ group_by_count categories
  ↔ c ∈ categories ∧ n = Z.of_nat (length (filter (λ x, x = c) categories)).
Proof.
  unfold group_by_count. rewrite list_elem_of_fmap. split.
  - intros (c' & [= -> ->] & Hin). rewrite elem_of_remove_dups in Hin. by split.
  - intros [Hin ->]. exists c. split; [done|]. by rewrite elem_of_remove_dups.
Qed.

Lemma group_by_count_NoDup (categories : list string) :
  NoDup (group_by_count categories).*1.
Proof.
  unfold group_by_count.
  assert (Hkeys : ∀ l : list string,
            ((λ c, (c, Z.of_nat (length (filter (λ x, x = c) categories)))) <$> l).*1
            = l).
  { induction l as [|c l IH]; [done|]. cbn. by rewrite IH. }
  rewrite Hkeys. apply NoDup_remove_dups.
Qed.

Lemma more_listings_sorted (rows : list (string * Z)) :
  StronglySorted (λ a b, b.2 ≤ a.2) (pg_sort more_listings rows).
Proof.
  eapply StronglySorted_weaken; [|apply (pg_sort_sorted _ more_listings rows)].
  - intros a b Hab. unfold more_listings in Hab. lia.
  - intros a b. unfold more_listings. lia.
  - intros a b c. unfold more_listings. lia.
Qed.
End PopularFacts.

(** X10.  The popular categories: the route always answers 200 with at
    most ten entries, one for each of ten distinct, non-empty
    categories, each with the number of approved listings in that
    category, largest first; and a category with approved listings is
    missing only when ten others are shown, none of which has fewer
    listings. *)
Theorem popular_categories_top_ten `{Engine} `{P : Postgres} `{!PostgresLaws P}
    `{PostgresText} (s : store) :
  ∃ rows : list (string * Z),
    get_popular_categories s
    = Sent {| code := 200;
              json := obj [("status", JStr "success");
                           ("data", rows_json (popular_entry <$> rows))] |} s
    ∧ (length rows ≤ 10)%nat
    ∧ NoDup rows.*1
    ∧ StronglySorted (λ a b, b.2 ≤ a.2) rows
    ∧ (∀ c n, (c, n) ∈ rows → c ≠ "" ∧ 0 < n ∧ n = listings_in s c)
    ∧ (∀ c, c ≠ "" → 0 < listings_in s c → c ∉ rows.*1 →
         length rows = 10%nat ∧ ∀ c' n', (c', n') ∈ rows → listings_in s c ≤ n').
Proof.
  set (groups := group_by_count (approved_categories s)).
  set (sorted := pg_sort more_listings groups).
  assert (Hperm : sorted ≡ₚ groups) by apply pg_sort_perm.
  assert (Hgroup : ∀ c n, (c, n) ∈ sorted ↔ c ≠ "" ∧ 0 < n ∧ n = listings_in s c).
  { intros c n. rewrite Hperm. unfold groups.
    rewrite elem_of_group_by_count, elem_of_approved_categories. split.
    - intros [[Hc Hpos] ->]. rewrite (count_approved_categories s c Hc). done.
    - intros (Hc & Hpos & ->). rewrite (count_approved_categories s c Hc). done. }
  assert (Hsorted : StronglySorted (λ a b : string * Z, b.2 ≤ a.2) sorted)
    by apply more_listings_sorted.
  assert (Hsplit : sorted = take 10 sorted ++ drop 10 sorted)
    by (by rewrite take_drop).
  exists (take 10 sorted). split_and!.
  - unfold get_popular_categories, popular_rows. fold groups sorted.
    rewrite mapM_popular_item; [done|].
    apply Forall_forall. intros [c n] Hin. cbn.
    apply elem_of_take in Hin as (i & Hi & _).
    apply list_elem_of_lookup_2, Hgroup in Hi. lia.
  - rewrite length_take. lia.
  - eapply sublist_NoDup; [|apply fmap_sublist, sublist_take].
    rewrite Hperm. apply group_by_count_NoDup.
  - rewrite Hsplit in Hsorted. by apply StronglySorted_app_1_l in Hsorted.
  - intros c n Hin. apply Hgroup.
    eapply elem_of_sublist; [exact Hin | apply sublist_take].
  - intros c Hc Hpos Hout.
    assert (Hin : (c, listings_in s c) ∈ sorted) by (by apply Hgroup).
    rewrite Hsplit in Hin. apply elem_of_app in Hin as [Hin | Hin].
    { exfalso. apply Hout. apply list_elem_of_fmap. by exists (c, listings_in s c). }
    split.
    + rewrite length_take. destruct (decide (10 ≤ length sorted)%nat); [lia|].
      rewrite drop_ge in Hin by lia. by apply elem_of_nil in Hin.
    + intros c' n' Hin'. rewrite Hsplit in Hsorted.
      exact (StronglySorted_app_1_elem_of _ _ _ _ _ Hsorted Hin' Hin).
Qed.

Lemma popular_categories_top_ten_witness :
  ∃ rows : list (string * Z),
    get_popular_categories campus
    = Sent {| code := 200;
              json := obj [("status", JStr "success");
                           ("data", rows_json (popular_entry <$> rows))] |} campus
    ∧ (length rows ≤ 10)%nat
    ∧ NoDup rows.*1
    ∧ StronglySorted (λ a b, b.2 ≤ a.2) rows
    ∧ (∀ c n, (c, n) ∈ rows → c ≠ "" ∧ 0 < n ∧ n = listings_in campus c)
    ∧ (∀ c, c ≠ "" → 0 < listings_in campus c → c ∉ rows.*1 →
         length rows = 10%nat ∧ ∀ c' n', (c', n') ∈ rows → listings_in campus c ≤ n').
Proof.
  exact (@popular_categories_top_ten reference_engine reference_postgres
           reference_postgres_laws reference_postgres_text campus).
Defined.

(** On the sample catalog the three approved listings are all books. *)
Example popular_categories_on_campus :
  data_of (response_of (get_popular_categories campus))
  = [obj [("category", JStr "Books"); ("count", JNum (num_Z 3))]].
Proof. vm_compute. reflexivity. Qed.

(** ** The moderation queue *)

Section Queue.
Context `{P : Postgres} `{!PostgresLaws P}.

Lemma elem_of_listings_where s cond id l :
  (id, l) ∈ listings_where s cond ↔ listings s !! id = Some l ∧ cond id l = true.
Proof.
  unfold listings_where. rewrite list_elem_of_filter, elem_of_map_to_list.
  split; intros [? ?]; by split.
Qed.

Lemma listings_where_NoDup s cond : NoDup (listings_where s cond).*1.
Proof.
  apply (sublist_NoDup _ (map_to_list (listings s)).*1);
    [apply NoDup_fst_map_to_list|].
  unfold listings_where. apply fmap_sublist, sublist_filter.
Qed.

Lemma elem_of_pending_rows s id l :
  (id, l) ∈ pending_rows s ↔ listings s !! id = Some l ∧ status l = "pending".
Proof.
  unfold pending_rows. rewrite (pg_sort_perm _ _ (listings_where s _)).
  rewrite elem_of_listings_where. by rewrite String.eqb_eq.
Qed.
End Queue.

(** X11.  The moderation queue, for every authenticated caller, admin
    or not: the answer is 200 and lists, newest first and each once,
    exactly the listings whose status is [pending], with [count] their
    number. *)
Theorem pending_queue_listed `{P : Postgres} `{!PostgresLaws P} (acting : identity)
    (s : store) :
  ∃ rows : list (Z * listing),
    get_pending acting s
    = Sent {| code := 200;
              json := obj [("status", JStr "success");
                           ("count", JNum (num_Z (Z.of_nat (length rows))));
                           ("data",
                            rows_json ((λ '(id, l), select pending_columns id l)
                                         <$> rows))] |} s
    ∧ NoDup rows.*1
    ∧ StronglySorted (λ a b, created_at b.2 ≤ created_at a.2) rows
    ∧ ∀ id l, (id, l) ∈ rows ↔ listings s !! id = Some l ∧ status l = "pending".
Proof.
  exists (pending_rows s). split_and!.
  - unfold get_pending. cbv zeta. by rewrite length_fmap.
  - unfold pending_rows. rewrite (pg_sort_perm _ _ (listings_where s _)).
    apply listings_where_NoDup.
  - unfold pending_rows.
    eapply StronglySorted_weaken;
      [|apply (pg_sort_sorted _ (λ a b : Z * listing, order_le created_at_DESC a.2 b.2))].
    + intros a b Hab. cbn in Hab. lia.
    + intros a b. apply order_le_total.
    + intros a b c. apply order_le_trans.
  - apply elem_of_pending_rows.
Qed.

Lemma pending_queue_listed_witness :
  ∃ rows : list (Z * listing),
    get_pending bob campus
    = Sent {| code := 200;
              json := obj [("status", JStr "success");
                           ("count", JNum (num_Z (Z.of_nat (length rows))));
                           ("data",
                            rows_json ((λ '(id, l), select pending_columns id l)
                                         <$> rows))] |} campus
    ∧ NoDup rows.*1
    ∧ StronglySorted (λ a b, created_at b.2 ≤ created_at a.2) rows
    ∧ ∀ id l, (id, l) ∈ rows ↔ listings campus !! id = Some l ∧ status l = "pending".
Proof.
  exact (@pending_queue_listed reference_postgres reference_postgres_laws bob campus).
Defined.

(** ** Creating a listing *)

Section Create.
Context `{Engine} `{P : Postgres}.

Lemma positive_number p :
  num_isNaN p = false → num_le p (num_Z 0) = false → num_lt (num_Z 0) p = true.
Proof.
  destruct p as [|q| |]; cbn; try done.
  unfold Qltb. by intros _ ->.
Qed.

Lemma filter_variants_sublist (variants kept : list jsval) :
  filter_variants variants = Normal kept → kept `sublist_of` variants.
Proof.
  revert kept. induction variants as [|v variants IH]; intros kept; cbn [filter_variants].
  - by intros [= <-].
  - intros (keep & _ & Hk)%bind_Normal.
    apply bind_Normal in Hk as (rest & Hrest & Hk). injection Hk as <-.
    destruct keep; [apply sublist_skip | apply sublist_cons]; by apply IH.
Qed.

(** What a create that answers 201 has checked and stored. *)
Lemma post_listing_success now (acting : identity) body s :
  kind (post_listing now acting body s) = Some Success →
  ∃ t p n variants kept,
    field body "title" = JStr t ∧ trim t ≠ ""
    ∧ ToNumber (field body "price") = Normal p ∧ num_lt (num_Z 0) p = true
    ∧ ToNumber (field_default body "stock_quantity" (JNum (num_Z 1))) = Normal n
    ∧ num_lt n (num_Z 1) = false
    ∧ field_default body "variants" (JArr []) = JArr variants
    ∧ filter_variants variants = Normal kept
    ∧ listings s !! listings_id_seq s = None
    ∧ final_store (post_listing now acting body s)
      = {| listings :=
             <[listings_id_seq s :=
                 {| user_id := userId acting; status := "pending";
                    average_rating := 0; rating_count := 0; created_at := now;
                    content :=
                      list_to_map
                        [("title", JStr (trim t));
                         ("description", js_or (field body "description") JNull);
                         ("price", field body "price");
                         ("condition",
                          field_default body "condition" (JStr "Used - Good"));
                         ("whatsapp_phone", js_or (field body "whatsapp_phone") JNull);
                         ("image_urls", field_default body "image_urls" (JArr []));
                         ("stock_quantity",
                          field_default body "stock_quantity" (JNum (num_Z 1)));
                         ("category", field_default body "category" (JStr "Other"));
                         ("variants", JArr kept)] |}]> (listings s);
           ratings := ratings s;
           users := users s;
           ratings_id_seq := ratings_id_seq s;
           listings_id_seq := listings_id_seq s + 1 |}.
Proof.
  unfold post_listing. cbv zeta.
  destruct (optional_trim (field body "title")) as [trimmed|] eqn:Htitle; [|done].
  cbn [mbind completion_bind].
  destruct (truthy trimmed) eqn:Htruthy; [|done]. cbn [negb].
  assert (∃ t, field body "title" = JStr t ∧ trimmed = JStr (trim t)) as (t & Ht & ->).
  { destruct (field body "title") as [| | | |t| |]; cbn in Htitle; try done;
      try (injection Htitle as <-; done).
    injection Htitle as <-. eauto. }
  assert (Hne : trim t ≠ "").
  { cbn in Htruthy. apply negb_true_iff in Htruthy. intros Heq. rewrite Heq in Htruthy.
    done. }
  destruct (truthy (field body "price")) eqn:Hprice; [|done]. cbn [negb].
  unfold isNaN, js_le, js_lt.
  destruct (ToNumber (field body "price")) as [p|] eqn:Hp; [|done].
  cbn [mbind completion_bind].
  destruct (num_isNaN p) eqn:Hnan; [done|].
  destruct (num_le p (num_Z 0)) eqn:Hle; [done|].
  destruct (ToNumber (field_default body "stock_quantity" (JNum (num_Z 1))))
    as [n|] eqn:Hn; [|done].
  cbn [mbind completion_bind].
  destruct (num_lt n (num_Z 1)) eqn:Hstock; [done|].
  destruct (field_default body "variants" (JArr [])) as [| | | | |variants|] eqn:Hv;
    try done.
  destruct (filter_variants variants) as [kept|] eqn:Hkept; [|done].
  cbn [mbind completion_bind]. rewrite Ht. cbn [call_trim mbind completion_bind].
  unfold insert_listing.
  destruct (listings s !! listings_id_seq s) eqn:Hfresh; [done|].
  intros _. exists t, p, n, variants, kept.
  split_and!; try done. by apply positive_number.
Qed.
End Create.

Lemma post_listing_cases `{Engine} `{Postgres} now (acting : identity) body s :
  final_store (post_listing now acting body s) = s
  ∨ kind (post_listing now acting body s) = Some Success.
Proof.
  unfold post_listing. cbv zeta.
  destruct (optional_trim (field body "title")) as [trimmed|]; [|by left].
  cbn [mbind completion_bind].
  destruct (negb (truthy trimmed)); [by left|].
  destruct (negb (truthy (field body "price"))); [by left|].
  destruct (isNaN (field body "price")) as [[]|]; [by left | | by left].
  cbn [mbind completion_bind].
  destruct (js_le (field body "price") (num_Z 0)) as [[]|]; [by left | | by left].
  cbn [mbind completion_bind].
  destruct (js_lt _ (num_Z 1)) as [[]|]; [by left | | by left].
  cbn [mbind completion_bind].
  destruct (field_default body "variants" (JArr [])); try (by left).
  destruct (filter_variants _); [|by left]. cbn [mbind completion_bind].
  destruct (call_trim _); [|by left]. cbn [mbind completion_bind].
  destruct (insert_listing _ _ _ _) as [[[id l0] s']|]; [by right | by left].
Qed.

(** X12.  Creating a listing: unless the answer is 201 the store is
    unchanged; with 201 exactly one listing was added, under a fresh id,
    owned by the caller, with status [pending], no ratings counted and
    the creation time of the store, while the other listings, the
    ratings and the users are as before.  The new listing is in the
    moderation queue and the public fetch does not find it. *)
Theorem post_listing_creates_pending `{Engine} `{P : Postgres} `{!PostgresLaws P}
    (now : Z) (acting : identity) (body : gmap string jsval) (s : store) :
  let o := post_listing now acting body s in
  (kind o ≠ Some Success → final_store o = s)
  ∧ (kind o = Some Success →
     ∃ l, listings s !! listings_id_seq s = None
       ∧ listings (final_store o) = <[listings_id_seq s := l]> (listings s)
       ∧ ratings (final_store o) = ratings s
       ∧ users (final_store o) = users s
       ∧ user_id l = userId acting ∧ status l = "pending"
       ∧ rating_count l = 0 ∧ average_rating l = 0%Q ∧ created_at l = now
       ∧ (listings_id_seq s, l) ∈ pending_rows (final_store o)
       ∧ kind (get_listing (listings_id_seq s) (final_store o)) = Some NotFound).
Proof.
  cbv zeta. split.
  - intros Hk. by destruct (post_listing_cases now acting body s).
  - intros Hok.
    destruct (post_listing_success now acting body s Hok)
      as (t & p & n & variants & kept & _ & _ & _ & _ & _ & _ & _ & _ & Hfresh & Hs').
    rewrite Hs'. eexists. split_and!; try done.
    + apply elem_of_pending_rows. cbn [listings]. by rewrite lookup_insert_eq.
    + unfold get_listing.
      assert (listing_query (listings_id_seq s)
                {| listings := <[listings_id_seq s := _]> (listings s);
                   ratings := ratings s; users := users s;
                   ratings_id_seq := ratings_id_seq s;
                   listings_id_seq := listings_id_seq s + 1 |} = []) as ->; [|done].
      apply listing_query_nil. intros (l0 & u & Hl & Hst & _).
      cbn [listings] in Hl. rewrite lookup_insert_eq in Hl. injection Hl as <-. done.
Qed.

Lemma post_listing_creates_pending_witness :
  let o := post_listing 600 bob bike campus in
  ∃ l, listings campus !! listings_id_seq campus = None
    ∧ listings (final_store o) = <[listings_id_seq campus := l]> (listings campus)
    ∧ ratings (final_store o) = ratings campus
    ∧ users (final_store o) = users campus
    ∧ user_id l = userId bob ∧ status l = "pending"
    ∧ rating_count l = 0 ∧ average_rating l = 0%Q ∧ created_at l = 600
    ∧ (listings_id_seq campus, l) ∈ pending_rows (final_store o)
    ∧ kind (get_listing (listings_id_seq campus) (final_store o)) = Some NotFound.
Proof.
  assert (Hok : kind (post_listing 600 bob bike campus) = Some Success)
    by (vm_compute; reflexivity).
  exact (proj2 (@post_listing_creates_pending reference_engine reference_postgres
                  reference_postgres_laws 600 bob bike campus) Hok).
Defined.

(** X13.  What a created listing holds: its title is the title sent, a
    string, trimmed and not empty; its price is the value sent, which
    converts to a number above 0; its stock quantity (1 when none was
    sent) converts to a number that is not below 1, or to NaN; its
    variants are a sub-sequence of the array sent; description and
    contact are NULL when not given, and condition, category and images
    take their defaults when absent. *)
Theorem post_listing_stores_validated_fields `{Engine} `{Postgres} (now : Z)
    (acting : identity) (body : gmap string jsval) (s : store) :
  kind (post_listing now acting body s) = Some Success →
  ∃ l, listings (final_store (post_listing now acting body s)) !! listings_id_seq s
       = Some l
    ∧ (∃ t, field body "title" = JStr t ∧ trim t ≠ ""
            ∧ content l !! "title" = Some (JStr (trim t)))
    ∧ (∃ p, content l !! "price" = Some (field body "price")
            ∧ ToNumber (field body "price") = Normal p
            ∧ num_lt (num_Z 0) p = true)
    ∧ (∃ stock n, content l !! "stock_quantity" = Some stock
            ∧ stock = field_default body "stock_quantity" (JNum (num_Z 1))
            ∧ ToNumber stock = Normal n ∧ num_lt n (num_Z 1) = false)
    ∧ (∃ variants kept, field_default body "variants" (JArr []) = JArr variants
            ∧ content l !! "variants" = Some (JArr kept)
            ∧ kept `sublist_of` variants)
    ∧ content l !! "description" = Some (js_or (field body "description") JNull)
    ∧ content l !! "whatsapp_phone" = Some (js_or (field body "whatsapp_phone") JNull)
    ∧ content l !! "condition"
      = Some (field_default body "condition" (JStr "Used - Good"))
    ∧ content l !! "category" = Some (field_default body "category" (JStr "Other"))
    ∧ content l !! "image_urls" = Some (field_default body "image_urls" (JArr [])).
Proof.
  intros Hok.
  destruct (post_listing_success now acting body s Hok)
    as (t & p & n & variants & kept
        & Ht & Hne & Hp & Hpos & Hn & Hstock & Hv & Hkept & Hfresh & Hs').
  rewrite Hs'. cbn [listings]. rewrite lookup_insert_eq.
  eexists. split; [reflexivity|]. cbn [content].
  split_and!.
  - exists t. split_and!; [done | done | reflexivity].
  - exists p. split_and!; [reflexivity | done | done].
  - eexists _, n. split_and!; [reflexivity | reflexivity | done | done].
  - exists variants, kept. split_and!; [done | reflexivity |].
    by apply filter_variants_sublist.
  - reflexivity.
  - reflexivity.
  - reflexivity.
  - reflexivity.
  - reflexivity.
Qed.

Lemma post_listing_stores_validated_fields_witness :
  ∃ l, listings (final_store (post_listing 600 bob bike campus)) !! listings_id_seq campus
       = Some l
    ∧ (∃ t, field bike "title" = JStr t ∧ trim t ≠ ""
            ∧ content l !! "title" = Some (JStr (trim t)))
    ∧ (∃ p, content l !! "price" = Some (field bike "price")
            ∧ ToNumber (field bike "price") = Normal p
            ∧ num_lt (num_Z 0) p = true)
    ∧ (∃ stock n, content l !! "stock_quantity" = Some stock
            ∧ stock = field_default bike "stock_quantity" (JNum (num_Z 1))
            ∧ ToNumber stock = Normal n ∧ num_lt n (num_Z 1) = false)
    ∧ (∃ variants kept, field_default bike "variants" (JArr []) = JArr variants
            ∧ content l !! "variants" = Some (JArr kept)
            ∧ kept `sublist_of` variants)
    ∧ content l !! "description" = Some (js_or (field bike "description") JNull)
    ∧ content l !! "whatsapp_phone" = Some (js_or (field bike "whatsapp_phone") JNull)
    ∧ content l !! "condition"
      = Some (field_default bike "condition" (JStr "Used - Good"))
    ∧ content l !! "category" = Some (field_default bike "category" (JStr "Other"))
    ∧ content l !! "image_urls" = Some (field_default bike "image_urls" (JArr [])).
Proof.
  assert (Hok : kind (post_listing 600 bob bike campus) = Some Success)
    by (vm_compute; reflexivity).
  exact (@post_listing_stores_validated_fields reference_engine reference_postgres
           600 bob bike campus Hok).
Defined.

(** The bike is stored with its title trimmed; its price stays the
    string that was sent. *)
Example post_listing_on_campus :
  (λ l, (status l, content l !! "title", content l !! "price", content l !! "category"))
    <$> listings (final_store (post_listing 600 bob bike campus)) !! 5
  = Some ("pending", Some (JStr "Bike"), Some (JStr "80"), Some (JStr "Other")).
Proof. vm_compute. reflexivity. Qed.

(** ** Moderation and deletion, seen through the public fetch *)

Section Fetch.
Context `{Engine} `{P : Postgres}.

(** The join behind the public fetch selects at most one row, decided
    by the listing row and the row of its owner. *)
Lemma listing_join_lookup id s :
  listings_join_users s (λ i l, (i =? id) && String.eqb (status l) "approved")
  = match listings s !! id with
    | Some l =>
        if String.eqb (status l) "approved"
        then match users s !! user_id l with
             | Some u => [(id, l, u)]
             | None => []
             end
        else []
    | None => []
    end.
Proof.
  set (cond := λ (i : Z) (l : listing), (i =? id) && String.eqb (status l) "approved").
  pose proof (listings_join_users_NoDup s cond) as Hnodup.
  assert (Hin : ∀ i l u, (i, l, u) ∈ listings_join_users s cond
            ↔ i = id ∧ listings s !! id = Some l
              ∧ String.eqb (status l) "approved" = true
              ∧ users s !! user_id l = Some u).
  { intros i l u. rewrite elem_of_listings_join_users. unfold cond.
    rewrite andb_true_iff, Z.eqb_eq. split.
    - intros (Hl & [-> Hs] & Hu). done.
    - intros (-> & Hl & Hs & Hu). done. }
  destruct (listings_join_users s cond) as [|[[i l] u] rest].
  - destruct (listings s !! id) as [l|] eqn:Hl; [|done].
    destruct (String.eqb (status l) "approved") eqn:Hs; [|done].
    destruct (users s !! user_id l) as [u|] eqn:Hu; [|done].
    assert (Hx : (id, l, u) ∈ @nil (Z * listing * user)) by (by apply Hin).
    by apply elem_of_nil in Hx.
  - destruct (proj1 (Hin i l u) (list_elem_of_here _ _)) as (-> & Hl & Hs & Hu).
    rewrite Hl, Hs, Hu. f_equal.
    destruct rest as [|[[i' l'] u'] rest]; [done|].
    assert (Hx : (i', l', u') ∈ (id, l, u) :: (i', l', u') :: rest)
      by (apply list_elem_of_further, list_elem_of_here).
    apply Hin in Hx as (-> & _).
    cbn in Hnodup. apply NoDup_cons in Hnodup as [Hnot _].
    exfalso. apply Hnot. apply list_elem_of_here.
Qed.

(** The public fetch depends on the listing row and on the users only. *)
Lemma get_listing_ext id s s' :
  listings s' !! id = listings s !! id → users s' = users s →
  response_of (get_listing id s') = response_of (get_listing id s).
Proof.
  intros Hl Hu. unfold get_listing, listing_query.
  rewrite !listing_join_lookup, Hl, Hu.
  destruct (listings s !! id) as [l|]; [|done].
  destruct (String.eqb (status l) "approved"); [|done].
  destruct (users s !! user_id l); [|done].
  cbn [fmap list_fmap]. by destruct (cleanListing _).
Qed.
End Fetch.

(** X14.  Moderation decides what the public sees.  Setting the status
    of an existing listing, whose owner has an account, to [approved]
    or [rejected] changes the status of that one row and nothing else;
    afterwards the listing is not in the moderation queue, the public
    fetch finds it exactly when it was approved, and repeating the
    decision changes nothing more. *)
Theorem moderation_gates_visibility `{Engine} `{P : Postgres} `{!PostgresLaws P}
    (acting : identity) (id : Z) (l : listing) (u : user) (decision : string)
    (s : store) :
  listings s !! id = Some l → users s !! user_id l = Some u →
  decision = "approved" ∨ decision = "rejected" →
  let s' := final_store
              (patch_admin_listing acting id {[ "status" := JStr decision ]} s) in
  listings s' = <[id := with_status decision l]> (listings s)
  ∧ ratings s' = ratings s ∧ users s' = users s
  ∧ (∀ l', (id, l') ∉ pending_rows s')
  ∧ (kind (get_listing id s') = Some NotFound ↔ decision = "rejected")
  ∧ final_store (patch_admin_listing acting id {[ "status" := JStr decision ]} s') = s'.
Proof.
  intros Hl Hu Hd. cbv zeta.
  assert (Hrun : ∀ s0 l0, listings s0 !! id = Some l0 →
            final_store (patch_admin_listing acting id {[ "status" := JStr decision ]} s0)
            = set_listings (<[id := with_status decision l0]>) s0).
  { intros s0 l0 Hl0. unfold patch_admin_listing, field.
    rewrite lookup_singleton_eq. cbn [default from_option Datatypes.id].
    assert (String.eqb decision "approved" || String.eqb decision "rejected" = true)
      as -> by (destruct Hd as [-> | ->]; reflexivity).
    unfold update_status. rewrite Hl0. reflexivity. }
  rewrite (Hrun s l Hl).
  assert (Hl' : listings (set_listings (<[id := with_status decision l]>) s) !! id
                = Some (with_status decision l))
    by (cbn; apply lookup_insert_eq).
  split_and!; try done.
  - intros l' Hin. apply elem_of_pending_rows in Hin as [Hin Hst].
    rewrite Hl' in Hin. injection Hin as <-. cbn in Hst.
    destruct Hd as [-> | ->]; done.
  - unfold get_listing, listing_query. rewrite listing_join_lookup, Hl'.
    cbn [status with_status user_id users set_listings]. rewrite Hu.
    destruct Hd as [-> | ->]; cbn [String.eqb Ascii.eqb Bool.eqb fmap list_fmap].
    + split; [|done]. by destruct (cleanListing _).
    + done.
  - rewrite (Hrun _ _ Hl'). unfold set_listings. cbn.
    by rewrite insert_insert_eq.
Qed.

Lemma moderation_gates_visibility_witness :
  let s' := final_store (patch_admin_listing root 2 approve campus) in
  listings s' = <[2 := with_status "approved" (item 1 "pending" 200 "Desk" (JNum (num_Z 40)))]>
                  (listings campus)
  ∧ ratings s' = ratings campus ∧ users s' = users campus
  ∧ (∀ l', (2, l') ∉ pending_rows s')
  ∧ (kind (get_listing 2 s') = Some NotFound ↔ "approved" = "rejected")
  ∧ final_store (patch_admin_listing root 2 approve s') = s'.
Proof.
  assert (Hl : listings campus !! 2 = Some (item 1 "pending" 200 "Desk" (JNum (num_Z 40))))
    by (vm_compute; reflexivity).
  assert (Hu : users campus !! user_id (item 1 "pending" 200 "Desk" (JNum (num_Z 40)))
               = Some (account "alice"))
    by (vm_compute; reflexivity).
  exact (@moderation_gates_visibility reference_engine reference_postgres
           reference_postgres_laws root 2 _ _ "approved" campus Hl Hu
           (or_introl eq_refl)).
Defined.

(** X15.  Deleting a listing: a delete that succeeds was made by the
    owner or by an admin; afterwards the listing is gone, so that the
    public fetch and a second delete both answer "not found", while
    every other listing and every user is as before and the public
    fetch of any other listing answers as it did. *)
Theorem delete_listing_removes `{Engine} `{Postgres} (acting : identity) (id : Z)
    (s : store) :
  kind (delete_listing acting id s) = Some Success →
  let s' := final_store (delete_listing acting id s) in
  (∃ l, listings s !! id = Some l
        ∧ (userId acting = user_id l ∨ role acting = JStr "admin"))
  ∧ listings s' = delete id (listings s)
  ∧ users s' = users s
  ∧ kind (get_listing id s') = Some NotFound
  ∧ kind (delete_listing acting id s') = Some NotFound
  ∧ ∀ id', id' ≠ id →
      response_of (get_listing id' s') = response_of (get_listing id' s).
Proof.
  intros Hok. cbv zeta.
  assert (∃ l, listings s !! id = Some l
               ∧ (userId acting = user_id l ∨ role acting = JStr "admin")
               ∧ final_store (delete_listing acting id s) = delete_listing_row id s)
    as (l & Hl & Hmay & ->).
  { unfold delete_listing in *.
    destruct (listings s !! id) as [l|] eqn:Hl; [|done].
    exists l. split; [done|].
    destruct (userId acting =? user_id l) eqn:Ho;
      destruct (strict_eq_str (role acting) "admin") eqn:Ha; try done;
      (split; [|done]); first [left; lia | right; by apply strict_eq_str_true]. }
  assert (Hgone : listings (delete_listing_row id s) !! id = None)
    by (cbn; apply lookup_delete_eq).
  split_and!; try done.
  - by exists l.
  - unfold get_listing, listing_query. by rewrite listing_join_lookup, Hgone.
  - unfold delete_listing. by rewrite Hgone.
  - intros id' Hne. apply get_listing_ext; [|done].
    cbn. by rewrite lookup_delete_ne.
Qed.

Lemma delete_listing_removes_witness :
  let s' := final_store (delete_listing root 1 campus) in
  (∃ l, listings campus !! 1 = Some l
        ∧ (userId root = user_id l ∨ role root = JStr "admin"))
  ∧ listings s' = delete 1 (listings campus)
  ∧ users s' = users campus
  ∧ kind (get_listing 1 s') = Some NotFound
  ∧ kind (delete_listing root 1 s') = Some NotFound
  ∧ ∀ id', id' ≠ 1 →
      response_of (get_listing id' s') = response_of (get_listing id' campus).
Proof.
  assert (Hok : kind (delete_listing root 1 campus) = Some Success)
    by (vm_compute; reflexivity).
  exact (@delete_listing_removes reference_engine reference_postgres root 1 campus Hok).
Defined.

(** ** The catalog invariant *)

Lemma map_to_list_filter_perm {A} (P : Z * A → Prop) `{∀ x, Decision (P x)}
    (m : gmap Z A) :
  map_to_list (filter P m) ≡ₚ filter P (map_to_list m).
Proof.
  apply NoDup_Permutation.
  - apply NoDup_map_to_list.
  - apply NoDup_filter, NoDup_map_to_list.
  - intros [k x]. rewrite elem_of_map_to_list, map_lookup_filter_Some.
    rewrite list_elem_of_filter, elem_of_map_to_list. tauto.
Qed.

Lemma rows_of_filter (P : Z * rating → Prop) (Pr : rating → Prop)
    `{∀ x, Decision (P x)} `{∀ r, Decision (Pr r)} (m : gmap Z rating) listingId :
  (∀ k r, P (k, r) ↔ Pr r) →
  rows_of (filter P m) listingId ≡ₚ filter Pr (rows_of m listingId).
Proof.
  intros HP. unfold rows_of. rewrite (map_to_list_filter_perm P m).
  induction (map_to_list m) as [|[k r] l IH]; [done|].
  rewrite (filter_cons P). destruct (decide (P (k, r))) as [Hp | Hp].
  - rewrite !fmap_cons, !filter_cons. cbn [snd].
    destruct (decide (r_listing_id r = listingId)).
    + rewrite filter_cons, decide_True by (by apply (HP k r)). by rewrite IH.
    + exact IH.
  - rewrite fmap_cons, (filter_cons (λ r0, r_listing_id r0 = listingId)). cbn [snd].
    destruct (decide (r_listing_id r = listingId)); [|exact IH].
    rewrite filter_cons, decide_False by (by rewrite <- (HP k r)). exact IH.
Qed.

Lemma filter_rows_of_all (Pr : rating → Prop) `{∀ r, Decision (Pr r)}
    (m : gmap Z rating) listingId :
  (∀ r, r_listing_id r = listingId → Pr r) →
  filter Pr (rows_of m listingId) = rows_of m listingId.
Proof.
  intros Hall.
  assert (Hforall : Forall (λ r, r_listing_id r = listingId) (rows_of m listingId)).
  { apply Forall_forall. intros r Hin. by apply elem_of_rows_of in Hin as [? _]. }
  induction Hforall as [|r l Hr _ IH]; [done|].
  rewrite filter_cons, decide_True by (by apply Hall). by rewrite IH.
Qed.

Lemma rows_of_nil (m : gmap Z rating) listingId :
  (∀ k r, m !! k = Some r → r_listing_id r ≠ listingId) → rows_of m listingId = [].
Proof.
  intros Hnone. destruct (rows_of m listingId) as [|r l] eqn:E; [done|].
  assert (Hin : r ∈ rows_of m listingId) by (rewrite E; apply list_elem_of_here).
  apply elem_of_rows_of in Hin as [Hl [k Hk]]. by destruct (Hnone k r Hk).
Qed.

Section Invariant.
Context `{Engine} `{Postgres}.

(** The aggregates of a listing stay consistent when its row keeps its
    two aggregate columns and its rating rows stay the same. *)
Lemma aggregates_consistent_frame s s' listingId :
  aggregates_consistent s listingId →
  (∀ l', listings s' !! listingId = Some l' →
     ∃ l, listings s !! listingId = Some l ∧ rating_count l' = rating_count l
          ∧ average_rating l' = average_rating l) →
  ratings_of s' listingId ≡ₚ ratings_of s listingId →
  aggregates_consistent s' listingId.
Proof.
  unfold aggregates_consistent. intros Hinv Hrow Hrows.
  destruct (listings s' !! listingId) as [l'|]; [|done].
  destruct (Hrow l' eq_refl) as (l & Hl & -> & ->). rewrite Hl in Hinv.
  by rewrite (COUNT_perm _ _ Hrows), (stored_average_perm _ _ Hrows).
Qed.

Lemma create_consistent now (acting : identity) body s :
  catalog_consistent s →
  catalog_consistent (final_store (post_listing now acting body s)).
Proof.
  intros [Hrefs Hagg].
  destruct (post_listing_cases now acting body s) as [-> | Hok]; [done|].
  destruct (post_listing_success now acting body s Hok)
    as (t & p & n & variants & kept & _ & _ & _ & _ & _ & _ & _ & _ & Hfresh & ->).
  split.
  - intros k r Hr. cbn [ratings listings] in *.
    destruct (Hrefs k r Hr) as [l Hl].
    destruct (decide (r_listing_id r = listings_id_seq s)) as [-> | Hne].
    + rewrite lookup_insert_eq. eauto.
    + rewrite lookup_insert_ne by done. eauto.
  - intros listingId. destruct (decide (listingId = listings_id_seq s)) as [-> | Hne].
    + unfold aggregates_consistent, ratings_of. cbn [listings ratings].
      rewrite lookup_insert_eq. cbn [rating_count average_rating].
      rewrite rows_of_nil; [done|].
      intros k r Hr Heq. destruct (Hrefs k r Hr) as [l Hl]. congruence.
    + apply (aggregates_consistent_frame s); [done | | done].
      cbn [listings]. rewrite lookup_insert_ne by done. eauto.
Qed.

Lemma patch_consistent (acting : identity) id body s :
  catalog_consistent s →
  catalog_consistent (final_store (patch_listing acting id body s)).
Proof.
  intros [Hrefs Hagg].
  destruct (patch_listing_inv acting id body s)
    as [[-> _] | (l & sets & l' & Hl & _ & _ & Hu)]; [done|].
  apply update_listing_effect in Hu as (l0 & Hl0 & -> & ->).
  rewrite Hl in Hl0. injection Hl0 as <-.
  split.
  - intros k r Hr. cbn [ratings listings set_listings] in *.
    destruct (Hrefs k r Hr) as [l1 Hl1].
    destruct (decide (r_listing_id r = id)) as [-> | Hne].
    + rewrite lookup_insert_eq. eauto.
    + rewrite lookup_insert_ne by done. eauto.
  - intros listingId. apply (aggregates_consistent_frame s); [done | | done].
    cbn [listings set_listings].
    destruct (decide (listingId = id)) as [-> | Hne].
    + rewrite lookup_insert_eq. intros l' [= <-]. eauto.
    + rewrite lookup_insert_ne by done. eauto.
Qed.

Lemma patch_admin_listing_cases (acting : identity) id body s :
  final_store (patch_admin_listing acting id body s) = s
  ∨ ∃ l text, listings s !! id = Some l
      ∧ final_store (patch_admin_listing acting id body s)
        = set_listings (<[id := with_status text l]>) s.
Proof.
  unfold patch_admin_listing.
  destruct (field body "status") as [| | | |text| |]; try (by left).
  destruct (_ || _); [|by left].
  unfold update_status. destruct (listings s !! id) as [l|] eqn:Hl; [|by left].
  right. by exists l, text.
Qed.

Lemma moderate_consistent (acting : identity) id body s :
  catalog_consistent s →
  catalog_consistent (final_store (patch_admin_listing acting id body s)).
Proof.
  intros [Hrefs Hagg].
  destruct (patch_admin_listing_cases acting id body s)
    as [-> | (l & text & Hl & ->)]; [done|].
  split.
  - intros k r Hr. cbn [ratings listings set_listings] in *.
    destruct (Hrefs k r Hr) as [l1 Hl1].
    destruct (decide (r_listing_id r = id)) as [-> | Hne].
    + rewrite lookup_insert_eq. eauto.
    + rewrite lookup_insert_ne by done. eauto.
  - intros listingId. apply (aggregates_consistent_frame s); [done | | done].
    cbn [listings set_listings].
    destruct (decide (listingId = id)) as [-> | Hne].
    + rewrite lookup_insert_eq. intros l' [= <-]. eauto.
    + rewrite lookup_insert_ne by done. eauto.
Qed.

Lemma delete_listing_cases (acting : identity) id s :
  final_store (delete_listing acting id s) = s
  ∨ final_store (delete_listing acting id s) = delete_listing_row id s.
Proof.
  unfold delete_listing. destruct (listings s !! id); [|by left].
  destruct (_ && _); [by left | by right].
Qed.

Lemma delete_listing_row_consistent id s :
  catalog_consistent s → catalog_consistent (delete_listing_row id s).
Proof.
  intros [Hrefs Hagg]. split.
  - intros k r Hr. cbn [ratings listings delete_listing_row] in *.
    apply map_lookup_filter_Some in Hr as [Hr Hne]. cbn in Hne.
    rewrite lookup_delete_ne by done. by eapply Hrefs.
  - intros listingId. destruct (decide (listingId = id)) as [-> | Hne].
    + unfold aggregates_consistent. cbn [listings delete_listing_row].
      by rewrite lookup_delete_eq.
    + apply (aggregates_consistent_frame s); [done | |].
      * cbn [listings delete_listing_row]. rewrite lookup_delete_ne by done. eauto.
      * unfold ratings_of. cbn [ratings delete_listing_row].
        rewrite (rows_of_filter _ (λ r, r_listing_id r ≠ id)) by done.
        rewrite filter_rows_of_all; [done|]. intros r ->. done.
Qed.

Lemma post_rating_cases now (acting : identity) listingId body s :
  final_store (post_rating now acting listingId body s) = s
  ∨ kind (post_rating now acting listingId body s) = Some Success
  ∨ kind (post_rating now acting listingId body s) = Some StoreFailure.
Proof.
  unfold post_rating.
  destruct (rating_out_of_range _) as [[]|]; [by left | | by left].
  destruct (listings s !! listingId); [|by left].
  destruct (0 <? _); [by left|].
  destruct (insert_rating _ _ _ _ _ _); [|by left].
  destruct (update_aggregates_after_insert _ _); right; [by left | by right].
Qed.

Lemma delete_rating_cases (acting : identity) ratingId s :
  final_store (delete_rating acting ratingId s) = s
  ∨ kind (delete_rating acting ratingId s) = Some Success
  ∨ kind (delete_rating acting ratingId s) = Some StoreFailure.
Proof.
  unfold delete_rating.
  destruct (ratings s !! ratingId ≫= _) as [[listing_id owner]|]; [|by left].
  destruct (_ && _); [by left|]. cbv zeta.
  destruct (recompute_aggregates _ _); right; [by left | by right].
Qed.

Lemma rating_op_consistent op s :
  catalog_consistent s →
  kind (run_op op s) ≠ Some StoreFailure →
  catalog_consistent (final_store (run_op op s)).
Proof.
  intros [Hrefs Hagg] Hk.
  assert (Hcases : final_store (run_op op s) = s ∨ kind (run_op op s) = Some Success).
  { destruct op as [now acting listingId body | acting ratingId]; cbn [run_op] in *.
    - destruct (post_rating_cases now acting listingId body s) as [? | [? | ?]]; auto.
      done.
    - destruct (delete_rating_cases acting ratingId s) as [? | [? | ?]]; auto. done. }
  destruct Hcases as [-> | Hok]; [done|].
  split; [|intros listingId; by apply run_op_consistent].
  destruct op as [now acting listingId body | acting ratingId]; cbn [run_op] in *.
  - apply post_rating_success in Hok as (l & r & Hl & Hfresh & Hrl & _ & ->).
    intros k r0. cbn [ratings listings].
    destruct (decide (k = ratings_id_seq s)) as [-> | Hne].
    + rewrite lookup_insert_eq. intros [= <-]. rewrite Hrl, lookup_insert_eq. eauto.
    + rewrite lookup_insert_ne by done. intros Hr0.
      destruct (Hrefs k r0 Hr0) as [l0 Hl0].
      destruct (decide (r_listing_id r0 = listingId)) as [-> | Hne'].
      * rewrite lookup_insert_eq. eauto.
      * rewrite lookup_insert_ne by done. eauto.
  - apply delete_rating_success in Hok as (r & l & Hr & Hl & ->).
    intros k r0. cbn [ratings listings]. intros Hr0.
    apply lookup_delete_Some in Hr0 as [_ Hr0].
    destruct (Hrefs k r0 Hr0) as [l0 Hl0].
    destruct (decide (r_listing_id r0 = r_listing_id r)) as [-> | Hne'].
    + rewrite lookup_insert_eq. eauto.
    + rewrite lookup_insert_ne by done. eauto.
Qed.
End Invariant.

(** X16.  The catalog invariant: ratings reference listings that exist,
    and the rating count and average of every listing agree with its
    rating rows.  Every operation of the listing and moderation routes
    that writes the catalog (create, patch, moderate, delete, rate,
    delete a rating) keeps it, whatever it answers, except that an
    operation that ends in a store failure (a 500 answer, which a
    patch, a rate and a delete-rating can give) is not covered. *)
Theorem catalog_consistency_preserved `{Engine} `{Postgres} (op : catalog_op)
    (s : store) :
  catalog_consistent s →
  kind (run_catalog_op op s) ≠ Some StoreFailure →
  catalog_consistent (final_store (run_catalog_op op s)).
Proof.
  intros Hinv Hk. destruct op as [now acting body | acting id body | acting id body
                                 | acting id | op]; cbn [run_catalog_op] in *.
  - by apply create_consistent.
  - by apply patch_consistent.
  - by apply moderate_consistent.
  - destruct (delete_listing_cases acting id s) as [-> | ->]; [done|].
    by apply delete_listing_row_consistent.
  - by apply rating_op_consistent.
Qed.

Lemma catalog_consistent_campus : catalog_consistent campus.
Proof.
  split.
  - intros k r Hr. cbn in Hr. by rewrite lookup_empty in Hr.
  - intros listingId. unfold aggregates_consistent.
    destruct (listings campus !! listingId) as [l|] eqn:Hl; [|done].
    assert (Hrows : ratings_of campus listingId = []) by reflexivity.
    rewrite Hrows. apply elem_of_map_to_list in Hl.
    assert (Hlist : map_to_list (listings campus)
                    = [(3, item 1 "approved" 300 "Chair" (JStr "12.50"));
                       (4, item 2 "approved" 400 "Book" (JStr "free"));
                       (2, item 1 "pending" 200 "Desk" (JNum (num_Z 40)));
                       (1, item 1 "approved" 100 "Lamp" (JStr "12.50"))])
      by (vm_compute; reflexivity).
    rewrite Hlist in Hl.
    repeat (apply elem_of_cons in Hl as [[= -> ->] | Hl]);
      [| | | | by apply elem_of_nil in Hl]; split; reflexivity.
Qed.

Lemma catalog_consistency_preserved_witness :
  catalog_consistent (final_store (run_catalog_op (Create 600 bob bike) campus))
  ∧ catalog_consistent
      (final_store (run_catalog_op (Rating (Rate 501 bob 1 (stars 5))) campus))
  ∧ catalog_consistent (final_store (run_catalog_op (Delete root 1) campus)).
Proof.
  split_and!.
  - apply (@catalog_consistency_preserved reference_engine reference_postgres
             (Create 600 bob bike) campus catalog_consistent_campus).
    vm_compute. discriminate.
  - apply (@catalog_consistency_preserved reference_engine reference_postgres
             (Rating (Rate 501 bob 1 (stars 5))) campus catalog_consistent_campus).
    vm_compute. discriminate.
  - apply (@catalog_consistency_preserved reference_engine reference_postgres
             (Delete root 1) campus catalog_consistent_campus).
    vm_compute. discriminate.
Defined.

(** ** Deleting an account *)

Lemma ratings_of_delete_me (acting : identity) s id l :
  listings s !! id = Some l → user_id l ≠ userId acting →
  ratings_of (final_store (delete_me acting s)) id
  ≡ₚ filter (λ r, r_user_id r ≠ userId acting) (ratings_of s id).
Proof.
  intros Hl Hne.
  assert (Hstore : ratings (final_store (delete_me acting s))
                   = filter (λ kr, rates_listing_of (delete_ratings_by (userId acting) s)
                                     (userId acting) kr.2 = false)
                       (filter (λ kr, r_user_id kr.2 ≠ userId acting) (ratings s))).
  { unfold delete_me. cbv zeta. by destruct (users _ !! _). }
  unfold ratings_of. rewrite Hstore.
  rewrite (rows_of_filter _
             (λ r, rates_listing_of (delete_ratings_by (userId acting) s)
                     (userId acting) r = false)) by done.
  rewrite (rows_of_filter _ (λ r, r_user_id r ≠ userId acting)) by done.
  assert (Hall : ∀ rows : list rating,
            Forall (λ r, r_listing_id r = id) rows →
            filter (λ r, rates_listing_of (delete_ratings_by (userId acting) s)
                           (userId acting) r = false) rows = rows).
  { induction 1 as [|r rows Hr _ IH]; [done|].
    rewrite filter_cons, decide_True, IH; [done|].
    unfold rates_listing_of. cbn [listings delete_ratings_by set_ratings].
    rewrite Hr, Hl. lia. }
  rewrite Hall; [done|].
  apply Forall_forall. intros r Hin.
  apply list_elem_of_filter in Hin as [_ Hin].
  by apply elem_of_rows_of in Hin as [? _].
Qed.

(** X17.  Deleting an account removes the user's own listings, every
    rating the user wrote and the user row.  The listings of other
    owners are left exactly as they were, aggregates included, while
    the ratings the user wrote on them are gone: a listing that the
    user had rated, consistent before, afterwards counts more ratings
    than it has. *)
Theorem delete_me_leaves_stale_aggregates (acting : identity) (s : store) :
  let s' := final_store (delete_me acting s) in
  (∀ id l, listings s !! id = Some l → user_id l = userId acting →
     listings s' !! id = None)
  ∧ (∀ k r, ratings s' !! k = Some r → r_user_id r ≠ userId acting)
  ∧ users s' !! userId acting = None
  ∧ (∀ id l, listings s !! id = Some l → user_id l ≠ userId acting →
       listings s' !! id = Some l
       ∧ ratings_of s' id
         ≡ₚ filter (λ r, r_user_id r ≠ userId acting) (ratings_of s id)
       ∧ (aggregates_consistent s id → has_rating s id (userId acting) →
          COUNT (ratings_of s' id) < rating_count l
          ∧ ¬ aggregates_consistent s' id)).
Proof.
  cbv zeta.
  assert (Hlistings : listings (final_store (delete_me acting s))
                      = filter (λ kl, user_id kl.2 ≠ userId acting) (listings s)).
  { unfold delete_me. cbv zeta. by destruct (users _ !! _). }
  assert (Hratings : ∀ k r, ratings (final_store (delete_me acting s)) !! k = Some r →
            r_user_id r ≠ userId acting).
  { intros k r. unfold delete_me. cbv zeta.
    destruct (users _ !! _); cbn [final_store ratings set_users delete_listings_of];
      intros Hr; apply map_lookup_filter_Some in Hr as [Hr _];
      cbn [ratings delete_ratings_by set_ratings] in Hr;
      by apply map_lookup_filter_Some in Hr as [_ Hr]. }
  assert (Husers : users (final_store (delete_me acting s)) !! userId acting = None).
  { unfold delete_me. cbv zeta.
    destruct (users (delete_listings_of (userId acting)
                       (delete_ratings_by (userId acting) s)) !! userId acting)
      eqn:Hu; cbn [final_store users set_users];
      [apply lookup_delete_eq | exact Hu]. }
  split_and!; try done.
  - intros id l Hl Ho. rewrite Hlistings. apply map_lookup_filter_None. right.
    intros l' Hl'. rewrite Hl in Hl'. injection Hl' as <-. cbn. by intros ?.
  - intros id l Hl Hne.
    assert (Hkept : listings (final_store (delete_me acting s)) !! id = Some l).
    { rewrite Hlistings. by apply map_lookup_filter_Some. }
    pose proof (ratings_of_delete_me acting s id l Hl Hne) as Hrows.
    split_and!; [done | done |].
    intros Hinv (r & Hin & Hr).
    assert (Hlt : COUNT (ratings_of (final_store (delete_me acting s)) id)
                  < rating_count l).
    { unfold aggregates_consistent in Hinv. rewrite Hl in Hinv.
      destruct Hinv as [-> _]. rewrite (COUNT_perm _ _ Hrows). unfold COUNT.
      apply inj_lt.
      apply (length_filter_lt (λ r, r_user_id r ≠ userId acting) _ r Hin).
      by intros Hx. }
    split; [done|]. unfold aggregates_consistent. rewrite Hkept.
    intros [Hcnt _]. lia.
Qed.

Lemma delete_me_leaves_stale_aggregates_witness :
  let s' := final_store (delete_me bob rated_campus) in
  ∃ l, listings s' !! 1 = Some l
    ∧ COUNT (ratings_of s' 1) < rating_count l
    ∧ ¬ aggregates_consistent s' 1.
Proof.
  cbv zeta.
  pose proof (delete_me_leaves_stale_aggregates bob rated_campus)
    as (_ & _ & _ & Hothers).
  cbv zeta in Hothers.
  assert (Hl : listings rated_campus !! 1
               = Some (with_rating_aggregates 3 (433 # 100)
                         (item 1 "approved" 100 "Lamp" (JStr "12.50"))))
    by (vm_compute; reflexivity).
  destruct (Hothers 1 _ Hl ltac:(cbn; lia)) as (Hkept & _ & Hstale).
  eexists. split; [exact Hkept|].
  apply Hstale.
  - vm_compute. split; reflexivity.
  - exists {| r_listing_id := 1; r_user_id := 2; r_rating := 5;
              r_comment := JNull; r_created_at := 501 |}.
    split; [|reflexivity].
    apply elem_of_rows_of. split; [reflexivity|]. exists 1. vm_compute. reflexivity.
Defined.

(** Bob rated the lamp 5; once his account is deleted the lamp still
    counts three ratings and has two. *)
Example delete_me_on_campus :
  let s' := final_store (delete_me bob rated_campus) in
  (rating_count <$> listings s' !! 1, COUNT (ratings_of s' 1), listings s' !! 4)
  = (Some 3, 2, None).
Proof. vm_compute. reflexivity. Qed.

(** ** Changing a cover image *)

Lemma pretty_N_go_app (x : N) (s rest : string) :
  pretty_N_go x s +:+ rest = pretty_N_go x (s +:+ rest).
Proof.
  revert s. induction (N.lt_wf_0 x) as [x _ IH]. intros s.
  destruct (decide (x = 0)%N) as [-> | Hx]; [by rewrite !pretty_N_go_0|].
  assert (0 < x)%N by (by apply N.neq_0_lt_0).
  rewrite !(pretty_N_go_step x) by done.
  rewrite IH by (apply N.div_lt; lia). done.
Qed.

Lemma append_empty (s : string) : s +:+ "" = s.
Proof.
  induction s as [|c r IH]; [done|].
  change (String c r +:+ "") with (String c (r +:+ "")). by rewrite IH.
Qed.

Lemma parse_digits_no_digit (rest : string) acc :
  starts_with_digit rest = false → parse_digits 10 rest acc = acc.
Proof.
  destruct rest as [|c r]; [done|]. cbn.
  destruct (digit_value c) as [d|]; [|done]. by intros ->.
Qed.

Lemma parseInt_10_pretty (n : Z) (rest : string) :
  0 < n → starts_with_digit rest = false → parseInt_10 (pretty n +:+ rest) = Some n.
Proof.
  intros Hn Hrest. destruct n as [|p|p]; [lia | | lia].
  change (pretty (Z.pos p)) with (pretty_N_go (N.pos p) "").
  rewrite pretty_N_go_app. change ("" +:+ rest) with rest.
  destruct (pretty_N_go_head (N.pos p) rest ltac:(lia)) as (m & tail & Hm & Hhead).
  destruct (parse_digits_pretty_N_go (N.pos p) ltac:(lia)) as [k Hk].
  specialize (Hk rest None). cbn [default from_option Datatypes.id] in Hk.
  rewrite (parse_digits_no_digit rest _ Hrest) in Hk.
  unfold parseInt_10.
  assert (Hstrip : strip_sign (trimStart (pretty_N_go (N.pos p) rest))
                   = (1, pretty_N_go (N.pos p) rest)).
  { rewrite Hhead.
    assert (m = 1 ∨ m = 2 ∨ m = 3 ∨ m = 4 ∨ m = 5 ∨ m = 6 ∨ m = 7 ∨ m = 8 ∨ m = 9)%N
      as Hcases by lia.
    repeat (destruct Hcases as [-> | Hcases]; [reflexivity|]).
    subst. reflexivity. }
  rewrite Hstrip, Hk. cbn [fmap option_fmap option_map]. f_equal.
Qed.

(** X18.  Changing the cover image of a seller: a caller who is not an
    admin gets a permission error; for an admin, an id that does not
    begin with a positive decimal number is a validation error.  An id
    that begins with the number [n] (below 2^53, so that [parseInt]
    gives it exactly) which the store takes as a row id is answered
    200: the cover of the user [n] becomes the value sent (NULL when
    none was sent) and nothing else changes, also when no such user
    exists: then the answer is still 200 and the store is as before.
    A number the store does not take as a row id is answered 500.
    Text after the leading number of the id is ignored. *)
Theorem put_cover_admin_only `{Postgres} (acting : identity) (id : string)
    (body : gmap string jsval) (s : store) :
  let o := put_cover acting id body s in
  (role acting ≠ JStr "admin" →
   o = Sent {| code := 403; json := error_message "Admin access only" |} s)
  ∧ (role acting = JStr "admin" →
     (invalid_user_id (parseInt_10 id) = true →
      o = Sent {| code := 400; json := error_message "Invalid user ID" |} s)
     ∧ (∀ n, parseInt_10 id = Some n → 0 < n < 2 ^ 53 →
          pg_integer_in (JNum (num_Z n)) = Some n →
          kind o = Some Success
          ∧ listings (final_store o) = listings s
          ∧ ratings (final_store o) = ratings s
          ∧ users (final_store o) !! n
            = with_cover_image_url (bound (field body "cover_image_url"))
                <$> users s !! n
          ∧ (∀ m, m ≠ n → users (final_store o) !! m = users s !! m)
          ∧ (users s !! n = None → final_store o = s))
     ∧ (∀ n, parseInt_10 id = Some n → 0 < n →
          pg_integer_in (JNum (num_Z n)) = None →
          o = Sent {| code := 500; json := error_message "Server error" |} s))
  ∧ (∀ n rest, 0 < n → starts_with_digit rest = false →
       put_cover acting (pretty n +:+ rest) body s = put_cover acting (pretty n) body s).
Proof.
  cbv zeta. split_and!.
  - intros Hrole. unfold put_cover.
    destruct (strict_eq_str (role acting) "admin") eqn:Ha; [|done].
    by apply strict_eq_str_true in Ha.
  - intros Hrole. unfold put_cover. rewrite Hrole.
    change (strict_eq_str (JStr "admin") "admin") with true. cbn [negb].
    split_and!.
    + by intros ->.
    + intros n Hn Hpos Hin. rewrite Hn. cbn [invalid_user_id int_number].
      assert ((n <=? 0) = false) as -> by lia. rewrite Hin.
      cbn [kind kind_of code final_store set_users listings ratings users].
      split_and!; try done.
      * apply lookup_alter_eq.
      * intros m Hm. by apply lookup_alter_ne.
      * intros Hnone. destruct s as [ls rs us rseq lseq].
        unfold set_users. cbn [listings ratings users ratings_id_seq listings_id_seq] in *.
        f_equal. apply alter_id. intros u Hu. congruence.
    + intros n Hn Hpos Hin. rewrite Hn. cbn [invalid_user_id int_number].
      assert ((n <=? 0) = false) as -> by lia. by rewrite Hin.
  - intros n rest Hn Hrest. unfold put_cover.
    rewrite (parseInt_10_pretty n rest Hn Hrest).
    pose proof (parseInt_10_pretty n "" Hn eq_refl) as Hplain.
    rewrite append_empty in Hplain. by rewrite Hplain.
Qed.

Lemma put_cover_admin_only_witness :
  put_cover bob "1" {[ "cover_image_url" := JStr "cover.png" ]} campus
  = Sent {| code := 403; json := error_message "Admin access only" |} campus
  ∧ put_cover root "abc" {[ "cover_image_url" := JStr "cover.png" ]} campus
    = Sent {| code := 400; json := error_message "Invalid user ID" |} campus
  ∧ cover_image_url
      <$> users (final_store
                   (put_cover root "1" {[ "cover_image_url" := JStr "cover.png" ]}
                      campus)) !! 1
    = Some (JStr "cover.png")
  ∧ final_store (put_cover root "77" {[ "cover_image_url" := JStr "cover.png" ]} campus)
    = campus.
Proof.
  pose proof (@put_cover_admin_only reference_postgres bob "1"
                {[ "cover_image_url" := JStr "cover.png" ]} campus) as (Hdenied & _ & _).
  pose proof (@put_cover_admin_only reference_postgres root "abc"
                {[ "cover_image_url" := JStr "cover.png" ]} campus) as (_ & Hinvalid & _).
  pose proof (@put_cover_admin_only reference_postgres root "1"
                {[ "cover_image_url" := JStr "cover.png" ]} campus) as (_ & Hone & _).
  pose proof (@put_cover_admin_only reference_postgres root "77"
                {[ "cover_image_url" := JStr "cover.png" ]} campus) as (_ & Hmissing & _).
  cbv zeta in *. split_and!.
  - apply Hdenied. discriminate.
  - apply (proj1 (Hinvalid eq_refl)). reflexivity.
  - destruct (proj1 (proj2 (Hone eq_refl)) 1 eq_refl ltac:(lia) eq_refl)
      as (_ & _ & _ & Hcover & _).
    rewrite Hcover. vm_compute. reflexivity.
  - destruct (proj1 (proj2 (Hmissing eq_refl)) 77 eq_refl ltac:(lia) eq_refl)
      as (_ & _ & _ & _ & _ & Hsame).
    apply Hsame. vm_compute. reflexivity.
Defined.

(** ** What a patch writes *)



Section PatchWrites.
Context `{Engine} `{Postgres}.

Lemma update_of_None k (updates : list (string * jsval)) :
  update_of k updates = None ↔ k ∉ updates.*1.
Proof.
  induction updates as [|[a x] updates IH]; cbn.
  - split; [intros _; apply not_elem_of_nil | done].
  - destruct (String.eqb a k) eqn:E.
    + apply String.eqb_eq in E as ->. split; [done|].
      intros Hk. exfalso. apply Hk. apply list_elem_of_here.
    + apply String.eqb_neq in E. rewrite IH, not_elem_of_cons.
      split; [intros Hk; split; [congruence | done] | by intros [_ Hk]].
Qed.

Lemma foldl_insert_update_of (sets : list (string * jsval)) (c : gmap string jsval) k :
  NoDup sets.*1 →
  foldl (λ c '(k, v), <[k := v]> c) c sets !! k
  = match update_of k sets with
    | Some v => Some v
    | None => c !! k
    end.
Proof.
  revert c. induction sets as [|[a x] sets IH]; intros c Hnd; [done|].
  cbn in Hnd. apply NoDup_cons in Hnd as [Hnotin Hnd].
  cbn [foldl update_of]. rewrite (IH _ Hnd).
  destruct (String.eqb a k) eqn:E.
  - apply String.eqb_eq in E as ->.
    rewrite (proj2 (update_of_None k sets) Hnotin). apply lookup_insert_eq.
  - apply String.eqb_neq in E.
    destruct (update_of k sets); [done|]. by rewrite lookup_insert_ne.
Qed.

Lemma update_of_assign_eq k v raw updates :
  update_of k updates = Some raw → update_of k (assign k v updates) = Some v.
Proof.
  unfold assign. induction updates as [|[a x] updates IH]; [done|].
  cbn. destruct (String.eqb a k) eqn:E; cbn; rewrite E; [done | exact IH].
Qed.

Lemma coerce_effect key (bad : number → bool) m updates updates' :
  coerce key bad m updates = Normal (inr updates') →
  (∀ k, k ≠ key → update_of k updates' = update_of k updates)
  ∧ (∀ raw, update_of key updates = Some raw →
       ∃ n, ToNumber raw = Normal n ∧ num_isNaN n = false ∧ bad n = false
            ∧ update_of key updates' = Some (JNum n)).
Proof.
  unfold coerce. destruct (update_of key updates) as [raw|] eqn:Hraw.
  - intros (n & Hn & Hr)%bind_Normal.
    destruct (num_isNaN n) eqn:Hnan; [done|].
    destruct (bad n) eqn:Hbad; [done|]. injection Hr as <-. split.
    + intros k Hk. by apply update_of_assign_ne.
    + intros raw' [= <-]. exists n. split_and!; try done.
      by eapply update_of_assign_eq.
  - intros [= <-]. split; [done|]. intros raw [=].
Qed.

Lemma bind_values_effect updates sets :
  bind_values updates = Normal (Some sets) →
  (∀ k, k ≠ "variants" → update_of k sets = update_of k updates)
  ∧ (∀ raw, update_of "variants" updates = Some raw →
       ∃ elements kept, raw = JArr elements ∧ filter_variants elements = Normal kept
         ∧ update_of "variants" sets = Some (JStr (JSON_stringify (JArr kept)))).
Proof.
  revert sets. induction updates as [|[key raw] updates IH]; intros sets.
  - intros [= <-]. split; [done|]. intros raw [=].
  - cbn [bind_values]. intros (value & Hv & Hr)%bind_Normal.
    destruct value as [value|]; [|done].
    apply bind_Normal in Hr as (rest & Hrest & Hr).
    destruct rest as [rest|]; [|done]. injection Hr as <-.
    destruct (IH rest Hrest) as [IHother IHvariants].
    destruct (String.eqb key "variants") eqn:E.
    + apply String.eqb_eq in E as ->.
      destruct raw as [| | | | |elements|]; try done.
      apply bind_Normal in Hv as (kept & Hkept & Hv). injection Hv as <-.
      split.
      * intros k Hk. cbn [update_of].
        assert (String.eqb "variants" k = false) as ->
          by (apply String.eqb_neq; congruence).
        by apply IHother.
      * intros raw' Hraw. cbn in Hraw. injection Hraw as <-.
        exists elements, kept. by split_and!.
    + injection Hv as <-. split.
      * intros k Hk. cbn [update_of].
        destruct (String.eqb key k); [done | by apply IHother].
      * intros raw' Hraw. cbn [update_of] in *. rewrite E in *. by apply IHvariants.
Qed.

Lemma collect_updates_NoDup body : NoDup (collect_updates body).*1.
Proof.
  assert (Hsub : (collect_updates body).*1 `sublist_of` allowedFields).
  { unfold collect_updates. induction allowedFields as [|f fs IH]; [done|].
    cbn [omap list_omap]. unfold pick at 1.
    destruct (field body f); cbn; first [by apply sublist_skip | by apply sublist_cons]. }
  eapply sublist_NoDup; [|exact Hsub].
  unfold allowedFields. apply NoDup_ListNoDup.
  repeat (constructor; [cbn; intros Hin; repeat destruct Hin as [Hin | Hin]; done|]).
  constructor.
Qed.

(** What a patch that answers 200 has checked and written. *)
Lemma patch_listing_success (acting : identity) id body s :
  kind (patch_listing acting id body s) = Some Success →
  ∃ l updates1 updates2 sets,
    listings s !! id = Some l
    ∧ coerce "price" (λ n, num_le n (num_Z 0))
        "Price must be a positive number" (collect_updates body)
      = Normal (inr updates1)
    ∧ coerce "stock_quantity" (λ n, num_lt n (num_Z 0))
        "Stock quantity cannot be negative" updates1
      = Normal (inr updates2)
    ∧ bind_values updates2 = Normal (Some sets)
    ∧ final_store (patch_listing acting id body s)
      = set_listings
          (<[id := with_content (foldl (λ c '(k, v), <[k := v]> c) (content l) sets) l]>)
          s.
Proof.
  unfold patch_listing. cbv zeta.
  case_bool_decide as Hempty; [done|].
  destruct (coerce "price" _ _ (collect_updates body)) as [[m|updates1]|] eqn:Hc1;
    [done | | done].
  cbn [mbind completion_bind].
  destruct (coerce "stock_quantity" _ _ updates1) as [[m|updates2]|] eqn:Hc2;
    [done | | done].
  destruct (listings s !! id) as [l|] eqn:Hl; [|done].
  destruct (negb _); [done|].
  destruct (bind_values updates2) as [[sets|]|] eqn:Hb; [|done..].
  unfold update_listing. rewrite Hl. cbn [mbind option_bind].
  intros _. exists l, updates1, updates2, sets.
  split_and!; try done. by destruct (cleanListing _).
Qed.
End PatchWrites.

(** X19.  What a successful patch writes: the price, when sent, is
    stored as the number it converts to, which is above 0, and the
    stock quantity as the number it converts to, which is not below 0,
    in whatever form they were sent; the variants, when sent, are an
    array, stored as the JSON text of the entries the filter kept; and
    every other whitelisted field that was sent is stored as it was
    sent. *)
Theorem patch_listing_stores_numbers `{Engine} `{Postgres} (acting : identity)
    (id : Z) (body : gmap string jsval) (s : store) :
  kind (patch_listing acting id body s) = Some Success →
  ∃ l', listings (final_store (patch_listing acting id body s)) !! id = Some l'
    ∧ (field body "price" ≠ JUndefined →
       ∃ n, ToNumber (field body "price") = Normal n ∧ num_lt (num_Z 0) n = true
            ∧ content l' !! "price" = Some (JNum n))
    ∧ (field body "stock_quantity" ≠ JUndefined →
       ∃ n, ToNumber (field body "stock_quantity") = Normal n
            ∧ num_le (num_Z 0) n = true
            ∧ content l' !! "stock_quantity" = Some (JNum n))
    ∧ (field body "variants" ≠ JUndefined →
       ∃ elements kept, field body "variants" = JArr elements
            ∧ filter_variants elements = Normal kept
            ∧ content l' !! "variants" = Some (JStr (JSON_stringify (JArr kept))))
    ∧ (∀ k, k ∈ allowedFields → k ≠ "price" → k ≠ "stock_quantity" →
         k ≠ "variants" → field body k ≠ JUndefined →
         content l' !! k = Some (field body k)).
Proof.
  intros Hok.
  destruct (patch_listing_success acting id body s Hok)
    as (l & updates1 & updates2 & sets & Hl & H1 & H2 & Hb & ->).
  cbn [listings set_listings]. rewrite lookup_insert_eq.
  eexists. split; [reflexivity|]. cbn [content with_content].
  destruct (coerce_effect _ _ _ _ _ H1) as [Hother1 Hprice].
  destruct (coerce_effect _ _ _ _ _ H2) as [Hother2 Hstock].
  destruct (bind_values_effect _ _ Hb) as [Hother3 Hvariants].
  assert (Hnodup : NoDup sets.*1).
  { rewrite (bind_values_keys _ _ Hb), (coerce_keys _ _ _ _ _ H2),
      (coerce_keys _ _ _ _ _ H1). apply collect_updates_NoDup. }
  assert (Hsent : ∀ k, k ∈ allowedFields → field body k ≠ JUndefined →
            update_of k (collect_updates body) = Some (field body k)).
  { intros k Hk Hdef. unfold collect_updates. rewrite (update_of_omap body _ k Hk).
    by apply defined_Some. }
  split_and!.
  - intros Hdef.
    destruct (Hprice _ (Hsent "price" ltac:(unfold allowedFields; in_list) Hdef))
      as (n & Hn & Hnan & Hbad & Hu).
    exists n. split_and!; [done | by apply positive_number |].
    rewrite (foldl_insert_update_of _ _ _ Hnodup).
    by rewrite Hother3, Hother2, Hu.
  - intros Hdef.
    assert (Hraw : update_of "stock_quantity" updates1
                   = Some (field body "stock_quantity")).
    { rewrite Hother1 by done.
      apply Hsent; [unfold allowedFields; in_list | done]. }
    destruct (Hstock _ Hraw) as (n & Hn & Hnan & Hbad & Hu).
    exists n. split_and!; [done | |].
    + destruct n as [|q| |]; cbn in *; try done.
      unfold Qltb in Hbad. by apply negb_false_iff in Hbad.
    + rewrite (foldl_insert_update_of _ _ _ Hnodup). by rewrite Hother3, Hu.
  - intros Hdef.
    assert (Hraw : update_of "variants" updates2 = Some (field body "variants")).
    { rewrite Hother2, Hother1 by done.
      apply Hsent; [unfold allowedFields; in_list | done]. }
    destruct (Hvariants _ Hraw) as (elements & kept & Hel & Hkept & Hu).
    exists elements, kept. split_and!; [done | done |].
    rewrite (foldl_insert_update_of _ _ _ Hnodup). by rewrite Hu.
  - intros k Hk Hp Hs Hv Hdef.
    rewrite (foldl_insert_update_of _ _ _ Hnodup).
    by rewrite Hother3, Hother2, Hother1, (Hsent k Hk Hdef).
Qed.

Lemma patch_listing_stores_numbers_witness :
  let body : gmap string jsval :=
    list_to_map [("price", JStr "15.5"); ("stock_quantity", JStr "0");
                 ("title", JStr "Desk, oak")] in
  ∃ l', listings (final_store (patch_listing alice 2 body campus)) !! 2 = Some l'
    ∧ content l' !! "price" = Some (JNum (Fin (31 # 2)))
    ∧ content l' !! "stock_quantity" = Some (JNum (num_Z 0))
    ∧ content l' !! "title" = Some (JStr "Desk, oak").
Proof.
  cbv zeta.
  set (body := list_to_map [("price", JStr "15.5"); ("stock_quantity", JStr "0");
                            ("title", JStr "Desk, oak")] : gmap string jsval).
  assert (Hok : kind (patch_listing alice 2 body campus) = Some Success)
    by (vm_compute; reflexivity).
  destruct (@patch_listing_stores_numbers reference_engine reference_postgres
              alice 2 body campus Hok)
    as (l' & Hl' & Hprice & Hstock & _ & Hother).
  exists l'. split; [exact Hl'|].
  destruct (Hprice ltac:(vm_compute; discriminate)) as (n & Hn & _ & ->).
  destruct (Hstock ltac:(vm_compute; discriminate)) as (m & Hm & _ & ->).
  rewrite (Hother "title");
    [| unfold allowedFields; apply list_elem_of_here | done | done | done
     | vm_compute; discriminate].
  vm_compute in Hn. vm_compute in Hm. injection Hn as <-. injection Hm as <-.
  split_and!; reflexivity.
Defined.

(** ** The listings of one user *)

(** X20.  The by-owner read path never changes the store, and a 200
    response lists, newest first and each once, exactly the listings
    the user owns: all of them when the bearer of the token is that
    user, the approved ones for every other caller, with [count] the
    number of items.  Whether the user has an account is not looked
    at. *)
Theorem user_listings_listed `{Engine} `{P : Postgres} `{!PostgresLaws P}
    (user : Z) (decoded : option identity) (s : store) (r : response) (s' : store) :
  get_user_listings user decoded s = Sent r s' → code r = 200 →
  s' = s
  ∧ ∃ rows : list (Z * listing),
      Forall2 (λ row item,
         ∃ o, cleanListing (select user_listing_columns row.1 row.2) = Normal o
              ∧ item = JObj o)
        rows (data_of r)
      ∧ body_of r "count" = JNum (num_Z (Z.of_nat (length rows)))
      ∧ NoDup rows.*1
      ∧ StronglySorted (λ a b, created_at b.2 ≤ created_at a.2) rows
      ∧ ∀ id l, (id, l) ∈ rows
          ↔ listings s !! id = Some l ∧ user_id l = user
            ∧ (status l = "approved" ∨ userId <$> decoded = Some user).
Proof.
  intros Hr Hc. unfold get_user_listings in Hr. cbv zeta in Hr.
  destruct (mapM _ _) as [cleaned|] eqn:HM; [|by simplify_eq/=].
  injection Hr as <- <-. split; [done|].
  exists (user_listings_rows user (bool_decide (userId <$> decoded = Some user)) s).
  apply mapM_Normal in HM. unfold user_listings_query in HM.
  apply Forall2_fmap_l in HM.
  split_and!.
  - assert (data_of {| code := 200;
              json := obj [("status", JStr "success");
                           ("count", JNum (num_Z (Z.of_nat (length cleaned))));
                           ("data", rows_json cleaned)] |} = JObj <$> cleaned) as ->
      by reflexivity.
    apply Forall2_fmap_r. eapply Forall2_impl; [exact HM|].
    intros [id l] o Ho. cbn in *. eauto.
  - rewrite (Forall2_length _ _ _ HM). reflexivity.
  - unfold user_listings_rows. rewrite (pg_sort_perm _ _ (listings_where s _)).
    apply listings_where_NoDup.
  - unfold user_listings_rows.
    eapply StronglySorted_weaken;
      [|apply (pg_sort_sorted _ (λ a b : Z * listing, order_le created_at_DESC a.2 b.2))].
    + intros a b Hab. cbn in Hab. lia.
    + intros a b. apply order_le_total.
    + intros a b c. apply order_le_trans.
  - intros id l. unfold user_listings_rows.
    rewrite (pg_sort_perm _ _ (listings_where s _)), elem_of_listings_where.
    case_bool_decide as Howner; cbn [negb].
    + split; [intros [? ?]; split_and!; [done | lia | by right]|].
      intros (? & ? & _). split; [done | lia].
    + rewrite andb_true_iff, String.eqb_eq.
      split; [intros [? [? ?]]; split_and!; [done | lia | by left]|].
      intros (? & ? & [? | ?]); [|done]. split_and!; [done | lia | done].
Qed.

Lemma user_listings_listed_witness :
  ∃ rows : list (Z * listing),
    body_of (response_of (get_user_listings 1 (Some bob) campus)) "count"
    = JNum (num_Z (Z.of_nat (length rows)))
    ∧ StronglySorted (λ a b, created_at b.2 ≤ created_at a.2) rows
    ∧ ∀ id l, (id, l) ∈ rows
        ↔ listings campus !! id = Some l ∧ user_id l = 1
          ∧ (status l = "approved" ∨ userId <$> Some bob = Some 1).
Proof.
  assert (Hk : kind (get_user_listings 1 (Some bob) campus) = Some Success)
    by (vm_compute; reflexivity).
  assert (Hc : code (response_of (get_user_listings 1 (Some bob) campus)) = 200)
    by (vm_compute; reflexivity).
  destruct (@user_listings_listed reference_engine reference_postgres
              reference_postgres_laws 1 (Some bob) campus _ _ (kind_Sent _ _ Hk) Hc)
    as (_ & rows & _ & Hcount & _ & Hsorted & Hrows).
  exists rows. by split_and!.
Defined.

(** ** The profile *)

Lemma select_account_lookup `{Postgres} (columns : list string) t id u c :
  select_account columns t id u !! c
  = if decide (c ∈ columns) then Some (pg_deliver c (account_cell t id u c)) else None.
Proof.
  unfold select_account. induction columns as [|a columns IH].
  - cbn. rewrite lookup_empty. by rewrite decide_False by (apply not_elem_of_nil).
  - cbn [fmap list_fmap list_to_map foldr curry fst snd] in *.
    destruct (decide (a = c)) as [-> | Hne].
    + rewrite lookup_insert_eq. by rewrite decide_True by (apply list_elem_of_here).
    + rewrite lookup_insert_ne by done. rewrite IH.
      destruct (decide (c ∈ columns)) as [Hin | Hnot].
      * by rewrite decide_True by (by apply list_elem_of_further).
      * rewrite decide_False; [done|].
        intros [-> | Hin]%elem_of_cons; done.
Qed.

(** X21.  The public profile.  The fetch never changes anything.  An
    id that does not begin with a positive decimal number is a
    validation error.  For an id that begins with a positive number
    [n]: when the store refuses [n] as a row id (it is out of the range
    of the integer column) the answer is 500; when [n] is below 2^53
    and the store takes it as the row id [n], the answer is 404 when
    there is no user [n], and otherwise 200 with [data] holding the
    cells of that user in exactly seven columns: id, username,
    shop_name, bio, cover_image_url, avatar_url, whatsapp_phone.  No
    other column of the row (email, password hash, role) is in the
    response.  Text after the leading number of the id is ignored. *)
Theorem get_user_public_profile `{Postgres} (id : string) (t : site) :
  let o := get_user id t in
  final_site o = t
  ∧ (invalid_user_id (parseInt_10 id) = true →
     o = Replied {| code := 400;
                    json := error_message "Invalid user ID (must be a positive number)" |}
                 t)
  ∧ (∀ n, parseInt_10 id = Some n → 0 < n →
       pg_integer_in (JNum (num_Z n)) = None →
       o = Replied {| code := 500;
                      json := error_message "Server error while fetching user profile" |}
                   t)
  ∧ (∀ n, parseInt_10 id = Some n → 0 < n < 2 ^ 53 →
       pg_integer_in (JNum (num_Z n)) = Some n →
       (users (catalog t) !! n = None →
        o = Replied {| code := 404; json := error_message "User not found" |} t)
       ∧ (∀ u, users (catalog t) !! n = Some u →
            ∃ data,
              o = Replied {| code := 200;
                             json := obj [("status", JStr "success");
                                          ("data", JObj data)] |} t
              ∧ (∀ c, c ∈ profile_columns →
                   data !! c = Some (pg_deliver c (account_cell t n u c)))
              ∧ (∀ c, c ∉ profile_columns → data !! c = None)))
  ∧ (∀ n rest, 0 < n → starts_with_digit rest = false →
       get_user (pretty n +:+ rest) t = get_user (pretty n) t).
Proof.
  cbv zeta. split_and!.
  - unfold get_user. destruct (invalid_user_id _); [done|].
    destruct (pg_integer_in _) as [key|]; [|done].
    by destruct (users (catalog t) !! key).
  - unfold get_user. by intros ->.
  - intros n Hn Hpos Hin. unfold get_user. rewrite Hn.
    cbn [invalid_user_id int_number].
    assert ((n <=? 0) = false) as -> by lia. by rewrite Hin.
  - intros n Hn Hpos Hin. unfold get_user. rewrite Hn.
    cbn [invalid_user_id int_number].
    assert ((n <=? 0) = false) as -> by lia. rewrite Hin. split.
    + by intros ->.
    + intros u ->. exists (select_account profile_columns t n u).
      split_and!; [done | |].
      * intros c Hc. rewrite select_account_lookup. by rewrite decide_True.
      * intros c Hc. rewrite select_account_lookup. by rewrite decide_False.
  - intros n rest Hn Hrest. unfold get_user.
    rewrite (parseInt_10_pretty n rest Hn Hrest).
    pose proof (parseInt_10_pretty n "" Hn eq_refl) as Hplain.
    rewrite append_empty in Hplain. by rewrite Hplain.
Qed.

Lemma get_user_public_profile_witness :
  get_user "0" campus_site
  = Replied {| code := 400;
               json := error_message "Invalid user ID (must be a positive number)" |}
            campus_site
  ∧ get_user "77" campus_site
    = Replied {| code := 404; json := error_message "User not found" |} campus_site
  ∧ get_user "99999999999" campus_site
    = Replied {| code := 500;
                 json := error_message "Server error while fetching user profile" |}
              campus_site
  ∧ ∃ data,
      get_user "1" campus_site
      = Replied {| code := 200;
                   json := obj [("status", JStr "success"); ("data", JObj data)] |}
                campus_site
      ∧ data !! "bio" = Some (JStr "Books and lamps")
      ∧ data !! "email" = None
      ∧ data !! "password_hash" = None.
Proof.
  pose proof (@get_user_public_profile reference_postgres "0" campus_site)
    as (_ & Hinvalid & _).
  pose proof (@get_user_public_profile reference_postgres "77" campus_site)
    as (_ & _ & _ & Hmissing & _).
  pose proof (@get_user_public_profile reference_postgres "99999999999" campus_site)
    as (_ & _ & Hrefused & _).
  pose proof (@get_user_public_profile reference_postgres "1" campus_site)
    as (_ & _ & _ & Hone & _).
  cbv zeta in *. split_and!.
  - apply Hinvalid. reflexivity.
  - apply (proj1 (Hmissing 77 eq_refl ltac:(lia) eq_refl)). reflexivity.
  - apply (Hrefused 99999999999 eq_refl ltac:(lia) eq_refl).
  - destruct (proj2 (Hone 1 eq_refl ltac:(lia) eq_refl) (account "alice") eq_refl)
      as (data & Hget & Hshown & Hhidden).
    exists data. split_and!; [exact Hget | | |].
    + rewrite (Hshown "bio") by (apply (bool_decide_unpack _); vm_compute; exact I).
      reflexivity.
    + apply Hhidden. apply (bool_decide_unpack _). vm_compute. exact I.
    + apply Hhidden. apply (bool_decide_unpack _). vm_compute. exact I.
Defined.

Section PutProfile.
Context `{Postgres}.

Lemma parseInt_10_pretty_plain (n : Z) : 0 < n → parseInt_10 (pretty n) = Some n.
Proof.
  intros Hn. pose proof (parseInt_10_pretty n "" Hn eq_refl) as Hplain.
  by rewrite append_empty in Hplain.
Qed.

(** The profile fetch of a user who has an account. *)
Lemma get_user_found (n : Z) (u : user) (t : site) :
  0 < n → pg_integer_in (JNum (num_Z n)) = Some n → users (catalog t) !! n = Some u →
  get_user (pretty n) t
  = Replied {| code := 200;
               json := obj [("status", JStr "success");
                            ("data", JObj (select_account profile_columns t n u))] |} t.
Proof.
  intros Hn Hin Hu. unfold get_user. rewrite (parseInt_10_pretty_plain n Hn).
  cbn [invalid_user_id int_number].
  assert ((n <=? 0) = false) as -> by lia. by rewrite Hin, Hu.
Qed.

Lemma put_profile_cells (acting : identity) body t u :
  users (catalog t) !! userId acting = Some u →
  let t' := final_site (put_profile acting body t) in
  let u' := with_profile (js_or (field body "shop_name") JNull)
              (js_or (field body "cover_image_url") JNull)
              (js_or (field body "avatar_url") JNull) u in
  users (catalog t') !! userId acting = Some u'
  ∧ (∀ c, c ∈ ["shop_name"; "bio"; "cover_image_url"; "avatar_url"] →
       account_cell t' (userId acting) u' c = js_or (field body c) JNull)
  ∧ (∀ c, c ∉ ["shop_name"; "bio"; "cover_image_url"; "avatar_url"] →
       account_cell t' (userId acting) u' c = account_cell t (userId acting) u c).
Proof.
  intros Hu. cbv zeta. unfold put_profile. cbv zeta.
  cbn [final_site catalog account_cells set_users users]. rewrite Hu.
  split_and!.
  - by rewrite lookup_alter_eq, Hu.
  - intros c Hc.
    repeat (apply elem_of_cons in Hc as [-> | Hc]); [| | | | by apply elem_of_nil in Hc].
    + reflexivity.
    + unfold account_cell. cbn [String.eqb Ascii.eqb Bool.eqb].
      rewrite bool_decide_eq_false_2
        by (intros Hx; repeat (apply elem_of_cons in Hx as [[=] | Hx]);
            by apply elem_of_nil in Hx).
      cbn [account_cells]. by rewrite lookup_insert_eq.
    + reflexivity.
    + reflexivity.
  - intros c Hc. unfold account_cell.
    destruct (String.eqb c "id") eqn:Hid; [done|].
    case_bool_decide as Hcol.
    + repeat (apply elem_of_cons in Hcol as [-> | Hcol]);
        [| | | | by apply elem_of_nil in Hcol].
      * reflexivity.
      * exfalso. apply Hc. in_list.
      * exfalso. apply Hc. in_list.
      * exfalso. apply Hc. in_list.
    + cbn [account_cells]. rewrite lookup_insert_ne; [done|].
      intros [= <-]. apply Hc. in_list.
Qed.
End PutProfile.

(** X22.  A profile update is answered 200 whether or not the caller
    has a row, and overwrites all four profile fields of that row:
    each of shop_name, bio,
    cover_image_url and avatar_url becomes the value sent, and NULL
    when the field was left out or sent falsy (the empty string
    included); every other cell of the row, every other user, the
    listings and the ratings stay as they are, and nothing at all
    changes when the caller has no row.  The public profile fetched
    afterwards shows the four fields as they were stored. *)
Theorem put_profile_overwrites `{Postgres} (acting : identity)
    (body : gmap string jsval) (t : site) :
  let o := put_profile acting body t in
  let me := userId acting in
  let sent := ["shop_name"; "bio"; "cover_image_url"; "avatar_url"] in
  reply_of o
  = Some {| code := 200; json := success_message "Profile updated successfully" |}
  ∧ listings (catalog (final_site o)) = listings (catalog t)
  ∧ ratings (catalog (final_site o)) = ratings (catalog t)
  ∧ (users (catalog t) !! me = None → final_site o = t)
  ∧ (∀ u, users (catalog t) !! me = Some u →
       ∃ u', users (catalog (final_site o)) !! me = Some u'
         ∧ (∀ c, c ∈ sent →
              account_cell (final_site o) me u' c = js_or (field body c) JNull)
         ∧ (∀ c, c ∈ sent → truthy (field body c) = false →
              account_cell (final_site o) me u' c = JNull)
         ∧ (∀ c, c ∉ sent →
              account_cell (final_site o) me u' c = account_cell t me u c)
         ∧ (0 < me < 2 ^ 53 → pg_integer_in (JNum (num_Z me)) = Some me →
            ∃ data,
              get_user (pretty me) (final_site o)
              = Replied {| code := 200;
                           json := obj [("status", JStr "success");
                                        ("data", JObj data)] |} (final_site o)
              ∧ ∀ c, c ∈ sent →
                  data !! c = Some (pg_deliver c (js_or (field body c) JNull))))
  ∧ (∀ m u, m ≠ me → users (catalog t) !! m = Some u →
       users (catalog (final_site o)) !! m = Some u
       ∧ ∀ c, account_cell (final_site o) m u c = account_cell t m u c).
Proof.
  cbv zeta. split_and!.
  - reflexivity.
  - reflexivity.
  - reflexivity.
  - intros Hnone. unfold put_profile. cbv zeta. cbn [final_site]. rewrite Hnone.
    destruct t as [s cells fb fbseq settings st].
    cbn [catalog account_cells feedback feedback_id_seq app_settings stats] in *.
    f_equal. destruct s as [ls rs us rseq lseq].
    unfold set_users. cbn [listings ratings users ratings_id_seq listings_id_seq] in *.
    f_equal. apply alter_id. intros u Hu. congruence.
  - intros u Hu.
    destruct (put_profile_cells acting body t u Hu) as (Hrow & Hsent & Hkept).
    eexists. split_and!; [exact Hrow | exact Hsent | | exact Hkept |].
    + intros c Hc Hfalsy. rewrite (Hsent c Hc). unfold js_or. by rewrite Hfalsy.
    + intros Hme Hin. eexists. split.
      * apply get_user_found; [lia | exact Hin | exact Hrow].
      * intros c Hc. rewrite select_account_lookup.
        rewrite decide_True.
        -- by rewrite (Hsent c Hc).
        -- unfold profile_columns.
           repeat (apply elem_of_cons in Hc as [-> | Hc]);
             [| | | | by apply elem_of_nil in Hc]; in_list.
  - intros m u Hm Hu. unfold put_profile. cbv zeta.
    cbn [final_site catalog set_users users]. split.
    + by rewrite lookup_alter_ne.
    + intros c. unfold account_cell.
      destruct (String.eqb c "id"); [done|]. case_bool_decide; [done|].
      cbn [account_cells].
      destruct (users (catalog t) !! userId acting); [|done].
      rewrite lookup_insert_ne; [done|]. intros [= ? ?]. congruence.
Qed.

Lemma put_profile_overwrites_witness :
  let t' := final_site (put_profile alice {[ "bio" := JStr "Only lamps now" ]}
                          (final_site (put_profile alice
                                         {[ "shop_name" := JStr "Alice's" ]}
                                         campus_site))) in
  ∃ u', users (catalog t') !! 1 = Some u'
    ∧ account_cell t' 1 u' "bio" = JStr "Only lamps now"
    ∧ account_cell t' 1 u' "shop_name" = JNull
    ∧ account_cell t' 1 u' "whatsapp_phone" = JStr "+265 1".
Proof.
  cbv zeta.
  set (t1 := final_site (put_profile alice {[ "shop_name" := JStr "Alice's" ]}
                           campus_site)).
  assert (Hu : users (catalog t1) !! userId alice
               = Some (with_profile (JStr "Alice's") JNull JNull (account "alice")))
    by (vm_compute; reflexivity).
  destruct (@put_profile_overwrites reference_postgres alice
              {[ "bio" := JStr "Only lamps now" ]} t1)
    as (_ & _ & _ & _ & Hmine & _).
  destruct (Hmine _ Hu) as (u' & Hrow & Hsent & Hnull & Hkept & _).
  exists u'. split_and!.
  - exact Hrow.
  - exact (Hsent "bio" ltac:(in_list)).
  - exact (Hnull "shop_name" ltac:(in_list) eq_refl).
  - etrans; [exact (Hkept "whatsapp_phone"
                      ltac:(apply (bool_decide_unpack _); vm_compute; exact I))|].
    vm_compute. reflexivity.
Defined.

(** X23.  A profile update shows on the seller's listings at once: the
    public fetch of an approved listing of the caller, made after the
    update, carries the shop name, cover image and avatar that were
    sent (NULL for a field that was left out or falsy), and the
    username as it was. *)
Theorem profile_shown_on_listings `{Engine} `{Postgres} (acting : identity)
    (body : gmap string jsval) (t : site) (id : Z) (l : listing) (u : user)
    (r : response) (s' : store) :
  listings (catalog t) !! id = Some l → user_id l = userId acting →
  users (catalog t) !! userId acting = Some u →
  get_listing id (catalog (final_site (put_profile acting body t))) = Sent r s' →
  code r = 200 →
  (∀ c, c ∈ ["shop_name"; "cover_image_url"; "avatar_url"] →
     field_of (json r) c = pg_deliver c (js_or (field body c) JNull))
  ∧ field_of (json r) "username" = pg_deliver "username" (username u).
Proof.
  intros Hl Howner Hu Hget Hc. unfold get_listing, listing_query in Hget.
  rewrite listing_join_lookup in Hget.
  assert (Hl' : listings (catalog (final_site (put_profile acting body t))) !! id
                = Some l) by exact Hl.
  assert (Hu' : users (catalog (final_site (put_profile acting body t))) !! user_id l
                = Some (with_profile (js_or (field body "shop_name") JNull)
                          (js_or (field body "cover_image_url") JNull)
                          (js_or (field body "avatar_url") JNull) u)).
  { rewrite Howner. unfold put_profile. cbv zeta.
    cbn [final_site catalog set_users users]. by rewrite lookup_alter_eq, Hu. }
  rewrite Hl', Hu' in Hget.
  destruct (String.eqb (status l) "approved");
    [|injection Hget as <- _; discriminate Hc].
  cbn [fmap list_fmap] in Hget.
  destruct (cleanListing _) as [cleaned|] eqn:Hclean;
    [|injection Hget as <- _; discriminate Hc].
  injection Hget as <- <-. cbn [json field_of]. unfold field.
  apply cleanListing_spec in Hclean. destruct Hclean as [_ _ _ _ _ _ Hother].
  assert (Hrow : ∀ c, c ∈ ["username"; "shop_name"; "avatar_url"; "cover_image_url"] →
            cleaned !! c
            = Some (pg_deliver c
                      (user_cell (with_profile (js_or (field body "shop_name") JNull)
                                    (js_or (field body "cover_image_url") JNull)
                                    (js_or (field body "avatar_url") JNull) u) c))).
  { intros c Hin.
    repeat (apply elem_of_cons in Hin as [-> | Hin]); [| | | | by apply elem_of_nil in Hin];
      (rewrite Hother
         by (apply (bool_decide_unpack _); vm_compute; exact I));
      unfold select_joined, listing_columns;
      cbn [fmap list_fmap app list_to_map foldr curry fst snd];
      rewrite !lookup_insert_ne by done; by rewrite lookup_insert_eq. }
  split.
  - intros c Hin.
    repeat (apply elem_of_cons in Hin as [-> | Hin]); [| | | by apply elem_of_nil in Hin];
      (rewrite Hrow by in_list); reflexivity.
  - rewrite Hrow by in_list. reflexivity.
Qed.

Lemma profile_shown_on_listings_witness :
  let o := get_listing 1
             (catalog (final_site (put_profile alice {[ "shop_name" := JStr "Alice's" ]}
                                     campus_site))) in
  field_of (json (response_of o)) "shop_name" = JStr "Alice's"
  ∧ field_of (json (response_of o)) "avatar_url" = JNull
  ∧ field_of (json (response_of o)) "username" = JStr "alice".
Proof.
  cbv zeta.
  set (o := get_listing 1
              (catalog (final_site (put_profile alice {[ "shop_name" := JStr "Alice's" ]}
                                      campus_site)))).
  assert (Hk : kind o = Some Success) by (vm_compute; reflexivity).
  assert (Hc : code (response_of o) = 200) by (vm_compute; reflexivity).
  destruct (@profile_shown_on_listings reference_engine reference_postgres alice
              {[ "shop_name" := JStr "Alice's" ]} campus_site 1
              (item 1 "approved" 100 "Lamp" (JStr "12.50")) (account "alice")
              (response_of o) (final_store o)
              eq_refl eq_refl eq_refl (kind_Sent _ _ Hk) Hc) as [Hsent Hname].
  split_and!.
  - exact (Hsent "shop_name" ltac:(in_list)).
  - exact (Hsent "avatar_url" ltac:(in_list)).
  - exact Hname.
Defined.

(** ** Feedback *)

Section FeedbackRead.
Context `{P : Postgres} `{!PostgresLaws P}.

Lemma elem_of_feedback_join t id f u :
  (id, f, u) ∈ feedback_join t
  ↔ feedback t !! id = Some f ∧ users (catalog t) !! f_user_id f = Some u.
Proof.
  unfold feedback_join. rewrite list_elem_of_omap. split.
  - intros ([id' f'] & Hin & Hrow). apply elem_of_map_to_list in Hin.
    destruct (users (catalog t) !! f_user_id f') as [u'|] eqn:Hu; [|done].
    cbn in Hrow. by simplify_eq.
  - intros [Hf Hu]. exists (id, f). split; [by apply elem_of_map_to_list|].
    by rewrite Hu.
Qed.

Lemma feedback_join_NoDup t : NoDup (feedback_join t).*1.*1.
Proof.
  assert (Hsub : (feedback_join t).*1.*1 `sublist_of` (map_to_list (feedback t)).*1).
  { unfold feedback_join.
    induction (map_to_list (feedback t)) as [|[id f] rows IH]; [done|].
    cbn [omap list_omap].
    destruct (users (catalog t) !! f_user_id f); cbn;
      [by apply sublist_skip | by apply sublist_cons]. }
  eapply sublist_NoDup; [|exact Hsub]. apply NoDup_fst_map_to_list.
Qed.

Lemma elem_of_feedback_rows t id f u :
  (id, f, u) ∈ feedback_rows t
  ↔ feedback t !! id = Some f ∧ users (catalog t) !! f_user_id f = Some u.
Proof.
  unfold feedback_rows. rewrite (pg_sort_perm _ newer_feedback (feedback_join t)).
  apply elem_of_feedback_join.
Qed.
End FeedbackRead.

(** X24.  Feedback is read by admins only: every other caller gets a
    permission error.  An admin gets 200 with, newest first and each
    once, exactly the feedback rows whose author has an account, each
    with the author's username; feedback of an account that is gone is
    not listed.  The site is left as it is. *)
Theorem feedback_listed_to_admin `{P : Postgres} `{!PostgresLaws P} (acting : identity)
    (t : site) :
  (role acting ≠ JStr "admin" →
   get_feedback acting t
   = Replied {| code := 403; json := message "Admin access only" |} t)
  ∧ (role acting = JStr "admin" →
     ∃ rows : list (Z * feedback_row * user),
       get_feedback acting t
       = Replied {| code := 200; json := rows_json (feedback_item <$> rows) |} t
       ∧ NoDup rows.*1.*1
       ∧ StronglySorted (λ a b, f_created_at b.1.2 ≤ f_created_at a.1.2) rows
       ∧ ∀ id f u, (id, f, u) ∈ rows
           ↔ feedback t !! id = Some f ∧ users (catalog t) !! f_user_id f = Some u).
Proof.
  split.
  - intros Hrole. unfold get_feedback.
    destruct (strict_eq_str (role acting) "admin") eqn:Ha; [|done].
    by apply strict_eq_str_true in Ha.
  - intros Hrole. exists (feedback_rows t). split_and!.
    + unfold get_feedback. rewrite Hrole.
      by change (strict_eq_str (JStr "admin") "admin") with true.
    + unfold feedback_rows. rewrite (pg_sort_perm _ newer_feedback (feedback_join t)).
      apply feedback_join_NoDup.
    + unfold feedback_rows.
      eapply StronglySorted_weaken;
        [|apply (pg_sort_sorted _ newer_feedback (feedback_join t))].
      * intros a b Hab. unfold newer_feedback in Hab. lia.
      * intros a b. unfold newer_feedback. lia.
      * intros a b c. unfold newer_feedback. lia.
    + apply elem_of_feedback_rows.
Qed.

Lemma feedback_listed_to_admin_witness :
  get_feedback alice campus_site
  = Replied {| code := 403; json := message "Admin access only" |} campus_site
  ∧ ∃ rows : list (Z * feedback_row * user),
      get_feedback root campus_site
      = Replied {| code := 200; json := rows_json (feedback_item <$> rows) |} campus_site
      ∧ StronglySorted (λ a b, f_created_at b.1.2 ≤ f_created_at a.1.2) rows.
Proof.
  pose proof (@feedback_listed_to_admin reference_postgres reference_postgres_laws
                alice campus_site) as [Hdenied _].
  pose proof (@feedback_listed_to_admin reference_postgres reference_postgres_laws
                root campus_site) as [_ Hshown].
  split.
  - apply Hdenied. discriminate.
  - destruct (Hshown eq_refl) as (rows & Hget & _ & Hsorted & _).
    exists rows. by split.
Defined.

Section FeedbackWrite.
Context `{Engine} `{P : Postgres} `{FeedbackTable}.

(** The three ways a submission can end, and what each has done. *)
Lemma post_feedback_cases now (acting : identity) body t :
  let o := post_feedback now acting body t in
  (∃ e, rating_out_of_range (field body "rating") = Throw e ∧ o = Escaped e t)
  ∨ (rating_out_of_range (field body "rating") = Normal true
     ∧ o = Replied {| code := 400; json := message "Rating must be between 1 and 5" |} t)
  ∨ (rating_out_of_range (field body "rating") = Normal false
     ∧ insert_feedback now (userId acting) (field body "rating")
         (js_or (field body "comment") JNull) t = None
     ∧ o = Replied {| code := 500; json := message "Failed to submit feedback" |} t)
  ∨ (rating_out_of_range (field body "rating") = Normal false
     ∧ ∃ value,
         feedback_rating_in (catalog t) (userId acting) (field body "rating") = Some value
         ∧ feedback t !! feedback_id_seq t = None
         ∧ o = Replied {| code := 201; json := message "Feedback submitted successfully" |}
                 (set_feedback
                    (<[feedback_id_seq t :=
                         {| f_user_id := userId acting; f_rating := value;
                            f_comment := js_or (field body "comment") JNull;
                            f_created_at := now |}]> (feedback t))
                    (feedback_id_seq t + 1) t)).
Proof.
  cbv zeta. unfold post_feedback. cbv zeta.
  destruct (rating_out_of_range (field body "rating")) as [[|]|e] eqn:Hrange.
  - right. left. done.
  - unfold insert_feedback. cbv zeta.
    destruct (feedback t !! feedback_id_seq t) as [f|] eqn:Hfresh.
    + right. right. left. done.
    + destruct (feedback_rating_in _ _ _) as [value|] eqn:Hvalue.
      * right. right. right. split; [done|]. by exists value.
      * right. right. left. done.
  - left. by exists e.
Qed.
End FeedbackWrite.

(** X25.  Submitting feedback.  A rating that is a number outside 1..5
    (NaN included) is refused with 400; whenever the answer is not 201
    the site is left as it is.  With 201 exactly one row was added,
    under a fresh id, with the caller as author, the rating cell the
    store made of the value sent, the comment (NULL when falsy) and
    the time; an admin who reads the feedback afterwards finds it when
    the author has an account.  Feedback already given is never looked
    at: the same submission made again is accepted again when the next
    id is free. *)
Theorem post_feedback_appends `{Engine} `{P : Postgres} `{!PostgresLaws P}
    `{FeedbackTable} (now : Z) (acting : identity) (body : gmap string jsval)
    (t : site) :
  let o := post_feedback now acting body t in
  let accepted :=
    Some {| code := 201; json := message "Feedback submitted successfully" |} in
  (∀ n, field body "rating" = JNum n → ¬ in_range n →
     o = Replied {| code := 400; json := message "Rating must be between 1 and 5" |} t)
  ∧ (reply_of o ≠ accepted → final_site o = t)
  ∧ (reply_of o = accepted →
     ∃ value,
       let f := {| f_user_id := userId acting; f_rating := value;
                   f_comment := js_or (field body "comment") JNull;
                   f_created_at := now |} in
       feedback_rating_in (catalog t) (userId acting) (field body "rating") = Some value
       ∧ feedback t !! feedback_id_seq t = None
       ∧ feedback (final_site o) = <[feedback_id_seq t := f]> (feedback t)
       ∧ catalog (final_site o) = catalog t
       ∧ (∀ u, users (catalog t) !! userId acting = Some u →
            (feedback_id_seq t, f, u) ∈ feedback_rows (final_site o))
       ∧ (∀ later, feedback t !! (feedback_id_seq t + 1) = None →
            reply_of (post_feedback later acting body (final_site o)) = accepted)).
Proof.
  cbv zeta. pose proof (post_feedback_cases now acting body t) as Hcases.
  cbv zeta in Hcases. split_and!.
  - intros n Hn Hout. unfold post_feedback. cbv zeta. rewrite Hn.
    by rewrite (rating_not_in_range n Hout).
  - intros Hno.
    destruct Hcases as [(e & _ & ->) | [[_ ->] | [(_ & _ & ->) | (_ & v & _ & _ & Ho)]]];
      try done.
    rewrite Ho in Hno. by destruct Hno.
  - intros Hyes.
    destruct Hcases as [(e & _ & Ho) | [[_ Ho] | [(_ & _ & Ho) | (Hr & v & Hv & Hf & Ho)]]];
      try (rewrite Ho in Hyes; discriminate Hyes).
    exists v. cbv zeta. rewrite Ho. cbn [final_site].
    split_and!; try done.
    + intros u Hu. apply elem_of_feedback_rows.
      cbn [set_feedback feedback catalog f_user_id].
      split; [apply lookup_insert_eq | exact Hu].
    + intros later Hnext. unfold post_feedback. cbv zeta. rewrite Hr.
      unfold insert_feedback. cbv zeta.
      cbn [set_feedback feedback feedback_id_seq catalog].
      rewrite lookup_insert_ne by lia. rewrite Hnext, Hv. reflexivity.
Qed.

Lemma post_feedback_appends_witness :
  let o := post_feedback 60 alice {[ "rating" := JNum (num_Z 4) ]} campus_site in
  post_feedback 60 alice {[ "rating" := JNum (num_Z 6) ]} campus_site
  = Replied {| code := 400; json := message "Rating must be between 1 and 5" |}
            campus_site
  ∧ feedback (final_site o) !! 3
    = Some {| f_user_id := 1; f_rating := JNum (num_Z 4); f_comment := JNull;
              f_created_at := 60 |}
  ∧ reply_of (post_feedback 61 alice {[ "rating" := JNum (num_Z 4) ]} (final_site o))
    = Some {| code := 201; json := message "Feedback submitted successfully" |}.
Proof.
  cbv zeta.
  pose proof (@post_feedback_appends reference_engine reference_postgres
                reference_postgres_laws reference_feedback_table 60 alice
                {[ "rating" := JNum (num_Z 6) ]} campus_site) as (Hrefused & _).
  pose proof (@post_feedback_appends reference_engine reference_postgres
                reference_postgres_laws reference_feedback_table 60 alice
                {[ "rating" := JNum (num_Z 4) ]} campus_site) as (_ & _ & Hadded).
  cbv zeta in *. split_and!.
  - apply (Hrefused (num_Z 6) eq_refl).
    intros (q & [= <-] & _ & Hhi). by apply Qle_bool_iff in Hhi.
  - destruct (Hadded ltac:(vm_compute; reflexivity)) as (value & Hv & _ & Hrows & _).
    injection Hv as <-. rewrite Hrows. apply lookup_insert_eq.
  - destruct (Hadded ltac:(vm_compute; reflexivity)) as (value & _ & _ & _ & _ & _ & Hagain).
    apply Hagain. vm_compute. reflexivity.
Defined.

(** ** The hero image *)

(** X26.  The hero image.  Only an admin may set it: every other
    caller gets a permission error and nothing changes.  An admin is
    always answered 200, and when the settings row exists the public
    fetch made afterwards returns the value that was sent (NULL when
    none was sent, not the fixed image).  When the settings row does
    not exist the update is lost: the site is as before and the fetch
    keeps returning the fixed image.  Nothing but the hero image of
    row 1 is written. *)
Theorem hero_image_round_trip `{Postgres} (acting : identity)
    (body : gmap string jsval) (t : site) :
  let o := put_hero acting body t in
  (role acting ≠ JStr "admin" →
   o = Replied {| code := 403; json := message "Admin access only" |} t)
  ∧ (role acting = JStr "admin" →
     reply_of o
     = Some {| code := 200; json := message "Hero image updated successfully" |}
     ∧ (is_Some (app_settings t !! 1) →
        get_hero (final_site o)
        = Replied {| code := 200;
                     json := obj [("hero_image_url",
                                   pg_deliver "hero_image_url"
                                     (bound (field body "hero_image_url")))] |}
                  (final_site o))
     ∧ (app_settings t !! 1 = None →
        final_site o = t
        ∧ get_hero (final_site o)
          = Replied {| code := 200;
                       json := obj [("hero_image_url", JStr default_hero_image_url)] |}
                    (final_site o))
     ∧ (∀ k, k ≠ 1 → app_settings (final_site o) !! k = app_settings t !! k)
     ∧ catalog (final_site o) = catalog t
     ∧ account_cells (final_site o) = account_cells t
     ∧ feedback (final_site o) = feedback t
     ∧ stats (final_site o) = stats t).
Proof.
  cbv zeta. split.
  - intros Hrole. unfold put_hero.
    destruct (strict_eq_str (role acting) "admin") eqn:Ha; [|done].
    by apply strict_eq_str_true in Ha.
  - intros Hrole. unfold put_hero. rewrite Hrole.
    change (strict_eq_str (JStr "admin") "admin") with true. cbn [negb].
    cbn [reply_of final_site]. split_and!; try done.
    + intros [v Hv]. unfold get_hero. cbn [set_app_settings app_settings].
      by rewrite lookup_alter_eq, Hv.
    + intros Hnone.
      assert (Hsame : set_app_settings (alter (λ _, bound (field body "hero_image_url")) 1) t
                      = t).
      { destruct t as [s cells fb fbseq settings st]. unfold set_app_settings.
        cbn [catalog account_cells feedback feedback_id_seq app_settings stats] in *.
        f_equal. apply alter_id. intros v Hv. congruence. }
      rewrite Hsame. split; [done|]. unfold get_hero. by rewrite Hnone.
    + intros k Hk. cbn [set_app_settings app_settings]. by rewrite lookup_alter_ne.
Qed.

Lemma hero_image_round_trip_witness :
  put_hero alice {[ "hero_image_url" := JStr "new.png" ]} campus_site
  = Replied {| code := 403; json := message "Admin access only" |} campus_site
  ∧ reply_of (get_hero (final_site (put_hero root {[ "hero_image_url" := JStr "new.png" ]}
                                      campus_site)))
    = Some {| code := 200; json := obj [("hero_image_url", JStr "new.png")] |}
  ∧ reply_of (get_hero (final_site (put_hero root {[ "hero_image_url" := JStr "new.png" ]}
                                      fresh_site)))
    = Some {| code := 200; json := obj [("hero_image_url", JStr default_hero_image_url)] |}.
Proof.
  pose proof (@hero_image_round_trip reference_postgres alice
                {[ "hero_image_url" := JStr "new.png" ]} campus_site) as [Hdenied _].
  pose proof (@hero_image_round_trip reference_postgres root
                {[ "hero_image_url" := JStr "new.png" ]} campus_site) as [_ Hset].
  pose proof (@hero_image_round_trip reference_postgres root
                {[ "hero_image_url" := JStr "new.png" ]} fresh_site) as [_ Hlost].
  cbv zeta in *. split_and!.
  - apply Hdenied. discriminate.
  - destruct (Hset eq_refl) as (_ & Hget & _).
    rewrite Hget by (eexists; reflexivity). reflexivity.
  - destruct (Hlost eq_refl) as (_ & _ & Hnone & _).
    destruct (Hnone eq_refl) as [_ Hget]. by rewrite Hget.
Defined.

(** ** The visit counter *)

Lemma visits_increment_visits (t : site) : visits (increment_visits t) = visits t + 1.
Proof.
  unfold visits, increment_visits, set_stats. cbn [stats].
  rewrite lookup_insert_eq. by destruct (stats t !! "visits").
Qed.

Lemma final_site_get_stats_visits `{Engine} `{Postgres} (t : site) :
  final_site (get_stats_visits t) = increment_visits t.
Proof. unfold get_stats_visits. cbv zeta. by destruct (parseInt _). Qed.

Lemma final_site_serve_stats_visits `{Engine} `{Postgres} (t : site) :
  final_site (serve_stats_visits t) = increment_visits t.
Proof. unfold serve_stats_visits. by rewrite final_site_get_stats_visits. Qed.

(** X27.  The visit counter.  The middleware counts a request exactly
    when its path is not passed on by the test, and then by one; no
    path that begins with /api is ever counted by it.  The route that
    reports the count adds one to it on every request, whoever asks
    and whatever it answers (it starts a missing counter at 1): after
    [k] requests for the count, the count is [k] more.  Nothing but the
    row of key visits is written. *)
Theorem stats_visits_counts_reads `{Engine} `{Postgres} (t : site) :
  (∀ path, skipped path = true → count_visit path t = t)
  ∧ (∀ path, skipped path = false → visits (count_visit path t) = visits t + 1)
  ∧ (∀ rest, skipped ("/api" +:+ rest) = true)
  ∧ visits (final_site (serve_stats_visits t)) = visits t + 1
  ∧ (∀ k, visits (serve_stats_visits_times k t) = visits t + Z.of_nat k)
  ∧ (∀ key, key ≠ "visits" →
       stats (final_site (serve_stats_visits t)) !! key = stats t !! key)
  ∧ catalog (final_site (serve_stats_visits t)) = catalog t
  ∧ account_cells (final_site (serve_stats_visits t)) = account_cells t
  ∧ feedback (final_site (serve_stats_visits t)) = feedback t
  ∧ app_settings (final_site (serve_stats_visits t)) = app_settings t.
Proof.
  split_and!.
  - intros path Hskip. unfold count_visit. by rewrite Hskip.
  - intros path Hskip. unfold count_visit. rewrite Hskip.
    apply visits_increment_visits.
  - intros rest. unfold skipped.
    assert (String.prefix "/api" ("/api" +:+ rest) = true) as ->
      by (cbn; by destruct rest).
    reflexivity.
  - rewrite final_site_serve_stats_visits. apply visits_increment_visits.
  - intros k. revert t. induction k as [|k IH]; intros t.
    + cbn. lia.
    + cbn [serve_stats_visits_times]. rewrite IH, final_site_serve_stats_visits.
      rewrite visits_increment_visits. lia.
  - intros key Hkey. rewrite final_site_serve_stats_visits.
    unfold increment_visits, set_stats. cbn [stats]. by rewrite lookup_insert_ne.
  - by rewrite final_site_serve_stats_visits.
  - by rewrite final_site_serve_stats_visits.
  - by rewrite final_site_serve_stats_visits.
  - by rewrite final_site_serve_stats_visits.
Qed.

Lemma stats_visits_counts_reads_witness :
  count_visit "/api/listings" campus_site = campus_site
  ∧ visits (count_visit "/listing/3" campus_site) = 8
  ∧ visits (count_visit "/logo.png" campus_site) = 7
  ∧ visits (final_site (@serve_stats_visits reference_engine reference_postgres
                          fresh_site)) = 1
  ∧ visits (@serve_stats_visits_times reference_engine reference_postgres 3 campus_site)
    = 10.
Proof.
  pose proof (@stats_visits_counts_reads reference_engine reference_postgres campus_site)
    as (Hskip & Hcount & _ & _ & Htimes & _).
  pose proof (@stats_visits_counts_reads reference_engine reference_postgres fresh_site)
    as (_ & _ & _ & Hone & _).
  split_and!.
  - apply Hskip. reflexivity.
  - rewrite Hcount by reflexivity. reflexivity.
  - rewrite Hskip by reflexivity. reflexivity.
  - rewrite Hone. reflexivity.
  - rewrite Htimes. reflexivity.
Defined.

(** ** Cleaning a row twice *)

Section CleanTwice.
Context `{Engine}.

(** [Number(v) || 0] on a value that [Number(_) || 0] produced gives
    that value again. *)
Lemma Number_or_0_again v w : Number_or_0 v = Normal w → Number_or_0 w = Normal w.
Proof.
  intros (x & _ & ->)%Number_or_0_Normal. unfold js_or.
  destruct (truthy (JNum x)) eqn:Hx.
  - unfold Number_or_0. cbn [ToNumber mbind completion_bind]. unfold js_or.
    by rewrite Hx.
  - reflexivity.
Qed.

Lemma array_or_empty_again v :
  let a := if Array_isArray v then v else JArr [] in
  (if Array_isArray a then a else JArr []) = a.
Proof. cbv zeta. by destruct v. Qed.
End CleanTwice.

(** X28.  [cleanListing] is idempotent: cleaning a row that
    [cleanListing] returned gives the same row again, so a cleaned row
    can be passed through the helper any number of times. *)
Theorem cleanListing_idempotent `{Engine} (row o : gmap string jsval) :
  cleanListing row = Normal o → cleanListing o = Normal o.
Proof.
  unfold cleanListing at 1.
  intros (p & Hp & Hr)%bind_Normal.
  apply bind_Normal in Hr as (a & Ha & Hr).
  apply bind_Normal in Hr as (c & Hc & Hr).
  apply bind_Normal in Hr as (q & Hq & Hr).
  injection Hr as <-.
  apply Number_or_0_again in Hp, Ha, Hc, Hq.
  set (images := if Array_isArray (field row "image_urls")
                 then field row "image_urls" else JArr []).
  set (variants := if Array_isArray (field row "variants")
                   then field row "variants" else JArr []).
  set (o := <["variants" := variants]> (<["image_urls" := images]>
            (<["stock_quantity" := q]> (<["rating_count" := c]>
            (<["average_rating" := a]> (<["price" := p]> row)))))).
  assert (Hprice : field o "price" = p) by (unfold field, o; by simplify_map_eq).
  assert (Havg : field o "average_rating" = a) by (unfold field, o; by simplify_map_eq).
  assert (Hcount : field o "rating_count" = c) by (unfold field, o; by simplify_map_eq).
  assert (Hstock : field o "stock_quantity" = q) by (unfold field, o; by simplify_map_eq).
  assert (Himages : field o "image_urls" = images)
    by (unfold field, o; by simplify_map_eq).
  assert (Hvariants : field o "variants" = variants)
    by (unfold field, o; by simplify_map_eq).
  unfold cleanListing.
  rewrite Hprice, Havg, Hcount, Hstock, Himages, Hvariants, Hp, Ha, Hc, Hq.
  cbn [mbind completion_bind].
  pose proof (array_or_empty_again (field row "image_urls")) as Hi.
  pose proof (array_or_empty_again (field row "variants")) as Hv.
  cbv zeta in Hi, Hv. fold images in Hi. fold variants in Hv. rewrite Hi, Hv.
  f_equal. apply map_eq. intros k. unfold o.
  destruct (decide (k = "variants")) as [-> | ?]; [by simplify_map_eq|].
  destruct (decide (k = "image_urls")) as [-> | ?]; [by simplify_map_eq|].
  destruct (decide (k = "stock_quantity")) as [-> | ?]; [by simplify_map_eq|].
  destruct (decide (k = "rating_count")) as [-> | ?]; [by simplify_map_eq|].
  destruct (decide (k = "average_rating")) as [-> | ?]; [by simplify_map_eq|].
  destruct (decide (k = "price")) as [-> | ?]; [by simplify_map_eq|].
  by simplify_map_eq.
Qed.

Lemma cleanListing_idempotent_witness :
  let o : gmap string jsval :=
    list_to_map [("price", JNum (Fin (25 # 2))); ("average_rating", JNum (num_Z 0));
                 ("rating_count", JNum (num_Z 0)); ("stock_quantity", JNum (num_Z 3));
                 ("image_urls", JArr []); ("variants", JArr [])] in
  @cleanListing reference_engine o = Normal o.
Proof.
  cbv zeta.
  apply (@cleanListing_idempotent reference_engine
           {[ "price" := JStr "12.50"; "stock_quantity" := JStr "3" ]}).
  vm_compute. reflexivity.
Defined.
